(** * WhatsApp transcript parser: a shallow embedding of
      [src/lib/message-parser.ts] and its properties.

    Strings are JavaScript strings, sequences of UTF-16 code units;
    numbers are the integers the parser handles, with [None] for NaN;
    a [Date] is its time value in milliseconds since the epoch, with
    [None] for an invalid date.  The host's time zone and its
    [String.prototype.toLowerCase] are parameters of the development.

    The later parts embed what surrounds the parser: the rest of its
    module, the settings ([src/lib/settings.ts]) and the pure functions
    of the daily summary ([daily-summary.ts]). *)

From Stdlib Require String Ascii QArith Lqa Permutation Sorted.
From Stdlib Require Import List ZArith NArith Bool Lia.
Import ListNotations.
Import String.StringSyntax.
Delimit Scope string_scope with string.

(* ================================================================== *)
(** * JavaScript strings *)
(* ================================================================== *)

Module Str.

(** A string is its list of UTF-16 code units. *)
Definition jsstring := list N.

(** An ASCII literal as a JavaScript string. *)
Definition u (s : String.string) : jsstring :=
  map Ascii.N_of_ascii (String.list_ascii_of_string s).

Arguments u s%_string.

(** White space and line terminators of ECMAScript: what [trim] strips
    and what the class [\s] matches. *)
Definition isWhiteSpace (c : N) : bool :=
  ((9 <=? c) && (c <=? 13) || (c =? 32) || (c =? 160) || (c =? 5760)
   || (8192 <=? c) && (c <=? 8202) || (c =? 8232) || (c =? 8233)
   || (c =? 8239) || (c =? 8287) || (c =? 12288) || (c =? 65279))%N.

Fixpoint trimStart (s : jsstring) : jsstring :=
  match s with
  | c :: s' => if isWhiteSpace c then trimStart s' else s
  | [] => []
  end.

Definition trimEnd (s : jsstring) : jsstring := rev (trimStart (rev s)).

Definition trim (s : jsstring) : jsstring := trimEnd (trimStart s).

Definition isEmpty (s : jsstring) : bool :=
  match s with [] => true | _ :: _ => false end.

(** [s.split(sep)] for a separator of one code unit. *)
Fixpoint split (sep : N) (s : jsstring) : list jsstring :=
  match s with
  | [] => [[]]
  | c :: s' =>
      if (c =? sep)%N then [] :: split sep s'
      else match split sep s' with
           | w :: ws => (c :: w) :: ws
           | [] => [[c]]
           end
  end.

Fixpoint startsWith (s p : jsstring) : bool :=
  match p, s with
  | [], _ => true
  | _ :: _, [] => false
  | a :: p', b :: s' => (a =? b)%N && startsWith s' p'
  end.

(** [s.includes(p)]: [p] occurs in [s] as a substring. *)
Fixpoint includes (s p : jsstring) : bool :=
  startsWith s p ||
  match s with
  | [] => false
  | _ :: s' => includes s' p
  end.

Definition isDigit (c : N) : bool := ((48 <=? c) && (c <=? 57))%N.

(** A JavaScript number as the parser meets them: an integer, or NaN. *)
Definition number := option Z.

Fixpoint digitsValue (acc : Z) (s : jsstring) : number :=
  match s with
  | [] => Some acc
  | c :: s' =>
      if isDigit c then digitsValue (10 * acc + (Z.of_N c - 48)) s' else None
  end.

(** [Number(s)] on the strings the patterns let through, runs of decimal
    digits; the empty string converts to 0 and every other string is
    taken to NaN (signs, fractions, exponents and radix prefixes never
    reach the parser's calls). *)
Definition Number (s : jsstring) : number := digitsValue 0 s.

End Str.

Import Str.

(* ================================================================== *)
(** * Regular expressions *)
(* ================================================================== *)

Module RegExp.

(** One-character matchers: a literal, [\d], [\s], [.], and a negated
    set [[^...]]. *)
Inductive cclass :=
| Lit (c : N)
| Digit
| Space
| Dot
| NoneOf (cs : list N).

Definition isLineTerminator (c : N) : bool :=
  ((c =? 10) || (c =? 13) || (c =? 8232) || (c =? 8233))%N.

Definition cmatch (k : cclass) (c : N) : bool :=
  match k with
  | Lit a => (a =? c)%N
  | Digit => isDigit c
  | Space => isWhiteSpace c
  | Dot => negb (isLineTerminator c)
  | NoneOf cs => negb (existsb (N.eqb c) cs)
  end.

(** The fragment of the pattern language the parser uses: atoms, greedy
    quantifiers over an atom ([*], [+], [{n}], [{n,m}]),
    concatenation, numbered capturing groups and the anchor [^]. *)
Inductive regex :=
| Atom (k : cclass)
| Quant (k : cclass) (lo : nat) (hi : option nat)
| Cat (r1 r2 : regex)
| Group (i : nat) (r : regex)
| Bol.

Definition star (k : cclass) : regex := Quant k 0 None.
Definition plus (k : cclass) : regex := Quant k 1 None.
Definition times (k : cclass) (n : nat) : regex := Quant k n (Some n).

Fixpoint seq (rs : list regex) : regex :=
  match rs with
  | [] => Quant Dot 0 (Some 0)
  | [r] => r
  | r :: rs' => Cat r (seq rs')
  end.

(** A match array: entry 0 is the whole match, entry [i] the text of
    group [i]; [None] is [undefined]. *)
Definition captures := list (option jsstring).

Fixpoint setCap (i : nat) (v : jsstring) (caps : captures) : captures :=
  match caps, i with
  | [], _ => []
  | _ :: caps', O => Some v :: caps'
  | c :: caps', S i' => c :: setCap i' v caps'
  end.

Fixpoint ngroups (r : regex) : nat :=
  match r with
  | Cat r1 r2 => Nat.max (ngroups r1) (ngroups r2)
  | Group i r' => Nat.max i (ngroups r')
  | _ => 0
  end.

(** The part of [inp] consumed to reach its suffix [rest]. *)
Definition consumed (inp rest : jsstring) : jsstring :=
  firstn (length inp - length rest) inp.

Definition canRepeat (hi : option nat) : bool :=
  match hi with Some O => false | _ => true end.

(** Greedy repetition with backtracking: one more character is tried
    first, stopping here (allowed once [lo] is used up) second. *)
Fixpoint quant {A} (k : cclass) (lo : nat) (hi : option nat)
    (inp : jsstring) (kont : jsstring -> option A) {struct inp} : option A :=
  let stop := match lo with O => kont inp | S _ => None end in
  match inp with
  | c :: inp' =>
      if cmatch k c && canRepeat hi then
        match quant k (Nat.pred lo) (option_map Nat.pred hi) inp' kont with
        | Some res => Some res
        | None => stop
        end
      else stop
  | [] => stop
  end.

(** Backtracking matcher in continuation-passing style; [len] is the
    length of the whole subject, for the anchor. *)
Fixpoint rmatch (r : regex) (len : nat) (inp : jsstring) (caps : captures)
    (kont : jsstring -> captures -> option captures) : option captures :=
  match r with
  | Atom k =>
      match inp with
      | c :: inp' => if cmatch k c then kont inp' caps else None
      | [] => None
      end
  | Quant k lo hi => quant k lo hi inp (fun rest => kont rest caps)
  | Cat r1 r2 =>
      rmatch r1 len inp caps (fun rest caps' => rmatch r2 len rest caps' kont)
  | Group i r' =>
      rmatch r' len inp caps
        (fun rest caps' => kont rest (setCap i (consumed inp rest) caps'))
  | Bol => if Nat.eqb (length inp) len then kont inp caps else None
  end.

Definition matchAt (r : regex) (len : nat) (inp : jsstring) : option captures :=
  rmatch r len inp (repeat None (S (ngroups r)))
    (fun rest caps => Some (setCap 0 (consumed inp rest) caps)).

(** The leftmost start position that matches wins. *)
Fixpoint search (r : regex) (len : nat) (inp : jsstring) : option captures :=
  match matchAt r len inp with
  | Some m => Some m
  | None =>
      match inp with
      | [] => None
      | _ :: inp' => search r len inp'
      end
  end.

(** [s.match(r)] for a pattern without flags: the match array or
    [null]. *)
Definition exec (r : regex) (s : jsstring) : option captures :=
  search r (length s) s.

(** Groups that every successful match sets. *)
Fixpoint groupsOf (r : regex) : list nat :=
  match r with
  | Cat r1 r2 => groupsOf r1 ++ groupsOf r2
  | Group i r' => i :: groupsOf r'
  | _ => []
  end.

(** Entry [i] of a match array is a string, not [undefined]. *)
Definition isSet (i : nat) (caps : captures) : Prop :=
  exists v, nth i caps None = Some v.

End RegExp.

Import RegExp.

(* ================================================================== *)
(** * Dates *)
(* ================================================================== *)

Module JSDate.

Local Open Scope Z_scope.

(** A Date object: its time value, [None] for an invalid date. *)
Definition Date := option Z.

Definition msPerSecond := 1000.
Definition msPerMinute := 60000.
Definition msPerHour := 3600000.
Definition msPerDay := 86400000.

Definition Day (t : Z) : Z := t / msPerDay.
Definition TimeWithinDay (t : Z) : Z := t mod msPerDay.

Definition DayFromYear (y : Z) : Z :=
  365 * (y - 1970) + (y - 1969) / 4 - (y - 1901) / 100 + (y - 1601) / 400.

Definition InLeapYear (y : Z) : bool :=
  (y mod 4 =? 0) && (negb (y mod 100 =? 0) || (y mod 400 =? 0)).

(** Days of year [y] that precede its month [m] (0-based). *)
Definition DayWithinYear (y m : Z) : Z :=
  nth (Z.to_nat m) [0; 31; 59; 90; 120; 151; 181; 212; 243; 273; 304; 334] 0
  + (if InLeapYear y && (2 <=? m) then 1 else 0).

(** Months beyond 0..11 carry into the year. *)
Definition MakeDay (year month date : Z) : Z :=
  let ym := year + month / 12 in
  let mn := month mod 12 in
  DayFromYear ym + DayWithinYear ym mn + date - 1.

Definition MakeTime (hour min sec ms : Z) : Z :=
  hour * msPerHour + min * msPerMinute + sec * msPerSecond + ms.

Definition MakeDate (day time : Z) : Z := day * msPerDay + time.

Definition TimeClip (t : Z) : Date :=
  if Z.abs t <=? 8640000000000000 then Some t else None.

Definition HourFromTime (t : Z) : Z := (t / msPerHour) mod 24.
Definition MinFromTime (t : Z) : Z := (t / msPerMinute) mod 60.
Definition SecFromTime (t : Z) : Z := (t / msPerSecond) mod 60.
Definition msFromTime (t : Z) : Z := t mod msPerSecond.

Section Zone.

(** The host's local time zone adjustment, [LocalTZA(t, isUTC)]. *)
Variable LocalTZA : Z -> bool -> Z.

Definition LocalTime (t : Z) : Z := t + LocalTZA t true.
Definition UTC (t : Z) : Z := t - LocalTZA t false.

(** The two-digit-year rule of the Date constructor. *)
Definition fullYear (y : Z) : Z :=
  if (0 <=? y) && (y <=? 99) then 1900 + y else y.

(** [new Date(year, month, day, hours, minutes)], local time. *)
Definition newDate (year month day hours minutes : number) : Date :=
  match year, month, day, hours, minutes with
  | Some y, Some m, Some d, Some h, Some mi =>
      TimeClip (UTC (MakeDate (MakeDay (fullYear y) m d) (MakeTime h mi 0 0)))
  | _, _, _, _, _ => None
  end.

(** [d.setHours(hours, minutes, sec, ms)] on a copy of [d]: the new
    time value. *)
Definition setHours (d : Date) (hours minutes sec ms : number) : Date :=
  match d, hours, minutes, sec, ms with
  | Some t, Some h, Some mi, Some s, Some milli =>
      TimeClip (UTC (MakeDate (Day (LocalTime t)) (MakeTime h mi s milli)))
  | _, _, _, _, _ => None
  end.

(** Local calendar day (days since the epoch) and clock fields. *)
Definition localDay (t : Z) : Z := Day (LocalTime t).
Definition getHours (t : Z) : Z := HourFromTime (LocalTime t).
Definition getMinutes (t : Z) : Z := MinFromTime (LocalTime t).
Definition getSeconds (t : Z) : Z := SecFromTime (LocalTime t).
Definition getMilliseconds (t : Z) : Z := msFromTime (LocalTime t).

End Zone.

(** Relational comparison of two Dates, by their time values; false
    when either is invalid. *)
Definition date_le (a b : Date) : bool :=
  match a, b with
  | Some x, Some y => x <=? y
  | _, _ => false
  end.

End JSDate.

Import JSDate.

(* ================================================================== *)
(** * The parser *)
(* ================================================================== *)

(** Completion of a computation: a value, or a thrown [TypeError]
    (a method called on [undefined]). *)
Inductive completion (A : Type) : Type :=
| Normal (a : A)
| Throw.

Arguments Normal {A} a.
Arguments Throw {A}.

Definition bind {A B} (c : completion A) (f : A -> completion B) : completion B :=
  match c with
  | Normal a => f a
  | Throw => Throw
  end.

Notation "x <- c ;; k" := (bind c (fun x => k))
  (at level 61, c at next level, right associativity).

(** The receiver of a string method: [undefined] throws. *)
Definition str (v : option jsstring) : completion jsstring :=
  match v with
  | Some s => Normal s
  | None => Throw
  end.

Import Ascii.AsciiSyntax.
Delimit Scope char_scope with char.

Definition code (a : Ascii.ascii) : N := Ascii.N_of_ascii a.
Arguments code a%_char.

Definition lit (a : Ascii.ascii) : regex := Atom (Lit (code a)).
Arguments lit a%_char.

(** The four patterns of [messagePatterns], each under its source text.
    The last group of every pattern is the source's dot-star group; it
    is spelled [.{0,}] below, which is the same quantifier. *)

(** [\d{1,2}:\d{2}] *)
Definition timeToken : regex :=
  seq [Quant Digit 1 (Some 2); lit ":"; times Digit 2].

(** [\d{1,2}\/\d{1,2}\/\d{4}] *)
Definition dateToken : regex :=
  seq [Quant Digit 1 (Some 2); lit "/"; Quant Digit 1 (Some 2); lit "/";
       times Digit 4].

(** [/\[(\d{1,2}:\d{2}),\s*(\d{1,2}\/\d{1,2}\/\d{4})\]\s*([^:]+):\s*(.{0,})/] *)
Definition fullTimestampPattern : regex :=
  seq [lit "["; Group 1 timeToken; lit ","; star Space; Group 2 dateToken;
       lit "]"; star Space; Group 3 (plus (NoneOf [code ":"])); lit ":";
       star Space; Group 4 (star Dot)].

(** [/(\d{1,2}:\d{2})\s+([^:]+):\s*(.{0,})/] *)
Definition timeSenderPattern : regex :=
  seq [Group 1 timeToken; plus Space; Group 2 (plus (NoneOf [code ":"]));
       lit ":"; star Space; Group 3 (star Dot)].

(** [/^([^:]+)\s+(\d{1,2}:\d{2})\s+(.{0,})/] *)
Definition senderTimePattern : regex :=
  seq [Bol; Group 1 (plus (NoneOf [code ":"])); plus Space; Group 2 timeToken;
       plus Space; Group 3 (star Dot)].

(** [/^(\d{1,2}:\d{2})\s+(.{0,})/] *)
Definition timeOnlyPattern : regex :=
  seq [Bol; Group 1 timeToken; plus Space; Group 2 (star Dot)].

Definition messagePatterns : list regex :=
  [fullTimestampPattern; timeSenderPattern; senderTimePattern; timeOnlyPattern].

Record WhatsAppMessage := mkMessage {
  timestamp : Date;
  sender : jsstring;
  content : jsstring;
  isMedia : bool;
  mediaType : option jsstring
}.

(** The loop's variables: the output array, the message in progress
    ([null] as [None]) and the rolling reference timestamp. *)
Record State := mkState {
  messages : list WhatsAppMessage;
  currentMessage : option WhatsAppMessage;
  currentTimestamp : Date
}.

(** Non-ASCII code units of the indicator list. *)
Definition i_acute : N := 237.
Definition A_acute : N := 193.
Definition a_acute : N := 225.

Definition mediaIndicators : list jsstring :=
  [u "Photo"; u "Foto"; u "Image"; u "Imagem";
   u "Video"; u "V" ++ i_acute :: u "deo";
   u "Audio"; A_acute :: u "udio";
   u "Document"; u "Documento";
   u "GIF";
   u "Sticker"; u "Figurinha";
   u "<Media omitted>"; u "<M" ++ i_acute :: u "dia oculta>";
   u ".jpg"; u ".png"; u ".mp4"; u ".pdf"; u ".docx"].

Definition sub1 (n : number) : number := option_map (fun z => (z - 1)%Z) n.

(** The pattern loop without its effects: position and match array of
    the first pattern, in list order, that matches [line]. *)
Fixpoint firstMatchFrom (i : nat) (patterns : list regex) (line : jsstring)
  : option (nat * captures) :=
  match patterns with
  | [] => None
  | pattern :: rest =>
      match exec pattern line with
      | Some m => Some (i, m)
      | None => firstMatchFrom (S i) rest line
      end
  end.

Definition firstMatch (line : jsstring) : option (nat * captures) :=
  firstMatchFrom 0 messagePatterns line.

(** Where the pattern at position [i] keeps its time, sender and
    content: the group numbers the destructuring assignments use. *)
Definition timeGroup (i : nat) : nat :=
  match i with 2 => 2 | _ => 1 end.

Definition senderGroup (i : nat) : option nat :=
  match i with 0 => Some 3 | 1 => Some 2 | 2 => Some 1 | _ => None end.

Definition contentGroup (i : nat) : nat :=
  match i with 0 => 4 | 1 => 3 | 2 => 3 | _ => 2 end.

(** A message after one continuation line, and after a run of them. *)
Definition withContinuation (msg : WhatsAppMessage) (k : jsstring)
  : WhatsAppMessage :=
  mkMessage (timestamp msg) (sender msg) (content msg ++ u " " ++ trim k)
    (isMedia msg) (mediaType msg).

Definition continued (msg : WhatsAppMessage) (ks : list jsstring)
  : WhatsAppMessage :=
  fold_left withContinuation ks msg.

(** The text of a message: the trimmed content field, then each
    continuation line trimmed, behind one space. *)
Definition assembled (c : jsstring) (ks : list jsstring) : jsstring :=
  trim c ++ concat (map (fun k => u " " ++ trim k) ks).

Definition noLeadingSpace (s : jsstring) : Prop :=
  match s with
  | c :: _ => isWhiteSpace c = false
  | [] => True
  end.

Definition noTrailingSpace (s : jsstring) : Prop := noLeadingSpace (rev s).

(** Some code unit of [s] is not white space. *)
Definition hasInk (s : jsstring) : bool :=
  existsb (fun c => negb (isWhiteSpace c)) s.

(** What follows a message's continuation lines: the end of the input,
    or the next line that matches a pattern. *)
Definition runEnds (post : list jsstring) : Prop :=
  match post with
  | [] => True
  | next :: _ => firstMatch next <> None
  end.

Section Host.

(** The host's time zone and its [String.prototype.toLowerCase]. *)
Variable LocalTZA : Z -> bool -> Z.
Variable toLowerCase : jsstring -> jsstring.

Definition parseTimestamp (time date : jsstring) : Date :=
  let hm := map Number (split (code ":") time) in
  let dmy := map Number (split (code "/") date) in
  let hours := nth 0 hm None in
  let minutes := nth 1 hm None in
  let day := nth 0 dmy None in
  let month := nth 1 dmy None in
  let year := nth 2 dmy None in
  newDate LocalTZA year (sub1 month) day hours minutes.

Definition parseTimeOnly (time : jsstring) (referenceDate : Date) : Date :=
  let hm := map Number (split (code ":") time) in
  let hours := nth 0 hm None in
  let minutes := nth 1 hm None in
  setHours LocalTZA referenceDate hours minutes (Some 0%Z) (Some 0%Z).

Definition checkIfMedia (content : jsstring) : bool :=
  let lowerContent := toLowerCase content in
  existsb (fun indicator => includes lowerContent (toLowerCase indicator))
    mediaIndicators.

Definition detectMediaType (content : jsstring) : option jsstring :=
  let lowerContent := toLowerCase content in
  if includes lowerContent (u "photo") || includes lowerContent (u "foto")
     || includes lowerContent (u "image") || includes lowerContent (u "imagem")
     || includes lowerContent (u ".jpg") || includes lowerContent (u ".png")
  then Some (u "image")
  else if includes lowerContent (u "video")
     || includes lowerContent (u "v" ++ i_acute :: u "deo")
     || includes lowerContent (u ".mp4")
  then Some (u "video")
  else if includes lowerContent (u "audio")
     || includes lowerContent (a_acute :: u "udio")
     || includes lowerContent (u ".mp3") || includes lowerContent (u ".ogg")
  then Some (u "audio")
  else if includes lowerContent (u "document")
     || includes lowerContent (u "documento")
     || includes lowerContent (u ".pdf") || includes lowerContent (u ".docx")
  then Some (u "document")
  else if includes lowerContent (u "gif")
  then Some (u "gif")
  else if includes lowerContent (u "sticker")
     || includes lowerContent (u "figurinha")
  then Some (u "sticker")
  else Some (u "unknown").

(** [if (currentMessage && currentMessage.content) messages.push(...)] *)
Definition flush (st : State) : list WhatsAppMessage :=
  match currentMessage st with
  | Some m => if isEmpty (content m) then messages st else messages st ++ [m]
  | None => messages st
  end.

(** The body of [if (match)]: the message in progress is saved when it
    has content, and the match array [m] starts a new one, by the
    position [i] of its pattern in [messagePatterns]. *)
Definition startMessage (i : nat) (m : captures) (st : State) : completion State :=
  let saved := flush st in
  if Nat.eqb i 0 then
    time <- str (nth 1 m None) ;;
    date <- str (nth 2 m None) ;;
    sender <- str (nth 3 m None) ;;
    content <- str (nth 4 m None) ;;
    let ts := parseTimestamp time date in
    Normal (mkState saved
              (Some (mkMessage ts (trim sender) (trim content)
                       (checkIfMedia content) None))
              ts)
  else if Nat.eqb i 1 then
    time <- str (nth 1 m None) ;;
    sender <- str (nth 2 m None) ;;
    content <- str (nth 3 m None) ;;
    let ts := parseTimeOnly time (currentTimestamp st) in
    Normal (mkState saved
              (Some (mkMessage ts (trim sender) (trim content)
                       (checkIfMedia content) None))
              ts)
  else if Nat.eqb i 2 then
    sender <- str (nth 1 m None) ;;
    time <- str (nth 2 m None) ;;
    content <- str (nth 3 m None) ;;
    let ts := parseTimeOnly time (currentTimestamp st) in
    Normal (mkState saved
              (Some (mkMessage ts (trim sender) (trim content)
                       (checkIfMedia content) None))
              ts)
  else if Nat.eqb i 3 then
    time <- str (nth 1 m None) ;;
    content <- str (nth 2 m None) ;;
    let ts := parseTimeOnly time (currentTimestamp st) in
    Normal (mkState saved
              (Some (mkMessage ts (u "Unknown") (trim content)
                       (checkIfMedia content) None))
              ts)
  else Normal (mkState saved (currentMessage st) (currentTimestamp st)).

(** [for (const pattern of messagePatterns)] from position [i] on, with
    its [break]: [Some] is the state after the first match, [None] says
    that no pattern matched. *)
Fixpoint tryPatterns (i : nat) (patterns : list regex) (line : jsstring)
    (st : State) : completion (option State) :=
  match patterns with
  | [] => Normal None
  | pattern :: rest =>
      match exec pattern line with
      | Some m => st' <- startMessage i m st ;; Normal (Some st')
      | None => tryPatterns (S i) rest line st
      end
  end.

(** [currentMessage.content = (currentMessage.content || '') + ' ' + line.trim()] *)
Definition appendLine (line : jsstring) (st : State) : State :=
  match currentMessage st with
  | Some m =>
      mkState (messages st)
        (Some (mkMessage (timestamp m) (sender m)
                 (content m ++ u " " ++ trim line) (isMedia m) (mediaType m)))
        (currentTimestamp st)
  | None => st
  end.

(** One turn of [for (const line of lines)]. *)
Definition processLine (st : State) (line : jsstring) : completion State :=
  r <- tryPatterns 0 messagePatterns line st ;;
  match r with
  | Some st' => Normal st'
  | None => Normal (appendLine line st)
  end.

Fixpoint processLines (lines : list jsstring) (st : State) : completion State :=
  match lines with
  | [] => Normal st
  | line :: rest => st' <- processLine st line ;; processLines rest st'
  end.

(** [rawText.split('\n').filter(line => line.trim() !== '')] *)
Definition nonBlankLines (rawText : jsstring) : list jsstring :=
  filter (fun line => negb (isEmpty (trim line))) (split 10 rawText).

(** The post-pass [messages.forEach]. *)
Definition addMediaType (msg : WhatsAppMessage) : WhatsAppMessage :=
  if isMedia msg
  then mkMessage (timestamp msg) (sender msg) (content msg) (isMedia msg)
         (detectMediaType (content msg))
  else msg.

(** [now] is the value of [new Date()] at entry. *)
Definition parseWhatsAppMessages (now : Date) (rawText : jsstring)
  : completion (list WhatsAppMessage) :=
  if isEmpty rawText || Nat.eqb (length (trim rawText)) 0 then Normal []
  else
    st <- processLines (nonBlankLines rawText) (mkState [] None now) ;;
    Normal (map addMediaType (flush st)).

(** [messages.filter(msg => msg.timestamp >= startTime && msg.timestamp <= endTime)],
    the callback's results collected in order. *)
Fixpoint filterMessagesByTime (messages : list WhatsAppMessage)
    (startTime endTime : Date) : list WhatsAppMessage :=
  match messages with
  | [] => []
  | msg :: rest =>
      if date_le startTime (timestamp msg) && date_le (timestamp msg) endTime
      then msg :: filterMessagesByTime rest startTime endTime
      else filterMessagesByTime rest startTime endTime
  end.

Definition initial (now : Date) : State := mkState [] None now.

(** [msg] is the message in the loop's hands after the lines
    [pre ++ line :: ks]: started at [line], which the pattern at
    position [i] matched with match array [m], and continued over [ks],
    none of which matched. *)
Definition StartedAt (now : Date) (pre : list jsstring) (line : jsstring)
    (ks : list jsstring) (i : nat) (m : captures) (msg : WhatsAppMessage)
  : Prop :=
  exists st0 st1 msg0,
    processLines pre (initial now) = Normal st0 /\
    firstMatch line = Some (i, m) /\
    Forall (fun k => firstMatch k = None) ks /\
    startMessage i m st0 = Normal st1 /\
    currentMessage st1 = Some msg0 /\
    msg = continued msg0 ks.

(** [msg], before the media post-pass, comes from the run [line :: ks]
    of [lines]: [ks] are all the lines between [line] and the next
    line that matches, or the end. *)
Definition Emits (now : Date) (lines : list jsstring) (line : jsstring)
    (ks : list jsstring) (i : nat) (m : captures) (msg : WhatsAppMessage)
  : Prop :=
  exists pre post,
    lines = pre ++ line :: ks ++ post /\
    runEnds post /\
    StartedAt now pre line ks i m msg.

(** [msg] was pushed while the loop ran over [lines]: at [next], the
    matched line that ended its run. *)
Definition Pushed (now : Date) (lines : list jsstring) (line : jsstring)
    (ks : list jsstring) (i : nat) (m : captures) (msg : WhatsAppMessage)
  : Prop :=
  exists pre next post,
    lines = pre ++ line :: ks ++ next :: post /\
    firstMatch next <> None /\
    StartedAt now pre line ks i m msg.

(** What [flush] adds to the output: the message in progress, when it
    has content. *)
Definition pending (st : State) : list WhatsAppMessage :=
  match currentMessage st with
  | Some m => if isEmpty (content m) then [] else [m]
  | None => []
  end.

End Host.

(** ** A concrete host, for running the parser *)

(** Lower case on code units below 256, where the host's
    [toLowerCase] maps code unit by code unit: [A-Z] and the
    Latin-1 capitals. *)
Definition lowerLatin1 (s : jsstring) : jsstring :=
  map (fun c =>
         if ((65 <=? c) && (c <=? 90)
             || (192 <=? c) && (c <=? 222) && negb (c =? 215))%N
         then (c + 32)%N else c) s.

(** A host on UTC. *)
Definition utcZone (t : Z) (isUTC : bool) : Z := 0%Z.

Definition parse := parseWhatsAppMessages utcZone lowerLatin1.

(** A host on New York time around 10 March 2024, when the clocks
    went from 02:00 to 03:00: five hours behind UTC before 07:00 UTC of
    that day, four hours behind from then on. A local time that the
    change skipped is read with the offset in force before it. *)
Definition springForward (t : Z) (isUTC : bool) : Z :=
  if isUTC
  then (if t <? 1710054000000 then -18000000 else -14400000)%Z
  else (if t <? 1710054000000 - 14400000 then -18000000 else -14400000)%Z.

(** Local 2024-01-01 12:00 on the UTC host. *)
Definition noon_2024_01_01 : Date :=
  newDate utcZone (Some 2024%Z) (Some 0%Z) (Some 1%Z) (Some 12%Z) (Some 0%Z).

(** A full-timestamp line with one continuation line, and the message
    the parser returns for it. *)
Definition helloInput : jsstring :=
  u "[10:30, 1/1/2024] Alice: Hello" ++ 10%N :: u "how are you".

Definition helloMessage : WhatsAppMessage :=
  mkMessage (newDate utcZone (Some 2024%Z) (Some 0%Z) (Some 1%Z)
               (Some 10%Z) (Some 30%Z))
    (u "Alice") (u "Hello how are you") false None.

(** A line that no pattern matches, then a line that the
    time-and-sender and the time-only pattern match. *)
Definition junkThenBob : jsstring :=
  u "junk" ++ 10%N :: u "9:15 Bob: lunch at noon".

Definition bobMessage : WhatsAppMessage :=
  mkMessage (newDate utcZone (Some 2024%Z) (Some 0%Z) (Some 1%Z)
               (Some 9%Z) (Some 15%Z))
    (u "Bob") (u "lunch at noon") false None.

(** Two lines that only the time-only pattern matches. *)
Definition twoTimeOnly : jsstring :=
  u "14:00 first" ++ 10%N :: u "15:30 see you later".

Definition firstUnknown : WhatsAppMessage :=
  mkMessage (newDate utcZone (Some 2024%Z) (Some 0%Z) (Some 1%Z)
               (Some 14%Z) (Some 0%Z))
    (u "Unknown") (u "first") false None.

Definition laterUnknown : WhatsAppMessage :=
  mkMessage (newDate utcZone (Some 2024%Z) (Some 0%Z) (Some 1%Z)
               (Some 15%Z) (Some 30%Z))
    (u "Unknown") (u "see you later") false None.

(** A media placeholder. *)
Definition mediaInput : jsstring :=
  u "[08:00, 2/2/2024] Carol: <Media omitted>".

Definition mediaMessage : WhatsAppMessage :=
  mkMessage (newDate utcZone (Some 2024%Z) (Some 1%Z) (Some 2%Z)
               (Some 8%Z) (Some 0%Z))
    (u "Carol") (u "<Media omitted>") true (Some (u "unknown")).

(* ================================================================== *)
(** * The rest of the parser module and its callers *)
(* ================================================================== *)

(** [a === b] on strings. *)
Fixpoint streq (a b : jsstring) : bool :=
  match a, b with
  | [], [] => true
  | x :: a', y :: b' => (x =? y)%N && streq a' b'
  | _, _ => false
  end.

(** A JavaScript [Map] with string keys: its entries in insertion
    order. [set] on a key already present keeps the key's place. *)
Module JSMap.

Section Entries.

Variable V : Type.

Definition t := list (jsstring * V).

Fixpoint get (k : jsstring) (m : t) : option V :=
  match m with
  | [] => None
  | (k', v) :: m' => if streq k k' then Some v else get k m'
  end.

Definition has (k : jsstring) (m : t) : bool :=
  match get k m with Some _ => true | None => false end.

Fixpoint set (k : jsstring) (v : V) (m : t) : t :=
  match m with
  | [] => [(k, v)]
  | (k', v') :: m' =>
      if streq k k' then (k, v) :: m' else (k', v') :: set k v m'
  end.

Definition keys (m : t) : list jsstring := map fst m.

End Entries.

Arguments get {V} k m.
Arguments has {V} k m.
Arguments set {V} k v m.
Arguments keys {V} m.

End JSMap.

(** [WhatsAppCapture] of [whatsapp-data.ts]. *)
Module Capture.

Record t := mk {
  timestamp : Date;
  messages : list WhatsAppMessage;
  rawText : jsstring;
  screenshot : option jsstring
}.

End Capture.

(** The grouping loop, which [groupMessagesBySender] runs on the
    senders of messages and [groupTopicsByCategory] on the categories
    of topics.  In one turn the key's array is created when the map
    lacks it, and the item is pushed onto the array the map holds.
    [get] on a missing key is [undefined], and [push] on it would
    throw. *)
Section Grouping.

Context {A : Type}.
Variable key : A -> jsstring.

Definition groupStep (grouped : JSMap.t (list A)) (item : A)
  : completion (JSMap.t (list A)) :=
  let k := key item in
  let grouped :=
    if negb (JSMap.has k grouped) then JSMap.set k [] grouped
    else grouped in
  match JSMap.get k grouped with
  | Some arr => Normal (JSMap.set k (arr ++ [item]) grouped)
  | None => Throw
  end.

Fixpoint groupInto (grouped : JSMap.t (list A)) (items : list A)
  : completion (JSMap.t (list A)) :=
  match items with
  | [] => Normal grouped
  | item :: rest =>
      grouped' <- groupStep grouped item ;; groupInto grouped' rest
  end.

(** The keys of [items], each once, in the order of their first
    item. *)
Definition keysInOrder (items : list A) : list jsstring :=
  rev (nodup (list_eq_dec N.eq_dec) (rev (map key items))).

End Grouping.

Definition groupMessagesBySender (messages : list WhatsAppMessage)
  : completion (JSMap.t (list WhatsAppMessage)) :=
  groupInto sender [] messages.

(** The senders of [messages], each once, in the order of their first
    message. *)
Definition sendersInOrder (messages : list WhatsAppMessage) : list jsstring :=
  keysInOrder sender messages.

(** Two messages that agree on everything but the timestamp. *)
Definition sameText (a b : WhatsAppMessage) : Prop :=
  sender a = sender b /\ content a = content b /\
  isMedia a = isMedia b /\ mediaType a = mediaType b.

Definition isMatched (line : jsstring) : bool :=
  match firstMatch line with Some _ => true | None => false end.

(** [WhatsAppTopicsSettings] of [settings.ts]; its numbers are taken
    as integers, or NaN. *)
Record WhatsAppTopicsSettings := mkSettings {
  enabled : bool;
  updateInterval : number;
  aiModel : jsstring;
  categories : list jsstring;
  minImportanceScore : number;
  autoSummarize : bool;
  summarizeTime : jsstring;
  storageLocation : jsstring;
  maxDaysToKeep : number;
  notifyUrgentTopics : bool;
  excludeSenders : list jsstring;
  includeOnlySenders : list jsstring;
  language : jsstring
}.

Section HostRest.

Variable LocalTZA : Z -> bool -> Z.
Variable toLowerCase : jsstring -> jsstring.

(** [messages.filter(msg => msg.sender.toLowerCase().includes(sender.toLowerCase()))] *)
Fixpoint filterMessagesBySender (messages : list WhatsAppMessage)
    (senderName : jsstring) : list WhatsAppMessage :=
  match messages with
  | [] => []
  | msg :: rest =>
      if includes (toLowerCase (sender msg)) (toLowerCase senderName)
      then msg :: filterMessagesBySender rest senderName
      else filterMessagesBySender rest senderName
  end.

(** [captures.map(capture => ({...capture, messages: parseWhatsAppMessages(capture.rawText)}))];
    [clock i] is the value of [new Date()] in the call for the capture
    at position [i]. *)
Fixpoint extractMessagesFrom (clock : nat -> Date) (i : nat)
    (captures : list Capture.t) : completion (list Capture.t) :=
  match captures with
  | [] => Normal []
  | capture :: rest =>
      msgs <- parseWhatsAppMessages LocalTZA toLowerCase (clock i)
                (Capture.rawText capture) ;;
      rest' <- extractMessagesFrom clock (S i) rest ;;
      Normal (Capture.mk (Capture.timestamp capture) msgs
                (Capture.rawText capture) (Capture.screenshot capture)
              :: rest')
  end.

Definition extractMessagesFromCaptures (clock : nat -> Date)
    (captures : list Capture.t) : completion (list Capture.t) :=
  extractMessagesFrom clock 0 captures.

(** [list.some(entry => sender.toLowerCase().includes(entry.toLowerCase()))] *)
Definition someMatches (senderName : jsstring) (list : list jsstring) : bool :=
  existsb (fun entry => includes (toLowerCase senderName) (toLowerCase entry))
    list.

Definition shouldProcessSender (senderName : jsstring)
    (settings : WhatsAppTopicsSettings) : bool :=
  if Nat.ltb 0 (length (excludeSenders settings))
     && someMatches senderName (excludeSenders settings)
  then false
  else if Nat.ltb 0 (length (includeOnlySenders settings))
  then someMatches senderName (includeOnlySenders settings)
  else true.

End HostRest.

(* ================================================================== *)
(** * Settings: validation and schedule *)
(* ================================================================== *)

(** The pattern language of [settings.ts], for [RegExp.prototype.test]:
    character ranges (a literal is a range of one), [p?], concatenation,
    alternation and the anchors. *)
Module TestRegExp.

Inductive pattern :=
| Range (lo hi : N)
| Opt (p : pattern)
| Cat (p q : pattern)
| Alt (p q : pattern)
| Bol
| Eol.

(** Some way of matching [p] at the head of [inp] leaves a rest that
    [kont] accepts; [len] is the length of the whole subject. *)
Fixpoint accepts (p : pattern) (len : nat) (inp : jsstring)
    (kont : jsstring -> bool) : bool :=
  match p with
  | Range lo hi =>
      match inp with
      | c :: inp' => (lo <=? c)%N && (c <=? hi)%N && kont inp'
      | [] => false
      end
  | Opt p' => accepts p' len inp kont || kont inp
  | Cat p1 p2 => accepts p1 len inp (fun rest => accepts p2 len rest kont)
  | Alt p1 p2 => accepts p1 len inp kont || accepts p2 len inp kont
  | Bol => Nat.eqb (length inp) len && kont inp
  | Eol => isEmpty inp && kont inp
  end.

Fixpoint testFrom (p : pattern) (len : nat) (inp : jsstring) : bool :=
  accepts p len inp (fun _ => true)
  || match inp with
     | [] => false
     | _ :: inp' => testFrom p len inp'
     end.

(** [p.test(s)] *)
Definition test (p : pattern) (s : jsstring) : bool := testFrom p (length s) s.

Fixpoint cat (ps : list pattern) : pattern :=
  match ps with
  | [] => Opt Bol
  | [p] => p
  | p :: ps' => Cat p (cat ps')
  end.

Definition chr (a : Ascii.ascii) : pattern := Range (code a) (code a).
Arguments chr a%_char.

Definition range (a b : Ascii.ascii) : pattern := Range (code a) (code b).
Arguments range (a b)%_char.

End TestRegExp.

(** The calendar fields of a time value, as ECMAScript defines them. *)
Module JSCalendar.

Local Open Scope Z_scope.

(** The year whose first day is the last one not after [t]: an
    estimate from the mean length of a year, corrected by one. *)
Definition YearFromTime (t : Z) : Z :=
  let d := Day t in
  let y := 1970 + (400 * d) / 146097 in
  if d <? DayFromYear y then y - 1
  else if DayFromYear (y + 1) <=? d then y + 1
  else y.

(** The day of [t] within its year, from 0. *)
Definition DayInYear (t : Z) : Z := Day t - DayFromYear (YearFromTime t).

Definition MonthFromTime (t : Z) : Z :=
  let y := YearFromTime t in
  let d := DayInYear t in
  if d <? DayWithinYear y 1 then 0
  else if d <? DayWithinYear y 2 then 1
  else if d <? DayWithinYear y 3 then 2
  else if d <? DayWithinYear y 4 then 3
  else if d <? DayWithinYear y 5 then 4
  else if d <? DayWithinYear y 6 then 5
  else if d <? DayWithinYear y 7 then 6
  else if d <? DayWithinYear y 8 then 7
  else if d <? DayWithinYear y 9 then 8
  else if d <? DayWithinYear y 10 then 9
  else if d <? DayWithinYear y 11 then 10
  else 11.

Definition DateFromTime (t : Z) : Z :=
  DayInYear t - DayWithinYear (YearFromTime t) (MonthFromTime t) + 1.

Section Zone.

Variable LocalTZA : Z -> bool -> Z.

(** [d.getDate()] *)
Definition getDate (d : Date) : number :=
  match d with
  | Some t => Some (DateFromTime (LocalTime LocalTZA t))
  | None => None
  end.

(** [d.setDate(date)]: the new time value. *)
Definition setDate (d : Date) (date : number) : Date :=
  match d, date with
  | Some t, Some dt =>
      let lt := LocalTime LocalTZA t in
      TimeClip (UTC LocalTZA
                  (MakeDate (MakeDay (YearFromTime lt) (MonthFromTime lt) dt)
                     (TimeWithinDay lt)))
  | _, _ => None
  end.

End Zone.

(** [d.getTime()] and [new Date(value)]. *)
Definition getTime (d : Date) : number := d.

Definition dateOfNumber (value : number) : Date :=
  match value with
  | Some v => TimeClip v
  | None => None
  end.

End JSCalendar.

Import JSCalendar.

(** Arithmetic and comparison of numbers; a comparison with NaN is
    false. *)
Definition num_add (a b : number) : number :=
  match a, b with Some x, Some y => Some (x + y)%Z | _, _ => None end.

Definition num_mul (a b : number) : number :=
  match a, b with Some x, Some y => Some (x * y)%Z | _, _ => None end.

Definition num_lt (a b : number) : bool :=
  match a, b with Some x, Some y => (x <? y)%Z | _, _ => false end.

(** [list.join(sep)] *)
Fixpoint join (sep : jsstring) (list : list jsstring) : jsstring :=
  match list with
  | [] => []
  | [s] => s
  | s :: rest => s ++ sep ++ join sep rest
  end.

(** [/^([0-1]?[0-9]|2[0-3]):[0-5][0-9]$/] *)
Definition timeFormat : TestRegExp.pattern :=
  TestRegExp.cat
    [TestRegExp.Bol;
     TestRegExp.Alt
       (TestRegExp.Cat (TestRegExp.Opt (TestRegExp.range "0" "1"))
          (TestRegExp.range "0" "9"))
       (TestRegExp.Cat (TestRegExp.chr "2") (TestRegExp.range "0" "3"));
     TestRegExp.chr ":"; TestRegExp.range "0" "5"; TestRegExp.range "0" "9";
     TestRegExp.Eol].

Definition isValidTimeFormat (time : jsstring) : bool :=
  TestRegExp.test timeFormat time.

Definition validModels : list jsstring :=
  [u "llama3.2"; u "phi4:14b-q4_K_M"; u "gpt-4o"; u "claude-3-sonnet"].

Record ValidationResult := mkValidation {
  valid : bool;
  errors : list jsstring
}.

(** [errors.push(message)] under [if (test)]. *)
Definition pushIf (test : bool) (message : jsstring) (errors : list jsstring)
  : list jsstring :=
  if test then errors ++ [message] else errors.

Definition validateSettings (settings : WhatsAppTopicsSettings)
  : ValidationResult :=
  let errors := [] in
  let errors :=
    pushIf (num_lt (updateInterval settings) (Some 5%Z)
            || num_lt (Some 360%Z) (updateInterval settings))
      (u "Update interval must be between 5 and 360 minutes") errors in
  let errors :=
    pushIf (negb (existsb (streq (aiModel settings)) validModels))
      (u "AI model must be one of: " ++ join (u ", ") validModels) errors in
  let errors :=
    pushIf (Nat.eqb (length (categories settings)) 0)
      (u "At least one category must be defined") errors in
  let errors :=
    pushIf (num_lt (minImportanceScore settings) (Some 1%Z)
            || num_lt (Some 10%Z) (minImportanceScore settings))
      (u "Minimum importance score must be between 1 and 10") errors in
  let errors :=
    pushIf (autoSummarize settings
            && negb (isValidTimeFormat (summarizeTime settings)))
      (u "Summarize time must be in HH:MM format") errors in
  let errors :=
    pushIf (num_lt (maxDaysToKeep settings) (Some 1%Z)
            || num_lt (Some 365%Z) (maxDaysToKeep settings))
      (u "Max days to keep must be between 1 and 365") errors in
  mkValidation (Nat.eqb (length errors) 0) errors.

Definition DEFAULT_SETTINGS : WhatsAppTopicsSettings :=
  mkSettings true (Some 30%Z) (u "llama3.2")
    [u "work"; u "personal"; u "urgent"; u "reminders"; u "links";
     u "appointments"; u "tasks"]
    (Some 6%Z) true (u "18:00") (u "whatsapp-topics") (Some 30%Z) true
    [] [] (u "en").

Section Schedule.

Variable LocalTZA : Z -> bool -> Z.

(** [now] is the value of [new Date()] in the call. *)
Definition getNextRunTime (now : Date) (settings : WhatsAppTopicsSettings)
  : Date :=
  dateOfNumber
    (num_add (getTime now)
       (num_mul (num_mul (updateInterval settings) (Some 60%Z)) (Some 1000%Z))).

(** [None] is [null]. *)
Definition getNextSummaryTime (now : Date) (settings : WhatsAppTopicsSettings)
  : option Date :=
  if negb (autoSummarize settings) then None
  else
    let hm := map Number (split (code ":") (summarizeTime settings)) in
    let hours := nth 0 hm None in
    let minutes := nth 1 hm None in
    let summaryTime := setHours LocalTZA now hours minutes (Some 0%Z) (Some 0%Z) in
    if date_le summaryTime now
    then Some (setDate LocalTZA summaryTime
                 (num_add (getDate LocalTZA summaryTime) (Some 1%Z)))
    else Some summaryTime.

End Schedule.

(* ================================================================== *)
(** * The daily summary *)
(* ================================================================== *)

(** The importance of a topic.  The analyser's schema admits a finite
    number only, and every finite JavaScript number is a rational. *)
Module Importance.

Import QArith_base.

Definition t : Type := Q.

Definition ofZ (n : Z) : t := inject_Z n.

(** [importance >= n] *)
Definition ge (importance : t) (n : Z) : bool :=
  Qle_bool (inject_Z n) importance.

(** [a - b], and the test [x > 0] on it.  The floating-point difference
    of two finite numbers has the sign of their exact difference. *)
Definition minus (a b : t) : t := Qminus a b.

Definition positive (x : t) : bool := negb (Qle_bool x (inject_Z 0)).

End Importance.

(** A topic, as the analyser's schema has it; [deadline] is optional. *)
Module Topic.

Record t := mk {
  title : jsstring;
  summary : jsstring;
  category : jsstring;
  importance : Importance.t;
  participants : list jsstring;
  keyPoints : list jsstring;
  relatedMessages : list jsstring;
  timestamp : jsstring;
  actionRequired : bool;
  deadline : option jsstring
}.

End Topic.

Inductive Priority : Type := high | medium | low.

Module ActionItem.

Record t := mk {
  task : jsstring;
  assignee : jsstring;
  deadline : option Date;
  priority : Priority;
  topic : jsstring;
  completed : bool
}.

End ActionItem.

Module TimeDistribution.

Record t := mk {
  hour : Z;
  messageCount : Z;
  topicCount : Z
}.

End TimeDistribution.

(** The array [l] after the element at index [i] has been changed to
    [x]; [i] is an index of [l] wherever the code writes. *)
Fixpoint replaceAt {A : Type} (i : nat) (x : A) (l : list A) : list A :=
  match l, i with
  | [], _ => []
  | _ :: l', O => x :: l'
  | y :: l', S i' => y :: replaceAt i' x l'
  end.

(** [distribution[hour]]: the element at an index of the array,
    [undefined] at any other number and at NaN. *)
Definition entryAt (distribution : list TimeDistribution.t) (hour : number)
  : option TimeDistribution.t :=
  match hour with
  | Some h =>
      if (0 <=? h)%Z then nth_error distribution (Z.to_nat h) else None
  | None => None
  end.

(** [distribution[hour].field++]: a property of [undefined] cannot be
    read, so an index outside the array throws. *)
Definition increment (bump : TimeDistribution.t -> TimeDistribution.t)
    (distribution : list TimeDistribution.t) (hour : number)
  : completion (list TimeDistribution.t) :=
  match entryAt distribution hour, hour with
  | Some entry, Some h =>
      Normal (replaceAt (Z.to_nat h) (bump entry) distribution)
  | _, _ => Throw
  end.

Definition messageCountUp (entry : TimeDistribution.t) : TimeDistribution.t :=
  TimeDistribution.mk (TimeDistribution.hour entry)
    (TimeDistribution.messageCount entry + 1)%Z
    (TimeDistribution.topicCount entry).

Definition topicCountUp (entry : TimeDistribution.t) : TimeDistribution.t :=
  TimeDistribution.mk (TimeDistribution.hour entry)
    (TimeDistribution.messageCount entry)
    (TimeDistribution.topicCount entry + 1)%Z.

(** The loop [for (let hour = 0; hour < 24; hour++) distribution.push(...)]. *)
Definition initialDistribution : list TimeDistribution.t :=
  map (fun hour => TimeDistribution.mk (Z.of_nat hour) 0%Z 0%Z) (List.seq 0 24).

(** [array.sort(comparefn)].  For a consistent comparator the result
    is fixed by the language: the elements in ascending order of the
    comparator, those that compare equal in their order in the array
    (the sort is stable from ECMAScript 2019 on).  The elements are
    inserted from the right; an element goes behind those that the
    comparator puts strictly before it. *)
Section Sort.

Context {A : Type}.
Variable comparefn : A -> A -> Importance.t.

Fixpoint insertSorted (x : A) (sorted : list A) : list A :=
  match sorted with
  | [] => [x]
  | y :: rest =>
      if Importance.positive (comparefn x y) then y :: insertSorted x rest
      else x :: sorted
  end.

Definition sort (array : list A) : list A :=
  fold_right insertSorted [] array.

End Sort.

(** [(a, b) => b.importance - a.importance] *)
Definition byImportance (a b : Topic.t) : Importance.t :=
  Importance.minus (Topic.importance b) (Topic.importance a).

(** [grouped.forEach((topicList, category) => grouped.set(category, topicList.sort(...)))]:
    the entries are visited in insertion order; [set] on a key of the
    map changes the value in place, so [entries], the entries still to
    visit, are those the map had when the loop began. *)
Fixpoint sortGroups (entries : list (jsstring * list Topic.t))
    (grouped : JSMap.t (list Topic.t)) : JSMap.t (list Topic.t) :=
  match entries with
  | [] => grouped
  | (category, topicList) :: rest =>
      sortGroups rest
        (JSMap.set category (sort byImportance topicList) grouped)
  end.

Definition groupTopicsByCategory (topics : list Topic.t)
  : completion (JSMap.t (list Topic.t)) :=
  grouped <- groupInto Topic.category [] topics ;;
  Normal (sortGroups grouped grouped).

(** [b] is not more important than [a]. *)
Definition descending (a b : Topic.t) : Prop :=
  QArith_base.Qle (Topic.importance b) (Topic.importance a).

(** The topics of importance [q]. *)
Definition ofImportance (q : Importance.t) (topic : Topic.t) : bool :=
  QArith_base.Qeq_bool (Topic.importance topic) q.

Section DailySummary.

Variable LocalTZA : Z -> bool -> Z.
Variable toLowerCase : jsstring -> jsstring.

(** [new Date(s)] for a string [s]: the host's [Date.parse]. *)
Variable parseDate : jsstring -> Date.

(** [d.getHours()], NaN for an invalid date. *)
Definition hoursOf (d : Date) : number :=
  match d with
  | Some t => Some (getHours LocalTZA t)
  | None => None
  end.

(** The test on a key point in [extractActionItemsFromTopics]. *)
Definition isActionPoint (point : jsstring) : bool :=
  includes (toLowerCase point) (u "need to")
  || includes (toLowerCase point) (u "will")
  || includes (toLowerCase point) (u "should")
  || includes (toLowerCase point) (u "must").

(** The object pushed for a key point of a topic.
    [topic.participants[0] || "Unknown"] takes the default for a
    missing and for an empty first participant;
    [topic.deadline ? new Date(topic.deadline) : undefined] is
    [undefined] for a missing and for an empty deadline. *)
Definition actionItem (topic : Topic.t) (point : jsstring) : ActionItem.t :=
  ActionItem.mk point
    (match Topic.participants topic with
     | first :: _ => if isEmpty first then u "Unknown" else first
     | [] => u "Unknown"
     end)
    (match Topic.deadline topic with
     | Some s => if isEmpty s then None else Some (parseDate s)
     | None => None
     end)
    (if Importance.ge (Topic.importance topic) 8 then high
     else if Importance.ge (Topic.importance topic) 5 then medium
     else low)
    (Topic.title topic)
    false.

(** [topic.keyPoints.forEach(point => { if (...) actionItems.push({...}) })] *)
Fixpoint pushActionItems (topic : Topic.t) (points : list jsstring)
    (actionItems : list ActionItem.t) : list ActionItem.t :=
  match points with
  | [] => actionItems
  | point :: rest =>
      pushActionItems topic rest
        (if isActionPoint point
         then actionItems ++ [actionItem topic point]
         else actionItems)
  end.

(** [topics.forEach(topic => { if (topic.actionRequired) ... })] *)
Fixpoint extractActionItemsInto (topics : list Topic.t)
    (actionItems : list ActionItem.t) : list ActionItem.t :=
  match topics with
  | [] => actionItems
  | topic :: rest =>
      extractActionItemsInto rest
        (if Topic.actionRequired topic
         then pushActionItems topic (Topic.keyPoints topic) actionItems
         else actionItems)
  end.

Definition extractActionItemsFromTopics (topics : list Topic.t)
  : list ActionItem.t :=
  extractActionItemsInto topics [].

(** [messages.forEach(msg => { distribution[msg.timestamp.getHours()].messageCount++ })] *)
Fixpoint countMessages (messages : list WhatsAppMessage)
    (distribution : list TimeDistribution.t)
  : completion (list TimeDistribution.t) :=
  match messages with
  | [] => Normal distribution
  | msg :: rest =>
      distribution <- increment messageCountUp distribution
                        (hoursOf (timestamp msg)) ;;
      countMessages rest distribution
  end.

(** [topics.forEach(topic => { distribution[new Date(topic.timestamp).getHours()].topicCount++ })] *)
Fixpoint countTopics (topics : list Topic.t)
    (distribution : list TimeDistribution.t)
  : completion (list TimeDistribution.t) :=
  match topics with
  | [] => Normal distribution
  | topic :: rest =>
      distribution <- increment topicCountUp distribution
                        (hoursOf (parseDate (Topic.timestamp topic))) ;;
      countTopics rest distribution
  end.

Definition calculateTimeDistribution (messages : list WhatsAppMessage)
    (topics : list Topic.t) : completion (list TimeDistribution.t) :=
  distribution <- countMessages messages initialDistribution ;;
  countTopics topics distribution.

(** The messages, and the topics, of one hour of the day. *)
Definition inHour (h : Z) (d : Date) : bool :=
  match d with
  | Some t => (getHours LocalTZA t =? h)%Z
  | None => false
  end.

Definition messagesAt (h : Z) (messages : list WhatsAppMessage)
  : list WhatsAppMessage :=
  filter (fun msg => inHour h (timestamp msg)) messages.

Definition topicsAt (h : Z) (topics : list Topic.t) : list Topic.t :=
  filter (fun topic => inHour h (parseDate (Topic.timestamp topic))) topics.

End DailySummary.

(** The words that make a key point an action item. *)
Definition actionKeywords : list jsstring :=
  [u "need to"; u "will"; u "should"; u "must"].

(** The total of a count over the hours. *)
Definition total (count : TimeDistribution.t -> Z)
    (distribution : list TimeDistribution.t) : Z :=
  fold_right (fun entry acc => (count entry + acc)%Z) 0%Z distribution.

(** A distribution with an entry for each hour, in order, whose counts
    are given by [cm] and [ct]. *)
Definition tabulated (cm ct : nat -> Z)
    (distribution : list TimeDistribution.t) : Prop :=
  length distribution = 24 /\
  forall i,
    i < 24 ->
    nth_error distribution i =
      Some (TimeDistribution.mk (Z.of_nat i) (cm i) (ct i)).

(** Sample data. *)
Definition alice1 : WhatsAppMessage :=
  mkMessage (Some 1000%Z) (u "Alice") (u "hi") false None.
Definition bob1 : WhatsAppMessage :=
  mkMessage (Some 2000%Z) (u "Bob") (u "hello") false None.
Definition alice2 : WhatsAppMessage :=
  mkMessage (Some 3000%Z) (u "Alice") (u "bye") false None.

Definition onlyAlice : WhatsAppTopicsSettings :=
  mkSettings true (Some 30%Z) (u "llama3.2") [u "work"] (Some 6%Z) true
    (u "18:00") (u "whatsapp-topics") (Some 30%Z) true [] [u "alice"] (u "en").

Definition blockAll : WhatsAppTopicsSettings :=
  mkSettings true (Some 30%Z) (u "llama3.2") [u "work"] (Some 6%Z) true
    (u "18:00") (u "whatsapp-topics") (Some 30%Z) true [u "bob"; []] []
    (u "en").

Definition helloCapture : Capture.t :=
  Capture.mk (Some 1704110400000%Z) [] helloInput None.

Definition helloCaptureParsed : Capture.t :=
  Capture.mk (Some 1704110400000%Z) [helloMessage] helloInput None.

Definition release : Topic.t :=
  Topic.mk (u "Release") (u "Release planning") (u "work")
    (Importance.ofZ 9) [u "Alice"; u "Bob"]
    [u "We must ship on Friday"; u "Budget approved"; u "Bob will test"]
    [] (u "2024-01-01T10:30:00Z") true (Some (u "2024-01-05")).

Definition retro : Topic.t :=
  Topic.mk (u "Retro") (u "Sprint retrospective") (u "work")
    (Importance.ofZ 5) [u "Bob"] [u "Notes shared"] []
    (u "2024-01-01T10:30:00Z") false None.

Definition lunch : Topic.t :=
  Topic.mk (u "Lunch") (u "Lunch on Sunday") (u "personal")
    (Importance.ofZ 3) [] [] [] (u "2024-01-01T10:30:00Z") false None.

Definition cleanup : Topic.t :=
  Topic.mk (u "Cleanup") (u "Office cleanup") (u "work")
    (Importance.ofZ 5) [] [] [] (u "2024-01-01T10:30:00Z") false None.

(** Settings whose summary time lacks the colon. *)
Definition noColon : WhatsAppTopicsSettings :=
  mkSettings true (Some 30%Z) (u "llama3.2") [u "work"] (Some 6%Z) true
    (u "1800") (u "whatsapp-topics") (Some 30%Z) true [] [] (u "en").

(** A [Date.parse] that knows two strings. *)
Definition sampleParseDate (s : jsstring) : Date :=
  if streq s (u "2024-01-01T10:30:00Z") then Some 1704105000000%Z
  else if streq s (u "2024-01-05") then Some 1704412800000%Z
  else None.

Definition shipItem : ActionItem.t :=
  ActionItem.mk (u "We must ship on Friday") (u "Alice")
    (Some (Some 1704412800000%Z)) high (u "Release") false.

(** Three messages in the first hour of the day and a topic in the
    eleventh. *)
Definition sampleDistribution : list TimeDistribution.t :=
  replaceAt 10 (TimeDistribution.mk 10 0 1)
    (replaceAt 0 (TimeDistribution.mk 0 3 0) initialDistribution).

(* ================================================================== *)
(** * Properties *)
(* ================================================================== *)

(** ** Trimming *)

Lemma hasInk_app a b : hasInk (a ++ b) = hasInk a || hasInk b.
Proof. apply existsb_app. Qed.

Lemma hasInk_rev s : hasInk (rev s) = hasInk s.
Proof.
  induction s as [|c s IH]; simpl; [reflexivity|].
  rewrite hasInk_app, IH. simpl. rewrite orb_false_r. apply orb_comm.
Qed.

Lemma trimStart_ink s : hasInk (trimStart s) = hasInk s.
Proof.
  induction s as [|c s IH]; simpl; [reflexivity|].
  destruct (isWhiteSpace c) eqn:E; simpl; rewrite ?E; auto.
Qed.

Lemma trimStart_nil_iff s : trimStart s = [] <-> hasInk s = false.
Proof.
  induction s as [|c s IH]; simpl; [tauto|].
  destruct (isWhiteSpace c); simpl; [exact IH|].
  split; discriminate.
Qed.

Lemma trim_nil_iff s : trim s = [] <-> hasInk s = false.
Proof.
  unfold trim, trimEnd. split; intros H.
  - apply (f_equal (@rev N)) in H. rewrite rev_involutive in H. simpl in H.
    apply trimStart_nil_iff in H.
    now rewrite hasInk_rev, trimStart_ink in H.
  - assert (E : trimStart (rev (trimStart s)) = []).
    { apply trimStart_nil_iff. now rewrite hasInk_rev, trimStart_ink. }
    now rewrite E.
Qed.

Lemma trimStart_noLeading s : noLeadingSpace (trimStart s).
Proof.
  induction s as [|c s IH]; simpl; [exact I|].
  destruct (isWhiteSpace c) eqn:E; [exact IH | exact E].
Qed.

Lemma trimStart_fixed s : noLeadingSpace s -> trimStart s = s.
Proof. destruct s as [|c s]; simpl; [reflexivity|]. now intros ->. Qed.

Lemma trimStart_app a b :
  b <> [] -> noLeadingSpace b -> trimStart (a ++ b) = trimStart a ++ b.
Proof.
  intros Hb Hl. induction a as [|c a IH]; simpl.
  - now apply trimStart_fixed.
  - destruct (isWhiteSpace c); [exact IH | reflexivity].
Qed.

Lemma noLeadingSpace_app a b :
  a <> [] -> noLeadingSpace a -> noLeadingSpace (a ++ b).
Proof. destruct a; simpl; [congruence | auto]. Qed.

Lemma noTrailingSpace_app a b :
  b <> [] -> noTrailingSpace b -> noTrailingSpace (a ++ b).
Proof.
  unfold noTrailingSpace. intros Hb H. rewrite rev_app_distr.
  apply noLeadingSpace_app; [|exact H].
  intros E. apply Hb. apply (f_equal (@rev N)) in E.
  now rewrite rev_involutive in E.
Qed.

Lemma trimEnd_noTrailing s : noTrailingSpace (trimEnd s).
Proof.
  unfold noTrailingSpace, trimEnd. rewrite rev_involutive.
  apply trimStart_noLeading.
Qed.

Lemma trimEnd_noLeading s : noLeadingSpace s -> noLeadingSpace (trimEnd s).
Proof.
  unfold trimEnd. destruct s as [|c s]; simpl; [auto|]. intros Hc.
  rewrite trimStart_app; [| discriminate | exact Hc].
  rewrite rev_app_distr. simpl. exact Hc.
Qed.

Lemma trim_noTrailing s : noTrailingSpace (trim s).
Proof. apply trimEnd_noTrailing. Qed.

Lemma trim_noLeading s : noLeadingSpace (trim s).
Proof. apply trimEnd_noLeading, trimStart_noLeading. Qed.

Lemma trim_fixed s : noLeadingSpace s -> noTrailingSpace s -> trim s = s.
Proof.
  intros Hl Ht. unfold trim, trimEnd. rewrite (trimStart_fixed s Hl).
  rewrite (trimStart_fixed (rev s) Ht). apply rev_involutive.
Qed.

Lemma trim_idempotent s : trim (trim s) = trim s.
Proof. apply trim_fixed; [apply trim_noLeading | apply trim_noTrailing]. Qed.

(** ** The matcher sets the groups it passes *)

Lemma setCap_length i v caps : length (setCap i v caps) = length caps.
Proof.
  revert i. induction caps as [|c caps IH]; intros [|i]; simpl; auto.
Qed.

Lemma setCap_same i v caps :
  i < length caps -> nth i (setCap i v caps) None = Some v.
Proof.
  revert i. induction caps as [|c caps IH]; intros [|i]; simpl; intros H;
    try lia; auto.
  apply IH. lia.
Qed.

Lemma setCap_keeps i j v caps : isSet j caps -> isSet j (setCap i v caps).
Proof.
  unfold isSet. revert i j.
  induction caps as [|c caps IH]; intros [|i] [|j]; simpl; auto.
  intros _. now exists v.
Qed.

Lemma quant_some {A} k inp : forall lo hi kont (res : A),
  quant k lo hi inp kont = Some res -> exists rest, kont rest = Some res.
Proof.
  induction inp as [|c inp IH]; intros lo hi kont res; simpl.
  - destruct lo; [eauto | discriminate].
  - destruct (cmatch k c && canRepeat hi).
    + destruct (quant k (Nat.pred lo) (option_map Nat.pred hi) inp kont)
        as [res'|] eqn:E.
      * intros [= <-]. eapply IH; eauto.
      * destruct lo; [eauto | discriminate].
    + destruct lo; [eauto | discriminate].
Qed.

Lemma rmatch_sets r : forall len inp caps kont res,
  rmatch r len inp caps kont = Some res ->
  exists rest caps',
    kont rest caps' = Some res /\
    length caps' = length caps /\
    (forall j, isSet j caps -> isSet j caps') /\
    (forall j, In j (groupsOf r) -> j < length caps -> isSet j caps').
Proof.
  induction r as [k | k lo hi | r1 IH1 r2 IH2 | i r IH | ];
    intros len inp caps kont res H; simpl in *.
  - destruct inp as [|c inp]; [discriminate|].
    destruct (cmatch k c); [|discriminate].
    exists inp, caps. intuition.
  - apply quant_some in H as [rest H].
    exists rest, caps. intuition.
  - apply IH1 in H as (rest1 & caps1 & H & L1 & M1 & G1).
    apply IH2 in H as (rest2 & caps2 & H & L2 & M2 & G2).
    exists rest2, caps2. repeat split; auto; [congruence|].
    intros j Hj Hlt. apply in_app_or in Hj as [Hj|Hj].
    + apply M2, G1; auto.
    + apply G2; auto. congruence.
  - apply IH in H as (rest & caps' & H & L & M & G).
    exists rest, (setCap i (consumed inp rest) caps').
    repeat split; auto.
    + now rewrite setCap_length.
    + intros j Hj. apply setCap_keeps, M, Hj.
    + intros j [<-|Hj] Hlt.
      * eexists. apply setCap_same. congruence.
      * apply setCap_keeps, G; auto.
  - destruct (Nat.eqb (length inp) len); [|discriminate].
    exists inp, caps. intuition.
Qed.

Lemma matchAt_sets r len inp m :
  matchAt r len inp = Some m ->
  forall j, In j (groupsOf r) -> j <= ngroups r -> isSet j m.
Proof.
  unfold matchAt. intros E j Hj Hle.
  apply rmatch_sets in E as (rest & caps' & E & L & _ & G).
  assert (Em : setCap 0 (consumed inp rest) caps' = m) by congruence.
  rewrite <- Em. apply setCap_keeps, G; auto.
  rewrite repeat_length. lia.
Qed.

Lemma search_sets r len inp m :
  search r len inp = Some m ->
  forall j, In j (groupsOf r) -> j <= ngroups r -> isSet j m.
Proof.
  induction inp as [|c inp IH]; cbn [search];
    destruct (matchAt r len _) as [m'|] eqn:E; try discriminate; auto.
  all: intros [= <-]; eapply matchAt_sets; eauto.
Qed.

Lemma exec_sets r s m :
  exec r s = Some m ->
  forall j, In j (groupsOf r) -> j <= ngroups r -> isSet j m.
Proof. apply search_sets. Qed.

(** ** The four patterns set all their groups *)

Ltac group_set H :=
  eapply exec_sets; [exact H | vm_compute; tauto | vm_compute; lia].

Lemma fullTimestamp_groups line m :
  exec fullTimestampPattern line = Some m ->
  isSet 1 m /\ isSet 2 m /\ isSet 3 m /\ isSet 4 m.
Proof. intros H. repeat split; group_set H. Qed.

Lemma timeSender_groups line m :
  exec timeSenderPattern line = Some m -> isSet 1 m /\ isSet 2 m /\ isSet 3 m.
Proof. intros H. repeat split; group_set H. Qed.

Lemma senderTime_groups line m :
  exec senderTimePattern line = Some m -> isSet 1 m /\ isSet 2 m /\ isSet 3 m.
Proof. intros H. repeat split; group_set H. Qed.

Lemma timeOnly_groups line m :
  exec timeOnlyPattern line = Some m -> isSet 1 m /\ isSet 2 m.
Proof. intros H. repeat split; group_set H. Qed.

(** ** The pattern loop *)

Lemma firstMatch_spec line i m :
  firstMatch line = Some (i, m) <->
  i < 4 /\ exec (nth i messagePatterns Bol) line = Some m /\
  forall j, j < i -> exec (nth j messagePatterns Bol) line = None.
Proof.
  unfold firstMatch, messagePatterns, firstMatchFrom. split.
  - destruct (exec fullTimestampPattern line) as [m0|] eqn:E0.
    { intros [= <- <-]. repeat split; auto; lia. }
    destruct (exec timeSenderPattern line) as [m1|] eqn:E1.
    { intros [= <- <-]. repeat split; auto.
      intros [|j] Hj; [exact E0 | lia]. }
    destruct (exec senderTimePattern line) as [m2|] eqn:E2.
    { intros [= <- <-]. repeat split; auto.
      intros [|[|j]] Hj; [exact E0 | exact E1 | lia]. }
    destruct (exec timeOnlyPattern line) as [m3|] eqn:E3; [|discriminate].
    intros [= <- <-]. repeat split; auto.
    intros [|[|[|j]]] Hj; [exact E0 | exact E1 | exact E2 | lia].
  - intros (Hi & Hm & Hn).
    pose proof (Hn 0) as H0. pose proof (Hn 1) as H1.
    pose proof (Hn 2) as H2. simpl in H0, H1, H2.
    destruct i as [|[|[|[|i]]]]; [| | | |lia]; simpl in Hm.
    + now rewrite Hm.
    + rewrite H0, Hm by lia. reflexivity.
    + rewrite H0, H1, Hm by lia. reflexivity.
    + rewrite H0, H1, H2, Hm by lia. reflexivity.
Qed.

Lemma firstMatch_none line :
  firstMatch line = None <->
  forall j, j < 4 -> exec (nth j messagePatterns Bol) line = None.
Proof.
  unfold firstMatch, messagePatterns, firstMatchFrom. split.
  - destruct (exec fullTimestampPattern line) eqn:E0; [discriminate|].
    destruct (exec timeSenderPattern line) eqn:E1; [discriminate|].
    destruct (exec senderTimePattern line) eqn:E2; [discriminate|].
    destruct (exec timeOnlyPattern line) eqn:E3; [discriminate|].
    intros _ [|[|[|[|j]]]] Hj; simpl; auto. lia.
  - intros H.
    pose proof (H 0) as H0. pose proof (H 1) as H1.
    pose proof (H 2) as H2. pose proof (H 3) as H3.
    simpl in H0, H1, H2, H3.
    rewrite H0, H1, H2, H3 by lia. reflexivity.
Qed.

(** ** Blank input *)

Lemma split_chars sep s : forall line c,
  In line (split sep s) -> In c line -> In c s.
Proof.
  induction s as [|x s IH]; intros line c; simpl.
  - intros [<-|[]] [].
  - destruct (x =? sep)%N.
    + intros [<-|H] Hc; [destruct Hc|]. right. eapply IH; eauto.
    + destruct (split sep s) as [|w ws] eqn:E.
      * intros [<-|[]] [<-|[]]. now left.
      * intros [<-|H] Hc.
        -- destruct Hc as [<-|Hc]; [now left|]. right.
           apply (IH w); [now left | exact Hc].
        -- right. apply (IH line); [now right | exact Hc].
Qed.

Lemma hasInk_false_iff s :
  hasInk s = false <-> forall c, In c s -> isWhiteSpace c = true.
Proof.
  induction s as [|x s IH]; simpl; [easy|]. split.
  - intros H. apply orb_false_elim in H as [H1 H2]. intros c [<-|Hc].
    + now destruct (isWhiteSpace x).
    + now apply IH.
  - intros H. rewrite (H x) by now left. simpl. apply IH.
    intros c Hc. apply H. now right.
Qed.

Lemma nonBlankLines_blank rawText :
  hasInk rawText = false -> nonBlankLines rawText = [].
Proof.
  intros H. unfold nonBlankLines.
  assert (Hall : forall line, In line (split 10 rawText) ->
                              negb (isEmpty (trim line)) = false).
  { intros line Hin.
    assert (E : hasInk line = false).
    { apply hasInk_false_iff. intros c Hc.
      apply (proj1 (hasInk_false_iff rawText) H), (split_chars 10 _ line c); auto. }
    apply trim_nil_iff in E. now rewrite E. }
  induction (split 10 rawText) as [|x l IH]; simpl; [reflexivity|].
  rewrite Hall by now left. apply IH. intros line Hin. apply Hall. now right.
Qed.

Lemma blank_guard s :
  isEmpty s || Nat.eqb (length (trim s)) 0 = negb (hasInk s).
Proof.
  destruct (hasInk s) eqn:E; simpl.
  - destruct s as [|c s]; [discriminate|]. simpl.
    destruct (trim (c :: s)) eqn:Et; [|reflexivity].
    apply trim_nil_iff in Et. congruence.
  - apply trim_nil_iff in E. rewrite E. apply orb_true_r.
Qed.

Section HostFacts.

Variable LocalTZA : Z -> bool -> Z.
Variable toLowerCase : jsstring -> jsstring.

Abbreviation startMessage := (startMessage LocalTZA toLowerCase).
Abbreviation tryPatterns := (tryPatterns LocalTZA toLowerCase).
Abbreviation processLine := (processLine LocalTZA toLowerCase).
Abbreviation processLines := (processLines LocalTZA toLowerCase).
Abbreviation parseTimeOnly := (parseTimeOnly LocalTZA).
Abbreviation parseTimestamp := (parseTimestamp LocalTZA).
Abbreviation checkIfMedia := (checkIfMedia toLowerCase).
Abbreviation detectMediaType := (detectMediaType toLowerCase).
Abbreviation addMediaType := (addMediaType toLowerCase).
Abbreviation parseWhatsAppMessages := (parseWhatsAppMessages LocalTZA toLowerCase).
Abbreviation StartedAt := (StartedAt LocalTZA toLowerCase).
Abbreviation Emits := (Emits LocalTZA toLowerCase).
Abbreviation Pushed := (Pushed LocalTZA toLowerCase).

Lemma tryPatterns_firstMatchFrom patterns : forall i line st,
  tryPatterns i patterns line st =
  match firstMatchFrom i patterns line with
  | Some (j, m) => st' <- startMessage j m st ;; Normal (Some st')
  | None => Normal None
  end.
Proof.
  induction patterns as [|p ps IH]; intros i line st; simpl; [reflexivity|].
  destruct (exec p line); [reflexivity | apply IH].
Qed.

(** What a match leaves in the loop's variables. *)
Lemma startMessage_spec line i m st :
  firstMatch line = Some (i, m) ->
  exists time c ts msg0,
    nth (timeGroup i) m None = Some time /\
    nth (contentGroup i) m None = Some c /\
    ts = (if Nat.eqb i 0
          then match nth 2 m None with
               | Some date => parseTimestamp time date
               | None => None
               end
          else parseTimeOnly time (currentTimestamp st)) /\
    msg0 = mkMessage ts
             (match senderGroup i with
              | Some g => match nth g m None with
                          | Some s => trim s
                          | None => []
                          end
              | None => u "Unknown"
              end)
             (trim c) (checkIfMedia c) None /\
    (forall g, senderGroup i = Some g -> isSet g m) /\
    startMessage i m st = Normal (mkState (flush st) (Some msg0) ts).
Proof.
  intros H. apply firstMatch_spec in H as (Hi & Hm & _).
  destruct i as [|[|[|[|i]]]]; [| | | |lia]; simpl in Hm.
  - apply fullTimestamp_groups in Hm
      as ((t & Ht) & (d & Hd) & (s & Hs) & (c & Hc)).
    exists t, c. do 2 eexists. unfold startMessage. simpl.
    rewrite Ht, Hd, Hs, Hc. simpl. repeat split; try reflexivity.
    intros g [= <-]. now exists s.
  - apply timeSender_groups in Hm as ((t & Ht) & (s & Hs) & (c & Hc)).
    exists t, c. do 2 eexists. unfold startMessage. simpl.
    rewrite Ht, Hs, Hc. simpl. repeat split; try reflexivity.
    intros g [= <-]. now exists s.
  - apply senderTime_groups in Hm as ((s & Hs) & (t & Ht) & (c & Hc)).
    exists t, c. do 2 eexists. unfold startMessage. simpl.
    rewrite Ht, Hs, Hc. simpl. repeat split; try reflexivity.
    intros g [= <-]. now exists s.
  - apply timeOnly_groups in Hm as ((t & Ht) & (c & Hc)).
    exists t, c. do 2 eexists. unfold startMessage. simpl.
    rewrite Ht, Hc. simpl. repeat split; try reflexivity.
    intros g [=].
Qed.

Lemma processLine_cases st line :
  processLine st line =
  match firstMatch line with
  | Some (i, m) => startMessage i m st
  | None => Normal (appendLine line st)
  end.
Proof.
  unfold processLine. rewrite tryPatterns_firstMatchFrom.
  fold (firstMatch line).
  destruct (firstMatch line) as [[i m]|]; [|reflexivity].
  simpl. destruct (startMessage i m st); reflexivity.
Qed.

Lemma processLine_total st line : exists st', processLine st line = Normal st'.
Proof.
  rewrite processLine_cases.
  destruct (firstMatch line) as [[i m]|] eqn:E; [|eauto].
  destruct (startMessage_spec line i m st E)
    as (t & c & ts & msg0 & _ & _ & _ & _ & _ & H).
  eauto.
Qed.

Lemma processLines_total lines : forall st,
  exists st', processLines lines st = Normal st'.
Proof.
  induction lines as [|line lines IH]; intros st; simpl; [eauto|].
  destruct (processLine_total st line) as [st' ->]. simpl. apply IH.
Qed.

Lemma processLines_app a : forall b st,
  processLines (a ++ b) st = (st' <- processLines a st ;; processLines b st').
Proof.
  induction a as [|line a IH]; intros b st; simpl; [reflexivity|].
  destruct (processLine st line); simpl; [apply IH | reflexivity].
Qed.

(** ** Where the emitted messages come from *)

Lemma continued_snoc msg ks k :
  continued msg (ks ++ [k]) = withContinuation (continued msg ks) k.
Proof. unfold continued. now rewrite fold_left_app. Qed.

Lemma Pushed_grow now lines line ks i m msg more :
  Pushed now lines line ks i m msg ->
  Pushed now (lines ++ more) line ks i m msg.
Proof.
  intros (pre & next & post & -> & Hn & H). exists pre, next, (post ++ more).
  split; [|split; assumption].
  rewrite <- app_assoc. simpl. now rewrite <- app_assoc.
Qed.

Lemma Pushed_Emits now lines line ks i m msg :
  Pushed now lines line ks i m msg -> Emits now lines line ks i m msg.
Proof.
  intros (pre & next & post & -> & Hn & H). exists pre, (next :: post).
  split; [reflexivity|]. split; [exact Hn | exact H].
Qed.

Lemma StartedAt_Emits now pre line ks i m msg :
  StartedAt now pre line ks i m msg ->
  Emits now (pre ++ line :: ks) line ks i m msg.
Proof.
  intros H. exists pre, []. rewrite app_nil_r.
  split; [reflexivity|]. split; [exact I | exact H].
Qed.

Lemma StartedAt_Pushed now pre line ks i m msg next :
  firstMatch next <> None ->
  StartedAt now pre line ks i m msg ->
  Pushed now ((pre ++ line :: ks) ++ [next]) line ks i m msg.
Proof.
  intros Hn H. exists pre, next, []. split; [|split; assumption].
  rewrite <- app_assoc. reflexivity.
Qed.

(** The push at a line that matches closes the run in progress. *)
Lemma flush_Pushed now lines st next :
  (forall msg, In msg (messages st) ->
     exists line ks i m, Pushed now lines line ks i m msg) ->
  (forall msg, currentMessage st = Some msg ->
     exists pre line ks i m,
       lines = pre ++ line :: ks /\ StartedAt now pre line ks i m msg) ->
  firstMatch next <> None ->
  forall msg, In msg (flush st) ->
    exists line ks i m, Pushed now (lines ++ [next]) line ks i m msg.
Proof.
  intros Hm Hc Hn msg Hin. unfold flush in Hin.
  assert (Hold : In msg (messages st) ->
                 exists line ks i m,
                   Pushed now (lines ++ [next]) line ks i m msg).
  { intros H. destruct (Hm msg H) as (line & ks & i & m & E).
    exists line, ks, i, m. now apply Pushed_grow. }
  destruct (currentMessage st) as [cur|] eqn:Ec; [|auto].
  destruct (isEmpty (content cur)); [auto|].
  apply in_app_or in Hin as [Hin|[<-|[]]]; [auto|].
  destruct (Hc cur eq_refl) as (pre & line & ks & i & m & -> & H).
  exists line, ks, i, m. now apply StartedAt_Pushed.
Qed.

(** The push after the loop closes the last run. *)
Lemma flush_Emits now lines st :
  (forall msg, In msg (messages st) ->
     exists line ks i m, Pushed now lines line ks i m msg) ->
  (forall msg, currentMessage st = Some msg ->
     exists pre line ks i m,
       lines = pre ++ line :: ks /\ StartedAt now pre line ks i m msg) ->
  forall msg, In msg (flush st) ->
    exists line ks i m, Emits now lines line ks i m msg.
Proof.
  intros Hm Hc msg Hin. unfold flush in Hin.
  assert (Hold : In msg (messages st) ->
                 exists line ks i m, Emits now lines line ks i m msg).
  { intros H. destruct (Hm msg H) as (line & ks & i & m & E).
    exists line, ks, i, m. now apply Pushed_Emits. }
  destruct (currentMessage st) as [cur|] eqn:Ec; [|auto].
  destruct (isEmpty (content cur)); [auto|].
  apply in_app_or in Hin as [Hin|[<-|[]]]; [auto|].
  destruct (Hc cur eq_refl) as (pre & line & ks & i & m & -> & H).
  exists line, ks, i, m. now apply StartedAt_Emits.
Qed.

Lemma processLines_provenance now : forall rest lines st,
  processLines lines (initial now) = Normal st ->
  (forall msg, In msg (messages st) ->
     exists line ks i m, Pushed now lines line ks i m msg) ->
  (forall msg, currentMessage st = Some msg ->
     exists pre line ks i m,
       lines = pre ++ line :: ks /\ StartedAt now pre line ks i m msg) ->
  forall stF, processLines rest st = Normal stF ->
  forall msg, In msg (flush stF) ->
    exists line ks i m, Emits now (lines ++ rest) line ks i m msg.
Proof.
  induction rest as [|l rest IH]; intros lines st Hrun Hm Hc stF HF msg Hin.
  - simpl in HF. injection HF as <-. rewrite app_nil_r.
    eapply flush_Emits; eauto.
  - simpl in HF. destruct (processLine st l) as [st1|] eqn:E1; [|discriminate].
    simpl in HF.
    replace (lines ++ l :: rest) with ((lines ++ [l]) ++ rest)
      by (rewrite <- app_assoc; reflexivity).
    assert (Hrun1 : processLines (lines ++ [l]) (initial now) = Normal st1).
    { rewrite processLines_app, Hrun. simpl. now rewrite E1. }
    rewrite processLine_cases in E1.
    destruct (firstMatch l) as [[i m]|] eqn:El.
    + destruct (startMessage_spec l i m st El)
        as (t & c & ts & msg0 & _ & _ & _ & _ & _ & Hs).
      assert (st1 = mkState (flush st) (Some msg0) ts) by congruence. subst st1.
      apply (IH (lines ++ [l]) _ Hrun1) with (stF := stF);
        [ | | exact HF | exact Hin]; simpl.
      * intros msg' Hin'. eapply flush_Pushed; eauto. congruence.
      * intros msg' [= <-]. exists lines, l, [], i, m. split; [reflexivity|].
        exists st. do 2 eexists. repeat split; eauto.
    + injection E1 as <-.
      apply (IH (lines ++ [l]) _ Hrun1) with (stF := stF);
        [ | | exact HF | exact Hin]; unfold appendLine;
        destruct (currentMessage st) as [cur|] eqn:Ec; simpl; try discriminate.
      * intros msg' Hin'. destruct (Hm msg' Hin') as (l0 & ks & i & m & E).
        exists l0, ks, i, m. now apply Pushed_grow.
      * intros msg' Hin'. destruct (Hm msg' Hin') as (l0 & ks & i & m & E).
        exists l0, ks, i, m. now apply Pushed_grow.
      * intros msg' [= <-].
        destruct (Hc cur eq_refl) as (pre & l0 & ks & i & m & -> & H).
        exists pre, l0, (ks ++ [l]), i, m. split.
        { rewrite <- app_assoc. reflexivity. }
        destruct H as (st0 & st1 & msg0 & H1 & H2 & H3 & H4 & H5 & ->).
        exists st0, st1, msg0. repeat split; auto.
        { apply Forall_app. split; auto. }
        now rewrite continued_snoc.
      * rewrite Ec. discriminate.
Qed.

(** The non-blank lines, each with ink. *)
Lemma nonBlankLines_ink rawText line :
  In line (nonBlankLines rawText) -> hasInk line = true.
Proof.
  unfold nonBlankLines. intros H. apply filter_In in H as [_ H].
  destruct (hasInk line) eqn:E; [reflexivity|].
  apply trim_nil_iff in E. now rewrite E in H.
Qed.

(** The whole parse: the run over the non-blank lines never throws,
    and every message it returns is, up to the media post-pass, one the
    run emits. *)
Lemma parse_unfold now rawText :
  exists st,
    processLines (nonBlankLines rawText) (initial now) = Normal st /\
    parseWhatsAppMessages now rawText =
      Normal (if isEmpty rawText || Nat.eqb (length (trim rawText)) 0
              then [] else map addMediaType (flush st)).
Proof.
  destruct (processLines_total (nonBlankLines rawText) (initial now))
    as [st Hst].
  exists st. split; [exact Hst|].
  unfold parseWhatsAppMessages. fold (initial now).
  destruct (isEmpty rawText || Nat.eqb (length (trim rawText)) 0);
    [reflexivity|].
  now rewrite Hst.
Qed.

Lemma flush_nonempty st :
  (forall msg, In msg (messages st) -> content msg <> []) ->
  forall msg, In msg (flush st) -> content msg <> [].
Proof.
  intros H msg Hin. unfold flush in Hin.
  destruct (currentMessage st) as [cur|]; [|auto].
  destruct (isEmpty (content cur)) eqn:E; [auto|].
  apply in_app_or in Hin as [Hin|[<-|[]]]; [auto|].
  intros E'. now rewrite E' in E.
Qed.

Lemma processLines_nonempty : forall lines st stF,
  (forall msg, In msg (messages st) -> content msg <> []) ->
  processLines lines st = Normal stF ->
  forall msg, In msg (messages stF) -> content msg <> [].
Proof.
  induction lines as [|l lines IH]; intros st stF H HF; simpl in HF.
  - now injection HF as <-.
  - destruct (processLine st l) as [st1|] eqn:E1; [|discriminate].
    simpl in HF. apply (IH st1 stF); [|exact HF].
    rewrite processLine_cases in E1.
    destruct (firstMatch l) as [[i m]|] eqn:El.
    + destruct (startMessage_spec l i m st El)
        as (t & c & ts & msg0 & _ & _ & _ & _ & _ & Hs).
      assert (st1 = mkState (flush st) (Some msg0) ts) by congruence. subst st1.
      simpl. now apply flush_nonempty.
    + injection E1 as <-. unfold appendLine.
      destruct (currentMessage st); exact H.
Qed.

Lemma parse_provenance now rawText msgs msg :
  parseWhatsAppMessages now rawText = Normal msgs ->
  In msg msgs ->
  exists line ks i m msg',
    Emits now (nonBlankLines rawText) line ks i m msg' /\
    content msg' <> [] /\
    msg = addMediaType msg'.
Proof.
  intros Hp Hin.
  destruct (parse_unfold now rawText) as (st & Hst & Hp').
  rewrite Hp' in Hp. injection Hp as <-.
  destruct (isEmpty rawText || Nat.eqb (length (trim rawText)) 0);
    [contradiction|].
  apply in_map_iff in Hin as (msg' & <- & Hin).
  assert (Hne : content msg' <> []).
  { revert Hin. apply flush_nonempty.
    apply (processLines_nonempty (nonBlankLines rawText) (initial now) st);
      [|exact Hst].
    intros ? []. }
  destruct (processLines_provenance now (nonBlankLines rawText) [] (initial now))
    with (stF := st) (msg := msg') as (line & ks & i & m & E); auto.
  - intros ? [].
  - intros ? [=].
  - exists line, ks, i, m, msg'. auto.
Qed.

(** ** Fields of an emitted message *)

Lemma continued_fields ks : forall msg0,
  timestamp (continued msg0 ks) = timestamp msg0 /\
  sender (continued msg0 ks) = sender msg0 /\
  isMedia (continued msg0 ks) = isMedia msg0 /\
  mediaType (continued msg0 ks) = mediaType msg0 /\
  content (continued msg0 ks) =
    content msg0 ++ concat (map (fun k => u " " ++ trim k) ks).
Proof.
  induction ks as [|k ks IH]; intros msg0.
  - simpl. now rewrite app_nil_r.
  - change (continued msg0 (k :: ks))
      with (continued (withContinuation msg0 k) ks).
    destruct (IH (withContinuation msg0 k)) as (-> & -> & -> & -> & ->).
    simpl. repeat split. now rewrite <- !app_assoc.
Qed.

Lemma Emits_fields now lines line ks i m msg :
  Emits now lines line ks i m msg ->
  exists time c,
    nth (timeGroup i) m None = Some time /\
    nth (contentGroup i) m None = Some c /\
    content msg = assembled c ks /\
    isMedia msg = checkIfMedia c /\
    mediaType msg = None /\
    sender msg = match senderGroup i with
                 | Some g => match nth g m None with
                             | Some s => trim s
                             | None => []
                             end
                 | None => u "Unknown"
                 end.
Proof.
  intros (pre & post & _ & _ & st0 & st1 & msg0 & _ & Hf & _ & Hs & Hc & ->).
  destruct (startMessage_spec line i m st0 Hf)
    as (time & c & ts & msg1 & Ht & Hcg & _ & Hmsg & _ & Hs').
  rewrite Hs' in Hs. injection Hs as <-. simpl in Hc. injection Hc as <-.
  exists time, c.
  destruct (continued_fields ks msg1) as (_ & -> & -> & -> & ->).
  subst msg1. simpl. repeat split; auto.
Qed.

Lemma Emits_lines now lines line ks i m msg :
  Emits now lines line ks i m msg ->
  In line lines /\ forall k, In k ks -> In k lines.
Proof.
  intros (pre & post & -> & _ & _). split.
  - apply in_or_app. right. now left.
  - intros k Hk. apply in_or_app. right. right. apply in_or_app. now left.
Qed.

Lemma hasInk_trim s : hasInk (trim s) = hasInk s.
Proof.
  unfold trim, trimEnd. now rewrite hasInk_rev, trimStart_ink, hasInk_rev,
    trimStart_ink.
Qed.

Lemma addMediaType_fields msg :
  timestamp (addMediaType msg) = timestamp msg /\
  sender (addMediaType msg) = sender msg /\
  content (addMediaType msg) = content msg /\
  isMedia (addMediaType msg) = isMedia msg.
Proof. unfold addMediaType. destruct (isMedia msg) eqn:E; simpl; auto. Qed.

Lemma detectMediaType_defined c : exists t, detectMediaType c = Some t.
Proof.
  unfold detectMediaType.
  repeat match goal with
         | |- context [if ?b then _ else _] => destruct b
         end; eauto.
Qed.

Lemma assembled_noTrailing c ks :
  Forall (fun k => hasInk k = true) ks -> noTrailingSpace (assembled c ks).
Proof.
  unfold assembled. intros H.
  destruct ks as [|k0 ks0] eqn:Eks.
  - simpl. rewrite app_nil_r. apply trim_noTrailing.
  - rewrite <- Eks in *.
    destruct (@exists_last _ ks) as (ks' & k & ->); [congruence|].
    apply Forall_app in H as [_ H]. inversion_clear H as [|? ? Hk _].
    rewrite map_app, concat_app. cbn [map concat]. rewrite app_nil_r.
    replace (trim c ++ concat (map (fun k1 => u " " ++ trim k1) ks')
               ++ u " " ++ trim k)
      with ((trim c ++ concat (map (fun k1 => u " " ++ trim k1) ks')
               ++ u " ") ++ trim k)
      by (now rewrite <- !app_assoc).
    apply noTrailingSpace_app; [|apply trim_noTrailing].
    intros E. apply trim_nil_iff in E. congruence.
Qed.

Lemma assembled_noLeading c ks :
  trim c <> [] -> noLeadingSpace (assembled c ks).
Proof.
  intros H. apply noLeadingSpace_app; [exact H | apply trim_noLeading].
Qed.

Lemma assembled_ink c ks :
  Forall (fun k => hasInk k = true) ks ->
  assembled c ks <> [] -> hasInk (assembled c ks) = true.
Proof.
  unfold assembled. intros H Hne. rewrite hasInk_app, hasInk_trim.
  destruct ks as [|k ks]; simpl in *.
  - rewrite app_nil_r in Hne. rewrite orb_false_r.
    destruct (hasInk c) eqn:E; [reflexivity|].
    now apply trim_nil_iff in E.
  - inversion_clear H as [|? ? Hk _].
    rewrite !hasInk_app, hasInk_trim, Hk. simpl.
    now rewrite orb_true_r.
Qed.

(** ** The message of every run *)

Lemma continued_eq msg0 ks :
  continued msg0 ks =
  mkMessage (timestamp msg0) (sender msg0)
    (content msg0 ++ concat (map (fun k => u " " ++ trim k) ks))
    (isMedia msg0) (mediaType msg0).
Proof.
  destruct (continued_fields ks msg0) as (H1 & H2 & H3 & H4 & H5).
  destruct (continued msg0 ks) as [t s c b mt]. simpl in *. now subst.
Qed.

Lemma flush_pending st : flush st = messages st ++ pending st.
Proof.
  unfold flush, pending. destruct (currentMessage st) as [cur|].
  - destruct (isEmpty (content cur)); [now rewrite app_nil_r | reflexivity].
  - now rewrite app_nil_r.
Qed.

(** Lines that match nothing are appended to the message in progress. *)
Lemma processLines_continuation ks : forall st msg0,
  Forall (fun k => firstMatch k = None) ks ->
  currentMessage st = Some msg0 ->
  processLines ks st =
    Normal (mkState (messages st) (Some (continued msg0 ks))
              (currentTimestamp st)).
Proof.
  induction ks as [|k ks IH]; intros st msg0 Hks Hc.
  - simpl. destruct st as [ms cur ts]. simpl in *. now subst.
  - inversion_clear Hks as [|? ? Hk Hks']. cbn [processLines].
    rewrite processLine_cases, Hk. cbn [bind].
    rewrite (IH (appendLine k st) (withContinuation msg0 k) Hks').
    + unfold appendLine. rewrite Hc. reflexivity.
    + unfold appendLine. rewrite Hc. reflexivity.
Qed.

(** The output array only grows, at its end. *)
Lemma messages_prefix lines : forall st stF,
  processLines lines st = Normal stF ->
  exists more, messages stF = messages st ++ more.
Proof.
  induction lines as [|l lines IH]; intros st stF H; simpl in H.
  - injection H as <-. exists []. now rewrite app_nil_r.
  - destruct (processLine st l) as [st1|] eqn:E1; [|discriminate].
    simpl in H. destruct (IH _ _ H) as (more & Hmore).
    rewrite processLine_cases in E1.
    destruct (firstMatch l) as [[i m]|] eqn:El.
    + destruct (startMessage_spec l i m st El)
        as (t & c & ts & msg0 & _ & _ & _ & _ & _ & Hs).
      rewrite Hs in E1. injection E1 as <-. simpl in Hmore.
      rewrite flush_pending in Hmore. exists (pending st ++ more).
      now rewrite app_assoc.
    + injection E1 as <-. exists more. rewrite Hmore.
      unfold appendLine. now destruct (currentMessage st).
Qed.

(** The run [line :: ks] of the input leaves its message right behind
    the messages of the lines before it. *)
Lemma processLines_run now pre line ks post i m stF :
  processLines (pre ++ line :: ks ++ post) (initial now) = Normal stF ->
  firstMatch line = Some (i, m) ->
  Forall (fun k => firstMatch k = None) ks ->
  runEnds post ->
  exists st0 time c later,
    processLines pre (initial now) = Normal st0 /\
    nth (timeGroup i) m None = Some time /\
    nth (contentGroup i) m None = Some c /\
    (forall g, senderGroup i = Some g -> isSet g m) /\
    flush stF =
      flush st0
      ++ (if isEmpty (assembled c ks) then []
          else [mkMessage
                  (if Nat.eqb i 0
       then match nth 2 m None with
            | Some date => parseTimestamp time date
            | None => None
            end
       else parseTimeOnly time (currentTimestamp st0))
                  (match senderGroup i with
      | Some g => match nth g m None with
                  | Some s => trim s
                  | None => []
                  end
      | None => u "Unknown"
      end)
                  (assembled c ks) (checkIfMedia c) None])
      ++ later /\
    (post = [] -> later = []).
Proof.
  intros H Hf Hks Hend.
  rewrite processLines_app in H.
  destruct (processLines_total pre (initial now)) as [st0 H0].
  rewrite H0 in H. cbn [bind processLines] in H.
  rewrite processLine_cases, Hf in H.
  destruct (startMessage_spec line i m st0 Hf)
    as (time & c & ts & msg0 & Ht & Hc & Hts & Hmsg & Hg & Hs).
  rewrite Hs in H. cbn [bind] in H. rewrite processLines_app in H.
  rewrite (processLines_continuation ks (mkState (flush st0) (Some msg0) ts)
             msg0 Hks eq_refl) in H.
  cbn [bind messages currentTimestamp] in H.
  assert (Hcont : continued msg0 ks =
                  mkMessage ts (sender msg0) (assembled c ks)
                    (checkIfMedia c) None).
  { rewrite continued_eq, Hmsg. reflexivity. }
  rewrite Hcont in H.
  assert (Hsender : sender msg0 = match senderGroup i with
      | Some g => match nth g m None with
                  | Some s => trim s
                  | None => []
                  end
      | None => u "Unknown"
      end)
    by (rewrite Hmsg; reflexivity).
  exists st0, time, c. rewrite <- Hts, <- Hsender.
  set (cur := mkMessage ts (sender msg0) (assembled c ks) (checkIfMedia c) None)
    in *.
  set (st2 := mkState (flush st0) (Some cur) ts) in *.
  assert (Hst2 : flush st2 =
                 flush st0 ++ (if isEmpty (assembled c ks) then [] else [cur])).
  { rewrite (flush_pending st2). reflexivity. }
  destruct post as [|next post'].
  - exists []. injection H as <-. rewrite Hst2, app_nil_r.
    repeat split; auto.
  - cbn [runEnds] in Hend. cbn [processLines] in H.
    rewrite processLine_cases in H.
    destruct (firstMatch next) as [[j mj]|] eqn:En; [|contradiction].
    destruct (startMessage_spec next j mj st2 En)
      as (tn & cn & tsn & msgn & _ & _ & _ & _ & _ & Hsn).
    rewrite Hsn in H. cbn [bind] in H.
    destruct (messages_prefix _ _ _ H) as (more & Hmore).
    cbn [messages] in Hmore.
    exists (more ++ pending stF).
    rewrite (flush_pending stF), Hmore, Hst2, <- !app_assoc.
    repeat split; auto. discriminate.
Qed.

Lemma nonBlankLines_guard rawText :
  nonBlankLines rawText <> [] ->
  isEmpty rawText || Nat.eqb (length (trim rawText)) 0 = false.
Proof.
  intros H. rewrite blank_guard.
  destruct (hasInk rawText) eqn:E; [reflexivity|].
  now apply nonBlankLines_blank in E.
Qed.

(** Every run of the input, with the message the parser returns for
    it: it stands right behind the messages of the lines before the
    run, and it is missing only when its content is empty. *)
Lemma parse_run now rawText msgs pre line ks post i m :
  parseWhatsAppMessages now rawText = Normal msgs ->
  nonBlankLines rawText = pre ++ line :: ks ++ post ->
  firstMatch line = Some (i, m) ->
  Forall (fun k => firstMatch k = None) ks ->
  runEnds post ->
  exists st0 time c msg later,
    processLines pre (initial now) = Normal st0 /\
    nth (timeGroup i) m None = Some time /\
    nth (contentGroup i) m None = Some c /\
    (forall g, senderGroup i = Some g -> isSet g m) /\
    timestamp msg =
      (if Nat.eqb i 0
       then match nth 2 m None with
            | Some date => parseTimestamp time date
            | None => None
            end
       else parseTimeOnly time (currentTimestamp st0)) /\
    sender msg =
      match senderGroup i with
      | Some g => match nth g m None with
                  | Some s => trim s
                  | None => []
                  end
      | None => u "Unknown"
      end /\
    content msg = assembled c ks /\
    isMedia msg = checkIfMedia c /\
    mediaType msg =
      (if checkIfMedia c then detectMediaType (assembled c ks) else None) /\
    msgs =
      map addMediaType (flush st0)
      ++ (if isEmpty (assembled c ks) then [] else [msg])
      ++ later /\
    (post = [] -> later = []).
Proof.
  intros Hp Hlines Hf Hks Hend.
  destruct (parse_unfold now rawText) as (stF & HstF & Hp').
  rewrite Hp' in Hp. injection Hp as <-.
  rewrite nonBlankLines_guard
    by (rewrite Hlines; now destruct pre).
  rewrite Hlines in HstF.
  destruct (processLines_run now pre line ks post i m stF HstF Hf Hks Hend)
    as (st0 & time & c & later & H0 & Ht & Hc & Hg & Hflush & Hlater).
  exists st0, time, c.
  eexists (addMediaType (mkMessage _ _ (assembled c ks) (checkIfMedia c) None)).
  exists (map addMediaType later).
  rewrite Hflush, !map_app.
  repeat split; auto.
  - unfold addMediaType. cbn [isMedia].
    destruct (checkIfMedia c); reflexivity.
  - unfold addMediaType. cbn [isMedia].
    destruct (checkIfMedia c); reflexivity.
  - unfold addMediaType. cbn [isMedia].
    destruct (checkIfMedia c); reflexivity.
  - unfold addMediaType. cbn [isMedia].
    destruct (checkIfMedia c); reflexivity.
  - unfold addMediaType. cbn [isMedia].
    destruct (checkIfMedia c); reflexivity.
  - now destruct (isEmpty (assembled c ks)).
  - intros E. now rewrite (Hlater E).
Qed.

(** Every message of the output, with the run it comes from. *)
Lemma parse_message_run now rawText msgs msg :
  parseWhatsAppMessages now rawText = Normal msgs ->
  In msg msgs ->
  exists pre line ks post i m time c st0,
    nonBlankLines rawText = pre ++ line :: ks ++ post /\
    firstMatch line = Some (i, m) /\
    Forall (fun k => firstMatch k = None) ks /\
    runEnds post /\
    processLines pre (initial now) = Normal st0 /\
    nth (timeGroup i) m None = Some time /\
    nth (contentGroup i) m None = Some c /\
    (forall g, senderGroup i = Some g -> isSet g m) /\
    timestamp msg =
      (if Nat.eqb i 0
       then match nth 2 m None with
            | Some date => parseTimestamp time date
            | None => None
            end
       else parseTimeOnly time (currentTimestamp st0)) /\
    sender msg =
      match senderGroup i with
      | Some g => match nth g m None with
                  | Some s => trim s
                  | None => []
                  end
      | None => u "Unknown"
      end /\
    content msg = assembled c ks /\
    isMedia msg = checkIfMedia c /\
    mediaType msg =
      (if checkIfMedia c then detectMediaType (assembled c ks) else None).
Proof.
  intros Hp Hin.
  destruct (parse_provenance now rawText msgs msg Hp Hin)
    as (line & ks & i & m & msg' & E & Hne & ->).
  destruct E as (pre & post & Hlines & Hend & st0 & st1 & msg0
                 & Hpre & Hf & Hun & Hs & Hc & ->).
  destruct (startMessage_spec line i m st0 Hf)
    as (time & c & ts & msg1 & Ht & Hcg & Hts & Hmsg & Hg & Hs').
  rewrite Hs' in Hs. injection Hs as <-. simpl in Hc. injection Hc as <-.
  exists pre, line, ks, post, i, m, time, c, st0.
  rewrite continued_eq, Hmsg, <- Hts. cbn [timestamp sender content isMedia mediaType].
  fold (assembled c ks).
  unfold addMediaType. cbn [isMedia].
  destruct (checkIfMedia c); cbn; repeat split; auto.
Qed.

(** Every message of the output, with the lines it comes from. *)
Lemma parse_message_shape now rawText msgs msg :
  parseWhatsAppMessages now rawText = Normal msgs ->
  In msg msgs ->
  exists pre line ks post i m c,
    nonBlankLines rawText = pre ++ line :: ks ++ post /\
    firstMatch line = Some (i, m) /\
    Forall (fun k => firstMatch k = None) ks /\
    Forall (fun k => hasInk k = true) ks /\
    nth (contentGroup i) m None = Some c /\
    content msg = assembled c ks /\
    content msg <> [] /\
    isMedia msg = checkIfMedia c /\
    mediaType msg =
      (if isMedia msg then detectMediaType (content msg) else None) /\
    sender msg = match senderGroup i with
                 | Some g => match nth g m None with
                             | Some s => trim s
                             | None => []
                             end
                 | None => u "Unknown"
                 end.
Proof.
  intros Hp Hin.
  destruct (parse_provenance now rawText msgs msg Hp Hin)
    as (line & ks & i & m & msg' & E & Hne & ->).
  destruct (Emits_fields _ _ _ _ _ _ _ E)
    as (time & c & _ & Hc & Hcont & Hmedia & Htype & Hsender).
  destruct (Emits_lines _ _ _ _ _ _ _ E) as [_ Hks].
  destruct E as (pre & post & Hlines & _ & st0 & st1 & msg0 & _ & Hf & Hun & _).
  exists pre, line, ks, post, i, m, c.
  destruct (addMediaType_fields msg') as (_ & -> & -> & ->).
  repeat split; auto.
  - apply Forall_forall. intros k Hk.
    apply (nonBlankLines_ink rawText), Hks, Hk.
  - unfold addMediaType. destruct (isMedia msg'); simpl; auto.
Qed.

(** ** Media flag (C1, C5) *)

Lemma checkIfMedia_iff c :
  checkIfMedia c = true <->
  exists indicator,
    In indicator mediaIndicators /\
    includes (toLowerCase c) (toLowerCase indicator) = true.
Proof. unfold checkIfMedia. apply existsb_exists. Qed.

(** The message of a run with content is in the output. *)
Lemma run_message_In (msg : WhatsAppMessage) text before later msgs :
  msgs = before ++ (if isEmpty text then [] else [msg]) ++ later ->
  text <> [] ->
  In msg msgs.
Proof.
  intros -> Hne. destruct text; [contradiction|]. cbn [isEmpty].
  apply in_or_app. right. now left.
Qed.

(** C1, as the code has it: the media flag of an emitted message is
    decided at the match, from the content field the pattern captured
    on the matched line alone. It is true exactly when that field,
    lowercased, contains one of the lowercased indicators; the
    continuation lines, all the lines up to the next line that matches
    or to the end, are appended later and do not change it. Only
    [mediaType] is assigned in the pass over the finished sequence,
    from the content with every continuation line in it. This holds of
    every message of the output, and every matched line whose message
    has content has such a message in the output. *)
Theorem isMedia_from_matched_field now rawText msgs :
  parseWhatsAppMessages now rawText = Normal msgs ->
  (forall msg,
     In msg msgs ->
     exists pre line ks post i m c,
       nonBlankLines rawText = pre ++ line :: ks ++ post /\
       firstMatch line = Some (i, m) /\
       Forall (fun k => firstMatch k = None) ks /\
       runEnds post /\
       nth (contentGroup i) m None = Some c /\
       content msg = assembled c ks /\
       (isMedia msg = true <->
        exists indicator,
          In indicator mediaIndicators /\
          includes (toLowerCase c) (toLowerCase indicator) = true) /\
       mediaType msg =
         (if isMedia msg then detectMediaType (assembled c ks) else None)) /\
  (forall pre line ks post i m,
     nonBlankLines rawText = pre ++ line :: ks ++ post ->
     firstMatch line = Some (i, m) ->
     Forall (fun k => firstMatch k = None) ks ->
     runEnds post ->
     exists c,
       nth (contentGroup i) m None = Some c /\
       (assembled c ks <> [] ->
        exists msg,
          In msg msgs /\
          content msg = assembled c ks /\
          (isMedia msg = true <->
           exists indicator,
             In indicator mediaIndicators /\
             includes (toLowerCase c) (toLowerCase indicator) = true) /\
          mediaType msg =
            (if isMedia msg then detectMediaType (assembled c ks) else None))).
Proof.
  intros Hp. split.
  - intros msg Hin.
    destruct (parse_message_run now rawText msgs msg Hp Hin)
      as (pre & line & ks & post & i & m & time & c & st0
          & H1 & H2 & H3 & H4 & _ & _ & H5 & _ & _ & _ & H6 & H7 & H8).
    exists pre, line, ks, post, i, m, c.
    rewrite H7, H8, checkIfMedia_iff. repeat split; auto.
  - intros pre line ks post i m Hl Hf Hks Hend.
    destruct (parse_run now rawText msgs pre line ks post i m Hp Hl Hf Hks Hend)
      as (st0 & time & c & msg & later
          & _ & _ & Hc & _ & _ & _ & H6 & H7 & H8 & Hmsgs & _).
    exists c. split; [exact Hc|]. intros Hne. exists msg.
    split; [exact (run_message_In _ _ _ _ _ Hmsgs Hne)|].
    rewrite H7, H8, checkIfMedia_iff. repeat split; auto.
Qed.

(** C5: in every message of the output, [mediaType] is present exactly
    when [isMedia] is true. *)
Theorem mediaType_iff_isMedia now rawText msgs msg :
  parseWhatsAppMessages now rawText = Normal msgs ->
  In msg msgs ->
  (mediaType msg <> None <-> isMedia msg = true).
Proof.
  intros Hp Hin.
  destruct (parse_message_shape now rawText msgs msg Hp Hin)
    as (pre & line & ks & post & i & m & c
        & _ & _ & _ & _ & _ & _ & _ & _ & H7 & _).
  rewrite H7. destruct (isMedia msg).
  - destruct (detectMediaType_defined (content msg)) as [t ->].
    split; [reflexivity | discriminate].
  - split; [congruence | discriminate].
Qed.

(** ** Content (C6, C7) *)

(** C6: no message of the output has content that is empty after
    trimming. *)
Theorem content_never_blank now rawText msgs msg :
  parseWhatsAppMessages now rawText = Normal msgs ->
  In msg msgs ->
  trim (content msg) <> [].
Proof.
  intros Hp Hin.
  destruct (parse_message_shape now rawText msgs msg Hp Hin)
    as (pre & line & ks & post & i & m & c
        & _ & _ & _ & Hink & _ & Hc & Hne & _).
  rewrite Hc in *. intros E. apply trim_nil_iff in E.
  rewrite assembled_ink in E; auto. discriminate.
Qed.

(** C7, as the code has it: the content of an emitted message is the
    matched line's content field trimmed, followed by each continuation
    line trimmed behind a single space, for all the lines up to the
    next line that matches or to the end of the input. It never ends in
    white space, and it does not start with white space when the
    trimmed content field is not empty; then trimming leaves it
    unchanged. Every matched line whose text, so assembled, is not
    empty has a message with that content in the output. *)
Theorem content_assembled now rawText msgs :
  parseWhatsAppMessages now rawText = Normal msgs ->
  (forall msg,
     In msg msgs ->
     exists pre line ks post i m c,
       nonBlankLines rawText = pre ++ line :: ks ++ post /\
       firstMatch line = Some (i, m) /\
       Forall (fun k => firstMatch k = None) ks /\
       runEnds post /\
       nth (contentGroup i) m None = Some c /\
       content msg = trim c ++ concat (map (fun k => u " " ++ trim k) ks) /\
       noTrailingSpace (content msg) /\
       (trim c <> [] ->
        noLeadingSpace (content msg) /\ trim (content msg) = content msg)) /\
  (forall pre line ks post i m,
     nonBlankLines rawText = pre ++ line :: ks ++ post ->
     firstMatch line = Some (i, m) ->
     Forall (fun k => firstMatch k = None) ks ->
     runEnds post ->
     exists c,
       nth (contentGroup i) m None = Some c /\
       (trim c ++ concat (map (fun k => u " " ++ trim k) ks) <> [] ->
        exists msg,
          In msg msgs /\
          content msg =
            trim c ++ concat (map (fun k => u " " ++ trim k) ks))).
Proof.
  intros Hp. split.
  - intros msg Hin.
    destruct (parse_message_run now rawText msgs msg Hp Hin)
      as (pre & line & ks & post & i & m & time & c & st0
          & H1 & H2 & H3 & H4 & _ & _ & H5 & _ & _ & _ & H6 & _).
    exists pre, line, ks, post, i, m, c.
    assert (Hink : Forall (fun k => hasInk k = true) ks).
    { apply Forall_forall. intros k Hk.
      apply (nonBlankLines_ink rawText). rewrite H1.
      apply in_or_app. right. right. apply in_or_app. now left. }
    assert (Ht : noTrailingSpace (content msg)).
    { rewrite H6. now apply assembled_noTrailing. }
    repeat split; auto.
    + rewrite H6. now apply assembled_noLeading.
    + apply trim_fixed; [|exact Ht].
      rewrite H6. now apply assembled_noLeading.
  - intros pre line ks post i m Hl Hf Hks Hend.
    destruct (parse_run now rawText msgs pre line ks post i m Hp Hl Hf Hks Hend)
      as (st0 & time & c & msg & later
          & _ & _ & Hc & _ & _ & _ & H6 & _ & _ & Hmsgs & _).
    exists c. split; [exact Hc|]. intros Hne. exists msg.
    split; [exact (run_message_In _ _ _ _ _ Hmsgs Hne) | exact H6].
Qed.

(** ** Pattern priority (C3, C9) *)

(** C3: on every line the patterns are tried in the order full
    timestamp, time and sender, sender and time, time only, and the
    first one that matches fills the message in progress: time, sender
    and content are read from that pattern's groups.  This holds of
    every line of every input: the message of a line stands in the
    output right behind the messages of the lines before it, with those
    fields, and is missing only when its content is empty; and every
    message of the output is the message of such a line.  On
    "9:15 Bob: lunch at noon" the time-only pattern would match too, the
    time-and-sender pattern comes first, and the one message has sender
    "Bob" and content "lunch at noon". *)
Theorem first_matching_pattern_wins :
  messagePatterns =
    [fullTimestampPattern; timeSenderPattern; senderTimePattern;
     timeOnlyPattern] /\
  (forall st line i m,
     i < 4 ->
     exec (nth i messagePatterns Bol) line = Some m ->
     (forall j, j < i -> exec (nth j messagePatterns Bol) line = None) ->
     exists time c msg,
       processLine st line =
         Normal (mkState (flush st) (Some msg) (timestamp msg)) /\
       nth (timeGroup i) m None = Some time /\
       nth (contentGroup i) m None = Some c /\
       timestamp msg =
         (if Nat.eqb i 0
          then match nth 2 m None with
               | Some date => parseTimestamp time date
               | None => None
               end
          else parseTimeOnly time (currentTimestamp st)) /\
       sender msg =
         match senderGroup i with
         | Some g => match nth g m None with
                     | Some s => trim s
                     | None => []
                     end
         | None => u "Unknown"
         end /\
       (forall g, senderGroup i = Some g -> isSet g m) /\
       content msg = trim c /\
       isMedia msg = checkIfMedia c) /\
  (forall now rawText msgs pre line ks post i m,
     parseWhatsAppMessages now rawText = Normal msgs ->
     nonBlankLines rawText = pre ++ line :: ks ++ post ->
     i < 4 ->
     exec (nth i messagePatterns Bol) line = Some m ->
     (forall j, j < i -> exec (nth j messagePatterns Bol) line = None) ->
     Forall (fun k => firstMatch k = None) ks ->
     runEnds post ->
     exists st0 time c msg later,
       processLines pre (initial now) = Normal st0 /\
       nth (timeGroup i) m None = Some time /\
       nth (contentGroup i) m None = Some c /\
       (forall g, senderGroup i = Some g -> isSet g m) /\
       timestamp msg =
         (if Nat.eqb i 0
          then match nth 2 m None with
               | Some date => parseTimestamp time date
               | None => None
               end
          else parseTimeOnly time (currentTimestamp st0)) /\
       sender msg =
         match senderGroup i with
         | Some g => match nth g m None with
                     | Some s => trim s
                     | None => []
                     end
         | None => u "Unknown"
         end /\
       content msg = assembled c ks /\
       isMedia msg = checkIfMedia c /\
       msgs =
         map addMediaType (flush st0)
         ++ (if isEmpty (assembled c ks) then [] else [msg])
         ++ later /\
       (post = [] -> later = [])) /\
  (forall now rawText msgs msg,
     parseWhatsAppMessages now rawText = Normal msgs ->
     In msg msgs ->
     exists pre line ks post i m time c st0,
       nonBlankLines rawText = pre ++ line :: ks ++ post /\
       i < 4 /\
       exec (nth i messagePatterns Bol) line = Some m /\
       (forall j, j < i -> exec (nth j messagePatterns Bol) line = None) /\
       Forall (fun k => firstMatch k = None) ks /\
       runEnds post /\
       processLines pre (initial now) = Normal st0 /\
       nth (timeGroup i) m None = Some time /\
       nth (contentGroup i) m None = Some c /\
       timestamp msg =
         (if Nat.eqb i 0
          then match nth 2 m None with
               | Some date => parseTimestamp time date
               | None => None
               end
          else parseTimeOnly time (currentTimestamp st0)) /\
       sender msg =
         match senderGroup i with
         | Some g => match nth g m None with
                     | Some s => trim s
                     | None => []
                     end
         | None => u "Unknown"
         end /\
       content msg = assembled c ks /\
       isMedia msg = checkIfMedia c) /\
  (exists m1 m3,
     firstMatch (u "9:15 Bob: lunch at noon") = Some (1, m1) /\
     exec timeOnlyPattern (u "9:15 Bob: lunch at noon") = Some m3) /\
  (forall now,
     exists msg,
       parseWhatsAppMessages now (u "9:15 Bob: lunch at noon") = Normal [msg] /\
       timestamp msg = parseTimeOnly (u "9:15") now /\
       sender msg = u "Bob" /\
       content msg = u "lunch at noon").
Proof.
  split; [reflexivity|]. split; [|split; [|split; [|split]]].
  - intros st line i m Hi Hm Hn.
    assert (Hf : firstMatch line = Some (i, m)) by now apply firstMatch_spec.
    destruct (startMessage_spec line i m st Hf)
      as (time & c & ts & msg0 & Ht & Hc & Hts & Hmsg & Hg & Hs).
    exists time, c, msg0.
    rewrite processLine_cases, Hf, Hs. subst msg0. simpl.
    repeat split; auto.
  - intros now rawText msgs pre line ks post i m Hp Hl Hi Hm Hn Hks Hend.
    assert (Hf : firstMatch line = Some (i, m)) by now apply firstMatch_spec.
    destruct (parse_run now rawText msgs pre line ks post i m Hp Hl Hf Hks Hend)
      as (st0 & time & c & msg & later
          & H0 & Ht & Hc & Hg & H4 & H5 & H6 & H7 & _ & Hmsgs & Hlater).
    exists st0, time, c, msg, later. repeat split; auto.
  - intros now rawText msgs msg Hp Hin.
    destruct (parse_message_run now rawText msgs msg Hp Hin)
      as (pre & line & ks & post & i & m & time & c & st0
          & H1 & H2 & H3 & Hend & H0 & Ht & Hc & _ & H4 & H5 & H6 & H7 & _).
    exists pre, line, ks, post, i, m, time, c, st0.
    apply firstMatch_spec in H2 as (Hi & Hm & Hn).
    repeat split; auto.
  - do 2 eexists. split; vm_compute; reflexivity.
  - intros now.
    exists (addMediaType
              (mkMessage (parseTimeOnly (u "9:15") now) (u "Bob")
                 (u "lunch at noon") (checkIfMedia (u "lunch at noon")) None)).
    split; [lazy -[parseTimeOnly checkIfMedia detectMediaType]; reflexivity|].
    destruct (addMediaType_fields
                (mkMessage (parseTimeOnly (u "9:15") now) (u "Bob")
                   (u "lunch at noon") (checkIfMedia (u "lunch at noon")) None))
      as (-> & -> & -> & _).
    auto.
Qed.

(** C9: a line that none of the first three patterns matches and the
    time-only pattern does starts a message whose sender is "Unknown".
    This holds of every such line of every input: its message stands in
    the output right behind the messages of the lines before it, with
    sender "Unknown" and the line's text as content, and is missing
    only when that content is empty; and every message of the output
    that starts at such a line has that sender. On
    "14:00 see you later" the one message has sender "Unknown" and
    content "see you later". *)
Theorem time_only_sender_unknown :
  (forall st line m,
     exec fullTimestampPattern line = None ->
     exec timeSenderPattern line = None ->
     exec senderTimePattern line = None ->
     exec timeOnlyPattern line = Some m ->
     exists msg,
       processLine st line =
         Normal (mkState (flush st) (Some msg) (timestamp msg)) /\
       sender msg = u "Unknown") /\
  (forall now rawText msgs pre line ks post m,
     parseWhatsAppMessages now rawText = Normal msgs ->
     nonBlankLines rawText = pre ++ line :: ks ++ post ->
     exec fullTimestampPattern line = None ->
     exec timeSenderPattern line = None ->
     exec senderTimePattern line = None ->
     exec timeOnlyPattern line = Some m ->
     Forall (fun k => firstMatch k = None) ks ->
     runEnds post ->
     exists st0 c msg later,
       processLines pre (initial now) = Normal st0 /\
       nth 2 m None = Some c /\
       sender msg = u "Unknown" /\
       content msg = assembled c ks /\
       msgs =
         map addMediaType (flush st0)
         ++ (if isEmpty (assembled c ks) then [] else [msg])
         ++ later /\
       (post = [] -> later = [])) /\
  (forall now rawText msgs msg,
     parseWhatsAppMessages now rawText = Normal msgs ->
     In msg msgs ->
     exists pre line ks post i m c,
       nonBlankLines rawText = pre ++ line :: ks ++ post /\
       firstMatch line = Some (i, m) /\
       Forall (fun k => firstMatch k = None) ks /\
       runEnds post /\
       nth (contentGroup i) m None = Some c /\
       content msg = assembled c ks /\
       (exec fullTimestampPattern line = None ->
        exec timeSenderPattern line = None ->
        exec senderTimePattern line = None ->
        exec timeOnlyPattern line = Some m /\ sender msg = u "Unknown")) /\
  (forall now,
     exists msg,
       parseWhatsAppMessages now (u "14:00 see you later") = Normal [msg] /\
       timestamp msg = parseTimeOnly (u "14:00") now /\
       sender msg = u "Unknown" /\
       content msg = u "see you later").
Proof.
  assert (Hthree : forall line m,
            exec fullTimestampPattern line = None ->
            exec timeSenderPattern line = None ->
            exec senderTimePattern line = None ->
            exec timeOnlyPattern line = Some m ->
            firstMatch line = Some (3, m)).
  { intros line m H0 H1 H2 H3. apply firstMatch_spec. repeat split; auto.
    intros [|[|[|j]]] Hj; simpl; auto. lia. }
  split; [|split; [|split]].
  - intros st line m H0 H1 H2 H3.
    pose proof (Hthree line m H0 H1 H2 H3) as Hf.
    destruct (startMessage_spec line 3 m st Hf)
      as (time & c & ts & msg0 & _ & _ & _ & Hmsg & _ & Hs).
    exists msg0. rewrite processLine_cases, Hf, Hs. subst msg0. simpl. auto.
  - intros now rawText msgs pre line ks post m Hp Hl H0 H1 H2 H3 Hks Hend.
    pose proof (Hthree line m H0 H1 H2 H3) as Hf.
    destruct (parse_run now rawText msgs pre line ks post 3 m Hp Hl Hf Hks Hend)
      as (st0 & time & c & msg & later
          & Hst0 & _ & Hc & _ & _ & H5 & H6 & _ & _ & Hmsgs & Hlater).
    exists st0, c, msg, later. repeat split; auto.
  - intros now rawText msgs msg Hp Hin.
    destruct (parse_message_run now rawText msgs msg Hp Hin)
      as (pre & line & ks & post & i & m & time & c & st0
          & H1 & H2 & H3 & Hend & _ & _ & Hc & _ & _ & H5 & H6 & _).
    exists pre, line, ks, post, i, m, c. repeat split; auto.
    + apply firstMatch_spec in H2 as (Hi & Hm & _).
      destruct i as [|[|[|[|i]]]]; simpl in Hm; try congruence. lia.
    + apply firstMatch_spec in H2 as (Hi & Hm & _).
      destruct i as [|[|[|[|i]]]]; simpl in Hm; try congruence.
      * exact H5.
      * lia.
  - intros now.
    exists (addMediaType
              (mkMessage (parseTimeOnly (u "14:00") now) (u "Unknown")
                 (u "see you later") (checkIfMedia (u "see you later")) None)).
    split; [lazy -[parseTimeOnly checkIfMedia detectMediaType]; reflexivity|].
    destruct (addMediaType_fields
                (mkMessage (parseTimeOnly (u "14:00") now) (u "Unknown")
                   (u "see you later") (checkIfMedia (u "see you later")) None))
      as (-> & -> & -> & _).
    auto.
Qed.

(** ** Totality (C2) *)

Lemma blank_no_ink s :
  (forall c, In c s -> isWhiteSpace c = true) -> hasInk s = false.
Proof.
  induction s as [|c s IH]; intros H; simpl; [reflexivity|].
  rewrite (H c) by now left. simpl. apply IH. intros c' Hc'. apply H. now right.
Qed.

(** C2: on every string the parser returns a sequence of messages and
    throws nothing; on the empty string and on a string of white space
    only the sequence is empty. *)
Theorem parseWhatsAppMessages_total now rawText :
  (exists msgs, parseWhatsAppMessages now rawText = Normal msgs) /\
  ((forall c, In c rawText -> isWhiteSpace c = true) ->
   parseWhatsAppMessages now rawText = Normal []).
Proof.
  destruct (parse_unfold now rawText) as (st & _ & Hp). split.
  - eauto.
  - intros H. apply blank_no_ink, trim_nil_iff in H.
    unfold parseWhatsAppMessages. rewrite H. simpl.
    now rewrite orb_true_r.
Qed.

(** ** Filtering by time (C10) *)

(** C10: the filter keeps exactly the messages whose timestamp lies
    between the two bounds, both included, in their order and
    unchanged. *)
Theorem filterMessagesByTime_spec messages startTime endTime :
  filterMessagesByTime messages startTime endTime =
    filter (fun msg => date_le startTime (timestamp msg)
                       && date_le (timestamp msg) endTime) messages /\
  (forall msg,
     In msg (filterMessagesByTime messages startTime endTime) <->
     In msg messages /\
     exists s t e,
       startTime = Some s /\ timestamp msg = Some t /\ endTime = Some e /\
       (s <= t <= e)%Z).
Proof.
  assert (E : filterMessagesByTime messages startTime endTime =
              filter (fun msg => date_le startTime (timestamp msg)
                                 && date_le (timestamp msg) endTime) messages).
  { induction messages as [|msg rest IH]; simpl; [reflexivity|].
    rewrite IH. reflexivity. }
  split; [exact E|].
  intros msg. rewrite E, filter_In. unfold date_le.
  split; intros [Hin H]; (split; [exact Hin|]).
  - destruct startTime as [s|], (timestamp msg) as [t|], endTime as [e|];
      simpl in H; try discriminate;
      try (rewrite andb_false_r in H; discriminate).
    apply andb_prop in H as [H1 H2].
    exists s, t, e. repeat split; lia.
  - destruct H as (s & t & e & -> & -> & -> & H1 & H2).
    apply andb_true_intro. split; lia.
Qed.

(** ** Digit strings and their fields *)

Lemma digitsValue_digits s : forall acc v,
  digitsValue acc s = Some v -> forall c, In c s -> isDigit c = true.
Proof.
  induction s as [|a s IH]; intros acc v H c Hc; [destruct Hc|].
  simpl in H. destruct (isDigit a) eqn:E; [|discriminate].
  destruct Hc as [<-|Hc]; [exact E | eapply IH; eauto].
Qed.

Lemma Number_digits s v :
  Number s = Some v -> forall c, In c s -> isDigit c = true.
Proof. apply digitsValue_digits. Qed.

Lemma digit_not_sep c sep :
  isDigit c = true -> (sep < 48 \/ 57 < sep)%N -> (c =? sep)%N = false.
Proof.
  unfold isDigit. intros H Hs. apply andb_prop in H as [H1 H2].
  apply N.leb_le in H1, H2. apply N.eqb_neq. lia.
Qed.

Lemma split_digits sep s :
  (sep < 48 \/ 57 < sep)%N ->
  (forall c, In c s -> isDigit c = true) ->
  split sep s = [s].
Proof.
  intros Hs. induction s as [|c s IH]; intros H; simpl; [reflexivity|].
  rewrite digit_not_sep by (auto; apply H; now left).
  rewrite IH; [reflexivity|]. intros c' Hc'. apply H. now right.
Qed.

Lemma split_digits_sep sep a b :
  (sep < 48 \/ 57 < sep)%N ->
  (forall c, In c a -> isDigit c = true) ->
  split sep (a ++ sep :: b) = a :: split sep b.
Proof.
  intros Hs. induction a as [|c a IH]; intros H; simpl.
  - now rewrite N.eqb_refl.
  - rewrite digit_not_sep by (auto; apply H; now left).
    rewrite IH; [reflexivity|]. intros c' Hc'. apply H. now right.
Qed.

Lemma parseTimeOnly_digits hs mis h mi ref :
  Number hs = Some h -> Number mis = Some mi ->
  parseTimeOnly (hs ++ code ":" :: mis) ref =
    setHours LocalTZA ref (Some h) (Some mi) (Some 0%Z) (Some 0%Z).
Proof.
  intros Hh Hm. unfold parseTimeOnly.
  assert (Hc : (code ":" < 48 \/ 57 < code ":")%N) by (right; reflexivity).
  rewrite (split_digits_sep _ hs mis Hc (Number_digits hs h Hh)).
  rewrite (split_digits _ mis Hc (Number_digits mis mi Hm)).
  cbn [map nth]. now rewrite Hh, Hm.
Qed.

Lemma parseTimestamp_digits hs mis ds mos ys h mi d mo y :
  Number hs = Some h -> Number mis = Some mi ->
  Number ds = Some d -> Number mos = Some mo -> Number ys = Some y ->
  parseTimestamp (hs ++ code ":" :: mis)
    (ds ++ code "/" :: mos ++ code "/" :: ys) =
    newDate LocalTZA (Some y) (Some (mo - 1)%Z) (Some d) (Some h) (Some mi).
Proof.
  intros Hh Hm Hd Hmo Hy. unfold parseTimestamp.
  assert (Hc : (code ":" < 48 \/ 57 < code ":")%N) by (right; reflexivity).
  assert (Hs : (code "/" < 48 \/ 57 < code "/")%N) by (left; reflexivity).
  rewrite (split_digits_sep _ hs mis Hc (Number_digits hs h Hh)).
  rewrite (split_digits _ mis Hc (Number_digits mis mi Hm)).
  rewrite (split_digits_sep _ ds _ Hs (Number_digits ds d Hd)).
  rewrite (split_digits_sep _ mos ys Hs (Number_digits mos mo Hmo)).
  rewrite (split_digits _ ys Hs (Number_digits ys y Hy)).
  cbn [map nth]. now rewrite Hh, Hm, Hd, Hmo, Hy.
Qed.

(** ** Clock arithmetic *)

Lemma overlay_fields D h mi :
  (0 <= h < 24)%Z -> (0 <= mi < 60)%Z ->
  let L := MakeDate D (MakeTime h mi 0 0) in
  Day L = D /\ HourFromTime L = h /\ MinFromTime L = mi /\
  SecFromTime L = 0%Z /\ msFromTime L = 0%Z.
Proof.
  intros Hh Hm. unfold MakeDate, MakeTime, Day, HourFromTime, MinFromTime,
    SecFromTime, msFromTime, msPerDay, msPerHour, msPerMinute, msPerSecond.
  cbv zeta.
  assert (E1 : ((D * 86400000 + (h * 3600000 + mi * 60000 + 0 * 1000 + 0))
                / 86400000 = D)%Z).
  { symmetry. apply Z.div_unique with (r := (h * 3600000 + mi * 60000)%Z); lia. }
  assert (E2 : ((D * 86400000 + (h * 3600000 + mi * 60000 + 0 * 1000 + 0))
                / 3600000 = D * 24 + h)%Z).
  { symmetry. apply Z.div_unique with (r := (mi * 60000)%Z); lia. }
  assert (E3 : ((D * 86400000 + (h * 3600000 + mi * 60000 + 0 * 1000 + 0))
                / 60000 = D * 1440 + h * 60 + mi)%Z).
  { symmetry. apply Z.div_unique with (r := 0%Z); lia. }
  assert (E4 : ((D * 86400000 + (h * 3600000 + mi * 60000 + 0 * 1000 + 0))
                / 1000 = D * 86400 + h * 3600 + mi * 60)%Z).
  { symmetry. apply Z.div_unique with (r := 0%Z); lia. }
  rewrite E1, E2, E3, E4. repeat split.
  - symmetry. apply Z.mod_unique with (q := D); lia.
  - symmetry. apply Z.mod_unique with (q := (D * 24 + h)%Z); lia.
  - symmetry. apply Z.mod_unique with (q := (D * 1440 + h * 60 + mi)%Z); lia.
  - symmetry.
    apply Z.mod_unique with (q := (D * 86400 + h * 3600 + mi * 60)%Z); lia.
Qed.

Lemma MakeDay_month_carry y mo d :
  MakeDay y (mo + 12) d = MakeDay (y + 1) mo d.
Proof.
  unfold MakeDay.
  replace ((mo + 12) / 12)%Z with (mo / 12 + 1)%Z
    by (change 12%Z with (1 * 12)%Z at 2; now rewrite Z.div_add).
  replace ((mo + 12) mod 12)%Z with (mo mod 12)%Z
    by (change 12%Z with (1 * 12)%Z at 2; now rewrite Z.mod_add).
  now replace (y + 1 + mo / 12)%Z with (y + (mo / 12 + 1))%Z by lia.
Qed.

Section FixedOffset.

(** A host zone without daylight saving: one offset at all times. *)
Variable off : Z.
Hypothesis Hzone : forall t b, LocalTZA t b = off.

Lemma setHours_overlay t h mi :
  (0 <= h < 24)%Z -> (0 <= mi < 60)%Z ->
  (Z.abs t + msPerDay <= 8640000000000000)%Z ->
  exists t',
    setHours LocalTZA (Some t) (Some h) (Some mi) (Some 0%Z) (Some 0%Z)
      = Some t' /\
    (Z.abs (t' - t) < msPerDay)%Z /\
    localDay LocalTZA t' = localDay LocalTZA t /\
    getHours LocalTZA t' = h /\
    getMinutes LocalTZA t' = mi /\
    getSeconds LocalTZA t' = 0%Z /\
    getMilliseconds LocalTZA t' = 0%Z.
Proof.
  intros Hh Hm Hr.
  set (D := Day (t + off)).
  set (L := MakeDate D (MakeTime h mi 0 0)).
  assert (Hb : (Z.abs (L - off - t) < msPerDay)%Z).
  { subst L D. unfold MakeDate, MakeTime, Day, msPerDay, msPerHour,
      msPerMinute, msPerSecond in *.
    pose proof (Z.div_mod (t + off) 86400000 ltac:(lia)).
    pose proof (Z.mod_pos_bound (t + off) 86400000 ltac:(lia)).
    lia. }
  exists (L - off)%Z.
  assert (Hset : setHours LocalTZA (Some t) (Some h) (Some mi) (Some 0%Z)
                   (Some 0%Z) = Some (L - off)%Z).
  { unfold setHours, UTC, LocalTime, TimeClip. rewrite !Hzone. fold D. fold L.
    destruct (Z.leb_spec (Z.abs (L - off)) 8640000000000000);
      [reflexivity|].
    unfold msPerDay in *. lia. }
  destruct (overlay_fields D h mi Hh Hm) as (E1 & E2 & E3 & E4 & E5).
  fold L in E1, E2, E3, E4, E5.
  unfold localDay, getHours, getMinutes, getSeconds, getMilliseconds,
    LocalTime. rewrite !Hzone.
  replace (L - off + off)%Z with L by lia.
  repeat split; auto.
Qed.

End FixedOffset.

Lemma digitsValue_nonneg s : forall acc v,
  (0 <= acc)%Z -> digitsValue acc s = Some v -> (0 <= v)%Z.
Proof.
  induction s as [|c s IH]; intros acc v Hacc H; cbn [digitsValue] in H.
  - now injection H as <-.
  - destruct (isDigit c) eqn:E; [|discriminate].
    apply IH in H; [exact H|].
    unfold isDigit in E. apply andb_prop in E as [E _].
    apply N.leb_le in E.
    assert (48 <= Z.of_N c)%Z by (change 48%Z with (Z.of_N 48); lia).
    lia.
Qed.

Lemma Number_nonneg s v : Number s = Some v -> (0 <= v)%Z.
Proof. apply digitsValue_nonneg. lia. Qed.

Lemma parseTimeOnly_overlay off hs mis h mi t :
  (forall t b, LocalTZA t b = off) ->
  Number hs = Some h -> Number mis = Some mi ->
  (h < 24)%Z -> (mi < 60)%Z ->
  (Z.abs t + msPerDay <= 8640000000000000)%Z ->
  exists t',
    parseTimeOnly (hs ++ code ":" :: mis) (Some t) = Some t' /\
    (Z.abs (t' - t) < msPerDay)%Z /\
    localDay LocalTZA t' = localDay LocalTZA t /\
    getHours LocalTZA t' = h /\
    getMinutes LocalTZA t' = mi /\
    getSeconds LocalTZA t' = 0%Z /\
    getMilliseconds LocalTZA t' = 0%Z.
Proof.
  intros Hzone Hh Hm Hh24 Hm60 Hr.
  rewrite (parseTimeOnly_digits hs mis h mi (Some t) Hh Hm).
  apply (setHours_overlay off Hzone); auto.
  - split; [now apply (Number_nonneg hs) | exact Hh24].
  - split; [now apply (Number_nonneg mis) | exact Hm60].
Qed.

(** ** Timestamps (C4, C8) *)

(** The clock fields of a local day [D] with [h] hours and [mi]
    minutes put on it, whatever their size: the excess carries. *)
Lemma overlay_carry D h mi :
  (0 <= h)%Z -> (0 <= mi)%Z ->
  let L := MakeDate D (MakeTime h mi 0 0) in
  Day L = (D + (60 * h + mi) / 1440)%Z /\
  HourFromTime L = ((60 * h + mi) / 60 mod 24)%Z /\
  MinFromTime L = (mi mod 60)%Z /\
  SecFromTime L = 0%Z /\ msFromTime L = 0%Z.
Proof.
  intros Hh Hm. unfold MakeDate, MakeTime, Day, HourFromTime, MinFromTime,
    SecFromTime, msFromTime, msPerDay, msPerHour, msPerMinute, msPerSecond.
  cbv zeta.
  set (q := (60 * h + mi)%Z).
  replace (D * 86400000 + (h * 3600000 + mi * 60000 + 0 * 1000 + 0))%Z
    with (q * 60000 + D * 1440 * 60000)%Z by (subst q; lia).
  assert (E3 : ((q * 60000 + D * 1440 * 60000) / 60000 = q + D * 1440)%Z).
  { rewrite Z.div_add by lia. now rewrite Z.div_mul by lia. }
  assert (E1 : ((q * 60000 + D * 1440 * 60000) / 86400000
                = D + q / 1440)%Z).
  { change 86400000%Z with (60000 * 1440)%Z.
    rewrite <- Z.div_div by lia. rewrite E3.
    rewrite Z.div_add by lia. lia. }
  assert (E2 : ((q * 60000 + D * 1440 * 60000) / 3600000
                = q / 60 + D * 24)%Z).
  { change 3600000%Z with (60000 * 60)%Z.
    rewrite <- Z.div_div by lia. rewrite E3.
    replace (D * 1440)%Z with (D * 24 * 60)%Z by lia.
    now rewrite Z.div_add by lia. }
  assert (E4 : ((q * 60000 + D * 1440 * 60000) / 1000
                = (q + D * 1440) * 60)%Z).
  { replace (q * 60000 + D * 1440 * 60000)%Z
      with ((q + D * 1440) * 60 * 1000)%Z by lia.
    now rewrite Z.div_mul by lia. }
  rewrite E1, E2, E3, E4. repeat split.
  - now rewrite Z.mod_add by lia.
  - replace (q + D * 1440)%Z with (mi + (h + D * 24) * 60)%Z by (subst q; lia).
    now rewrite Z.mod_add by lia.
  - now rewrite Z.mod_mul by lia.
  - replace (q * 60000 + D * 1440 * 60000)%Z
      with ((q + D * 1440) * 60 * 1000)%Z by lia.
    now rewrite Z.mod_mul by lia.
Qed.

(** Time-only resolution hands hour and minute to [setHours] as they
    are read. *)
Lemma parseTimeOnly_target hs mis h mi t :
  Number hs = Some h -> Number mis = Some mi ->
  parseTimeOnly (hs ++ code ":" :: mis) (Some t) =
    TimeClip (UTC LocalTZA
                (MakeDate (localDay LocalTZA t) (MakeTime h mi 0 0))).
Proof.
  intros Hh Hm. now rewrite (parseTimeOnly_digits hs mis h mi (Some t) Hh Hm).
Qed.

(** Where the resolved time lies on the local clock, when the zone
    gives the resulting instant the offset it gave the local time. *)
Lemma parseTimeOnly_lands hs mis h mi t t' :
  Number hs = Some h -> Number mis = Some mi ->
  parseTimeOnly (hs ++ code ":" :: mis) (Some t) = Some t' ->
  LocalTZA t' true =
    LocalTZA (MakeDate (localDay LocalTZA t) (MakeTime h mi 0 0)) false ->
  localDay LocalTZA t' = (localDay LocalTZA t + (60 * h + mi) / 1440)%Z /\
  getHours LocalTZA t' = ((60 * h + mi) / 60 mod 24)%Z /\
  getMinutes LocalTZA t' = (mi mod 60)%Z /\
  getSeconds LocalTZA t' = 0%Z /\
  getMilliseconds LocalTZA t' = 0%Z /\
  ((h < 24)%Z -> (mi < 60)%Z ->
   localDay LocalTZA t' = localDay LocalTZA t /\
   getHours LocalTZA t' = h /\ getMinutes LocalTZA t' = mi).
Proof.
  intros Hh Hm Hp Hz.
  rewrite (parseTimeOnly_target hs mis h mi t Hh Hm) in Hp.
  set (L := MakeDate (localDay LocalTZA t) (MakeTime h mi 0 0)) in *.
  assert (Et : t' = UTC LocalTZA L).
  { unfold TimeClip in Hp.
    destruct (Z.abs (UTC LocalTZA L) <=? 8640000000000000)%Z;
      [now injection Hp as <- | discriminate]. }
  assert (El : LocalTime LocalTZA t' = L).
  { unfold LocalTime. rewrite Hz, Et. unfold UTC. lia. }
  pose proof (Number_nonneg hs h Hh) as Hh0.
  pose proof (Number_nonneg mis mi Hm) as Hm0.
  destruct (overlay_carry (localDay LocalTZA t) h mi Hh0 Hm0)
    as (E1 & E2 & E3 & E4 & E5).
  fold L in E1, E2, E3, E4, E5.
  unfold localDay at 1 3, getHours, getMinutes, getSeconds, getMilliseconds.
  rewrite El, E1, E2, E3, E4, E5.
  repeat split; auto.
  - rewrite Z.div_small by lia. lia.
  - replace (60 * h + mi)%Z with (mi + h * 60)%Z by lia.
    rewrite Z.div_add by lia. rewrite (Z.div_small mi) by lia.
    apply Z.mod_small. lia.
  - apply Z.mod_small. lia.
Qed.

Lemma reference_unmatched lines : forall st stF,
  Forall (fun k => firstMatch k = None) lines ->
  processLines lines st = Normal stF ->
  currentTimestamp stF = currentTimestamp st.
Proof.
  induction lines as [|l lines IH]; intros st stF Hl H.
  - simpl in H. now injection H as <-.
  - inversion_clear Hl as [|? ? Hk Hl']. cbn [processLines] in H.
    rewrite processLine_cases, Hk in H. cbn [bind] in H.
    rewrite (IH _ _ Hl' H). unfold appendLine.
    now destruct (currentMessage st).
Qed.

(** The reference after any lines: the timestamp resolved at the last
    line that matched. *)
Lemma reference_after now pre line ks i m st :
  processLines (pre ++ line :: ks) (initial now) = Normal st ->
  firstMatch line = Some (i, m) ->
  Forall (fun k => firstMatch k = None) ks ->
  exists st0 time,
    processLines pre (initial now) = Normal st0 /\
    nth (timeGroup i) m None = Some time /\
    currentTimestamp st =
      (if Nat.eqb i 0
             then match nth 2 m None with
                  | Some date => parseTimestamp time date
                  | None => None
                  end
             else parseTimeOnly time (currentTimestamp st0)).
Proof.
  intros H Hf Hks. rewrite processLines_app in H.
  destruct (processLines_total pre (initial now)) as [st0 H0].
  rewrite H0 in H. cbn [bind processLines] in H.
  rewrite processLine_cases, Hf in H.
  destruct (startMessage_spec line i m st0 Hf)
    as (time & c & ts & msg0 & Ht & _ & Hts & _ & _ & Hs).
  rewrite Hs in H. cbn [bind] in H.
  exists st0, time. split; [exact H0|]. split; [exact Ht|].
  rewrite (reference_unmatched ks _ _ Hks H). exact Hts.
Qed.

(** C4, as the code has it, on any host zone. Time-only resolution
    hands the matched hour and minute, unvalidated, to [setHours] on a
    copy of the rolling reference, with seconds and milliseconds zero:
    the result is the instant of the local time that lies that many
    hours and minutes after midnight of the reference's calendar day.
    Where the zone has that local time (it gives the instant the offset
    it gave the local time, as every zone does off the hours skipped at
    a clock change), an hour below 24 and a minute below 60 land on the
    reference's calendar day at that hour and minute, and larger values
    carry as on a clock: minutes beyond 59 into the hour, hours beyond
    23 into later days. The reference is [now] when the run starts; a
    line that matches leaves the timestamp it resolved as the new
    reference, and for the three patterns with a time and no date that
    timestamp is resolved against the reference before the line; a line
    that does not match leaves the reference alone. So after any lines
    the reference is the timestamp resolved at the last line that
    matched, every message of the output carries the timestamp resolved
    against the reference left by the lines before its own, and the
    lines "09:00 msg1" and "23:50 msg2" both land on the calendar day
    of [now]. *)
Theorem time_only_resolution :
  (forall hs mis h mi t,
     Number hs = Some h -> Number mis = Some mi ->
     parseTimeOnly (hs ++ code ":" :: mis) (Some t) =
       TimeClip (UTC LocalTZA
                   (MakeDate (localDay LocalTZA t) (MakeTime h mi 0 0)))) /\
  (forall hs mis h mi t t',
     Number hs = Some h -> Number mis = Some mi ->
     parseTimeOnly (hs ++ code ":" :: mis) (Some t) = Some t' ->
     LocalTZA t' true =
       LocalTZA (MakeDate (localDay LocalTZA t) (MakeTime h mi 0 0)) false ->
     localDay LocalTZA t' = (localDay LocalTZA t + (60 * h + mi) / 1440)%Z /\
     getHours LocalTZA t' = ((60 * h + mi) / 60 mod 24)%Z /\
     getMinutes LocalTZA t' = (mi mod 60)%Z /\
     getSeconds LocalTZA t' = 0%Z /\
     getMilliseconds LocalTZA t' = 0%Z /\
     ((h < 24)%Z -> (mi < 60)%Z ->
      localDay LocalTZA t' = localDay LocalTZA t /\
      getHours LocalTZA t' = h /\ getMinutes LocalTZA t' = mi)) /\
  (forall now rawText,
     currentTimestamp (initial now) = now /\
     exists st,
       processLines (nonBlankLines rawText) (initial now) = Normal st /\
       parseWhatsAppMessages now rawText =
         Normal (if isEmpty rawText || Nat.eqb (length (trim rawText)) 0
                 then [] else map addMediaType (flush st))) /\
  (forall st line i m,
     firstMatch line = Some (i, m) ->
     exists time msg,
       processLine st line =
         Normal (mkState (flush st) (Some msg) (timestamp msg)) /\
       nth (timeGroup i) m None = Some time /\
       (i <> 0 -> timestamp msg = parseTimeOnly time (currentTimestamp st))) /\
  (forall st line,
     firstMatch line = None ->
     exists st',
       processLine st line = Normal st' /\
       currentTimestamp st' = currentTimestamp st) /\
  (forall now lines st,
     processLines lines (initial now) = Normal st ->
     (Forall (fun k => firstMatch k = None) lines ->
      currentTimestamp st = now) /\
     (forall pre line ks i m,
        lines = pre ++ line :: ks ->
        firstMatch line = Some (i, m) ->
        Forall (fun k => firstMatch k = None) ks ->
        exists st0 time,
          processLines pre (initial now) = Normal st0 /\
          nth (timeGroup i) m None = Some time /\
          currentTimestamp st =
            (if Nat.eqb i 0
             then match nth 2 m None with
                  | Some date => parseTimestamp time date
                  | None => None
                  end
             else parseTimeOnly time (currentTimestamp st0)))) /\
  (forall now rawText msgs msg,
     parseWhatsAppMessages now rawText = Normal msgs ->
     In msg msgs ->
     exists pre line ks post i m time st0,
       nonBlankLines rawText = pre ++ line :: ks ++ post /\
       firstMatch line = Some (i, m) /\
       Forall (fun k => firstMatch k = None) ks /\
       runEnds post /\
       processLines pre (initial now) = Normal st0 /\
       nth (timeGroup i) m None = Some time /\
       timestamp msg =
         (if Nat.eqb i 0
             then match nth 2 m None with
                  | Some date => parseTimestamp time date
                  | None => None
                  end
             else parseTimeOnly time (currentTimestamp st0))) /\
  (forall t,
     let D := localDay LocalTZA t in
     let L1 := MakeDate D (MakeTime 9 0 0 0) in
     let L2 := MakeDate D (MakeTime 23 50 0 0) in
     let t1 := UTC LocalTZA L1 in
     let t2 := UTC LocalTZA L2 in
     (Z.abs t1 <= 8640000000000000)%Z ->
     (Z.abs t2 <= 8640000000000000)%Z ->
     LocalTZA t1 true = LocalTZA L1 false ->
     LocalTZA t2 true = LocalTZA L2 false ->
     exists msg1 msg2,
       parseWhatsAppMessages (Some t)
         (u "09:00 msg1" ++ 10%N :: u "23:50 msg2") = Normal [msg1; msg2] /\
       timestamp msg1 = Some t1 /\ timestamp msg2 = Some t2 /\
       localDay LocalTZA t1 = D /\
       getHours LocalTZA t1 = 9%Z /\ getMinutes LocalTZA t1 = 0%Z /\
       localDay LocalTZA t2 = D /\
       getHours LocalTZA t2 = 23%Z /\ getMinutes LocalTZA t2 = 50%Z).
Proof.
  repeat apply conj.
  - apply parseTimeOnly_target.
  - apply parseTimeOnly_lands.
  - intros now rawText. split; [reflexivity | apply parse_unfold].
  - intros st line i m Hf.
    destruct (startMessage_spec line i m st Hf)
      as (time & c & ts & msg0 & Ht & _ & Hts & Hmsg & _ & Hs).
    exists time, msg0. rewrite processLine_cases, Hf, Hs.
    subst msg0. simpl. repeat split; auto.
    intros Hi. rewrite Hts. destruct i; [contradiction | reflexivity].
  - intros st line Hf. rewrite processLine_cases, Hf.
    eexists. split; [reflexivity|].
    unfold appendLine. destruct (currentMessage st); reflexivity.
  - intros now lines st H. split.
    + intros Hl. apply (reference_unmatched lines _ _ Hl H).
    + intros pre line ks i m -> Hf Hks.
      apply (reference_after now pre line ks i m st H Hf Hks).
  - intros now rawText msgs msg Hp Hin.
    destruct (parse_message_run now rawText msgs msg Hp Hin)
      as (pre & line & ks & post & i & m & time & c & st0
          & H1 & H2 & H3 & Hend & H0 & Ht & _ & _ & H4 & _).
    exists pre, line, ks, post, i, m, time, st0. repeat split; auto.
  - intros t D L1 L2 t1 t2 Hr1 Hr2 Hz1 Hz2.
    set (ts1 := parseTimeOnly (u "09" ++ code ":" :: u "00") (Some t)).
    set (ts2 := parseTimeOnly (u "23" ++ code ":" :: u "50") ts1).
    assert (E : parseWhatsAppMessages (Some t)
                  (u "09:00 msg1" ++ 10%N :: u "23:50 msg2") =
                Normal
                  [addMediaType (mkMessage ts1 (u "Unknown") (u "msg1")
                                   (checkIfMedia (u "msg1")) None);
                   addMediaType (mkMessage ts2 (u "Unknown") (u "msg2")
                                   (checkIfMedia (u "msg2")) None)])
      by (lazy -[parseTimeOnly checkIfMedia detectMediaType]; reflexivity).
    assert (Hclip : forall x, (Z.abs x <= 8640000000000000)%Z ->
                              TimeClip x = Some x).
    { intros x Hx. unfold TimeClip.
      now destruct (Z.leb_spec (Z.abs x) 8640000000000000); [|lia]. }
    assert (E1 : ts1 = Some t1).
    { unfold ts1.
      rewrite (parseTimeOnly_target (u "09") (u "00") 9 0 t eq_refl eq_refl).
      apply Hclip, Hr1. }
    destruct (parseTimeOnly_lands (u "09") (u "00") 9 0 t t1 eq_refl eq_refl
                E1 Hz1) as (_ & _ & _ & _ & _ & Hin1).
    destruct Hin1 as (Hd1 & Hh1 & Hm1); [lia | lia |].
    assert (E2 : ts2 = Some t2).
    { unfold ts2. rewrite E1.
      rewrite (parseTimeOnly_target (u "23") (u "50") 23 50 t1 eq_refl eq_refl).
      rewrite Hd1. apply Hclip, Hr2. }
    assert (E2' : parseTimeOnly (u "23" ++ code ":" :: u "50") (Some t1)
                  = Some t2) by (rewrite <- E1; exact E2).
    assert (Hz2' : LocalTZA t2 true =
                   LocalTZA (MakeDate (localDay LocalTZA t1)
                               (MakeTime 23 50 0 0)) false)
      by (rewrite Hd1; exact Hz2).
    destruct (parseTimeOnly_lands (u "23") (u "50") 23 50 t1 t2 eq_refl eq_refl
                E2' Hz2') as (_ & _ & _ & _ & _ & Hin2).
    destruct Hin2 as (Hd2 & Hh2 & Hm2); [lia | lia |].
    do 2 eexists. split; [exact E|].
    match goal with
    | |- timestamp (addMediaType ?a) = _ /\ timestamp (addMediaType ?b) = _ /\ _ =>
        destruct (addMediaType_fields a) as (-> & _);
        destruct (addMediaType_fields b) as (-> & _)
    end.
    simpl. rewrite Hd2, Hd1. repeat split; auto.
Qed.

(** C8, as the code has it. Full-timestamp resolution hands day, month
    less one, hour and minute, unvalidated, to the date constructor, and
    the year too; the constructor takes a year from 100 on as it is
    written, and a month beyond December carries into the year: month
    13 is January of the next year. *)
Theorem full_timestamp_resolution :
  (forall hs mis ds mos ys h mi d mo y,
     Number hs = Some h -> Number mis = Some mi ->
     Number ds = Some d -> Number mos = Some mo -> Number ys = Some y ->
     (100 <= y)%Z ->
     parseTimestamp (hs ++ code ":" :: mis)
       (ds ++ code "/" :: mos ++ code "/" :: ys) =
       TimeClip (UTC LocalTZA
                   (MakeDate (MakeDay y (mo - 1) d) (MakeTime h mi 0 0)))) /\
  (forall y d, MakeDay y (13 - 1) d = MakeDay (y + 1) (1 - 1) d).
Proof.
  split.
  - intros hs mis ds mos ys h mi d mo y Hh Hm Hd Hmo Hy Hy100.
    rewrite (parseTimestamp_digits hs mis ds mos ys h mi d mo y) by assumption.
    unfold newDate, fullYear.
    destruct (Z.leb_spec y 99); [lia|].
    now rewrite andb_false_r.
  - intros y d. apply (MakeDay_month_carry y 0 d).
Qed.

End HostFacts.

(* ================================================================== *)
(** * The parser at work: concrete runs *)
(* ================================================================== *)

Lemma parse_helloInput :
  parse noon_2024_01_01 helloInput = Normal [helloMessage].
Proof. vm_compute. reflexivity. Defined.

Lemma parse_mediaInput :
  parse noon_2024_01_01 mediaInput = Normal [mediaMessage].
Proof. vm_compute. reflexivity. Defined.

(** C1 fails as stated: the continuation line brings the marker
    "photo" into the content, and the flag stays false. *)
Lemma isMedia_ignores_continuation :
  exists msg,
    parse noon_2024_01_01
      (u "[10:30, 1/1/2024] Alice: Hello" ++ 10%N :: u "photo") = Normal [msg] /\
    content msg = u "Hello photo" /\
    In (u "Photo") mediaIndicators /\
    includes (lowerLatin1 (content msg)) (lowerLatin1 (u "Photo")) = true /\
    checkIfMedia lowerLatin1 (content msg) = true /\
    isMedia msg = false.
Proof.
  eexists. split; [vm_compute; reflexivity|].
  repeat split; try (vm_compute; reflexivity). now left.
Qed.

Lemma isMedia_from_matched_field_witness :
  parse noon_2024_01_01 helloInput = Normal [helloMessage] /\
  exists pre line ks post i m c,
    nonBlankLines helloInput = pre ++ line :: ks ++ post /\
    firstMatch line = Some (i, m) /\
    Forall (fun k => firstMatch k = None) ks /\
    runEnds post /\
    nth (contentGroup i) m None = Some c /\
    content helloMessage = assembled c ks /\
    (isMedia helloMessage = true <->
       exists indicator,
         In indicator mediaIndicators /\
         includes (lowerLatin1 c) (lowerLatin1 indicator) = true) /\
    mediaType helloMessage =
      (if isMedia helloMessage
       then detectMediaType lowerLatin1 (assembled c ks) else None).
Proof.
  split; [exact parse_helloInput|].
  apply (proj1 (isMedia_from_matched_field utcZone lowerLatin1
                  noon_2024_01_01 helloInput [helloMessage] parse_helloInput)
           helloMessage).
  left. reflexivity.
Defined.

Lemma mediaType_iff_isMedia_witness :
  parse noon_2024_01_01 mediaInput = Normal [mediaMessage] /\
  (mediaType mediaMessage <> None <-> isMedia mediaMessage = true).
Proof.
  split; [exact parse_mediaInput|].
  apply (mediaType_iff_isMedia utcZone lowerLatin1 noon_2024_01_01
           mediaInput [mediaMessage] mediaMessage).
  - exact parse_mediaInput.
  - left. reflexivity.
Defined.

Lemma content_never_blank_witness :
  parse noon_2024_01_01 helloInput = Normal [helloMessage] /\
  trim (content helloMessage) <> [].
Proof.
  split; [exact parse_helloInput|].
  apply (content_never_blank utcZone lowerLatin1 noon_2024_01_01
           helloInput [helloMessage] helloMessage).
  - exact parse_helloInput.
  - left. reflexivity.
Defined.

(** C7 fails as stated: after a matched line with an empty content
    field, the continuation line leaves a leading space. *)
Lemma content_leading_space :
  exists msg,
    parse noon_2024_01_01 (u "9:15 Bob:" ++ 10%N :: u "hello") = Normal [msg] /\
    sender msg = u "Bob" /\
    content msg = u " hello" /\
    trim (content msg) <> content msg.
Proof.
  eexists. split; [vm_compute; reflexivity|].
  repeat split; try (vm_compute; reflexivity).
  vm_compute. discriminate.
Qed.

Lemma content_assembled_witness :
  parse noon_2024_01_01 helloInput = Normal [helloMessage] /\
  exists pre line ks post i m c,
    nonBlankLines helloInput = pre ++ line :: ks ++ post /\
    firstMatch line = Some (i, m) /\
    Forall (fun k => firstMatch k = None) ks /\
    runEnds post /\
    nth (contentGroup i) m None = Some c /\
    content helloMessage =
      trim c ++ concat (map (fun k => u " " ++ trim k) ks) /\
    noTrailingSpace (content helloMessage) /\
    (trim c <> [] ->
       noLeadingSpace (content helloMessage) /\
       trim (content helloMessage) = content helloMessage).
Proof.
  split; [exact parse_helloInput|].
  apply (proj1 (content_assembled utcZone lowerLatin1 noon_2024_01_01
                  helloInput [helloMessage] parse_helloInput)
           helloMessage).
  left. reflexivity.
Defined.

(** A line that no pattern matches comes first; the message of the
    second line is there all the same. *)
Lemma first_matching_pattern_wins_witness :
  parse noon_2024_01_01 junkThenBob = Normal [bobMessage] /\
  exists st0 time c msg later,
    processLines utcZone lowerLatin1 [u "junk"] (initial noon_2024_01_01)
      = Normal st0 /\
    time = u "9:15" /\
    c = u "lunch at noon" /\
    sender msg = u "Bob" /\
    content msg = assembled c [] /\
    [bobMessage] =
      map (addMediaType lowerLatin1) (flush st0)
      ++ (if isEmpty (assembled c []) then [] else [msg]) ++ later /\
    later = [].
Proof.
  assert (Hp : parse noon_2024_01_01 junkThenBob = Normal [bobMessage])
    by (vm_compute; reflexivity).
  split; [exact Hp|].
  destruct (proj1 (proj2 (proj2 (first_matching_pattern_wins utcZone lowerLatin1)))
              noon_2024_01_01 junkThenBob [bobMessage]
              [u "junk"] (u "9:15 Bob: lunch at noon") [] [] 1
              [Some (u "9:15 Bob: lunch at noon"); Some (u "9:15");
               Some (u "Bob"); Some (u "lunch at noon")])
    as (st0 & time & c & msg & later
        & H0 & Ht & Hc & _ & _ & Hs & Hcont & _ & Hmsgs & Hlater).
  - exact Hp.
  - vm_compute. reflexivity.
  - lia.
  - vm_compute. reflexivity.
  - intros [|j] Hj; [vm_compute; reflexivity | lia].
  - constructor.
  - exact I.
  - exists st0, time, c, msg, later. simpl in Ht, Hc, Hs.
    injection Ht as <-. injection Hc as <-.
    repeat split; auto.
Defined.

(** The second of two time-only lines has its message too. *)
Lemma time_only_sender_unknown_witness :
  parse noon_2024_01_01 twoTimeOnly = Normal [firstUnknown; laterUnknown] /\
  exists st0 c msg later,
    processLines utcZone lowerLatin1 [u "14:00 first"]
      (initial noon_2024_01_01) = Normal st0 /\
    c = u "see you later" /\
    sender msg = u "Unknown" /\
    content msg = assembled c [] /\
    [firstUnknown; laterUnknown] =
      map (addMediaType lowerLatin1) (flush st0)
      ++ (if isEmpty (assembled c []) then [] else [msg]) ++ later /\
    later = [].
Proof.
  assert (Hp : parse noon_2024_01_01 twoTimeOnly
               = Normal [firstUnknown; laterUnknown])
    by (vm_compute; reflexivity).
  split; [exact Hp|].
  destruct (proj1 (proj2 (time_only_sender_unknown utcZone lowerLatin1))
              noon_2024_01_01 twoTimeOnly [firstUnknown; laterUnknown]
              [u "14:00 first"] (u "15:30 see you later") [] []
              [Some (u "15:30 see you later"); Some (u "15:30");
               Some (u "see you later")])
    as (st0 & c & msg & later & H0 & Hc & Hs & Hcont & Hmsgs & Hlater).
  - exact Hp.
  - vm_compute. reflexivity.
  - vm_compute. reflexivity.
  - vm_compute. reflexivity.
  - vm_compute. reflexivity.
  - vm_compute. reflexivity.
  - constructor.
  - exact I.
  - exists st0, c, msg, later. simpl in Hc. injection Hc as <-.
    repeat split; auto.
Defined.

Lemma parseWhatsAppMessages_total_witness :
  (forall c, In c (u "  ") -> isWhiteSpace c = true) /\
  parse noon_2024_01_01 (u "  ") = Normal [].
Proof.
  assert (H : forall c, In c (u "  ") -> isWhiteSpace c = true).
  { intros c [<-|[<-|[]]]; reflexivity. }
  split; [exact H|].
  exact (proj2 (parseWhatsAppMessages_total utcZone lowerLatin1
                  noon_2024_01_01 (u "  ")) H).
Defined.

(** The bounds are included, and an invalid timestamp is never kept. *)
Example filterMessagesByTime_bounds :
  let at_ t := mkMessage (Some t) (u "A") (u "x") false None in
  let bad := mkMessage None (u "A") (u "x") false None in
  filterMessagesByTime [at_ 5; at_ 10; bad; at_ 20; at_ 21; at_ 7]%Z
    (Some 5%Z) (Some 20%Z) = [at_ 5; at_ 10; at_ 20; at_ 7]%Z.
Proof. reflexivity. Qed.

(** C4 fails as stated: the pattern lets "25:00" through, and the
    resolved timestamp is 01:00 on the day after the reference's. *)
Lemma time_only_hour_overflow :
  exists msg t0 t,
    noon_2024_01_01 = Some t0 /\
    parse noon_2024_01_01 (u "25:00 late") = Normal [msg] /\
    sender msg = u "Unknown" /\
    timestamp msg = Some t /\
    localDay utcZone t = (localDay utcZone t0 + 1)%Z /\
    getHours utcZone t = 1%Z.
Proof.
  do 3 eexists. split; [reflexivity|].
  split; [vm_compute; reflexivity|].
  repeat split; vm_compute; reflexivity.
Qed.

(** Minutes beyond 59 carry into the hour: "10:75" is 11:15 on the
    reference's day. *)
Example time_only_minute_carry :
  exists msg t0 t,
    noon_2024_01_01 = Some t0 /\
    parse noon_2024_01_01 (u "10:75 x") = Normal [msg] /\
    timestamp msg = Some t /\
    localDay utcZone t = localDay utcZone t0 /\
    getHours utcZone t = 11%Z /\
    getMinutes utcZone t = 15%Z.
Proof.
  do 3 eexists. split; [reflexivity|].
  split; [vm_compute; reflexivity|].
  repeat split; vm_compute; reflexivity.
Qed.

(** Where a clock change skips the local time, the hour is not kept:
    at 00:30 on the night of the change, "02:30" resolves to 03:30. *)
Example time_only_skipped_hour :
  exists msg t,
    parseWhatsAppMessages springForward lowerLatin1 (Some 1710048600000%Z)
      (u "02:30 hi") = Normal [msg] /\
    timestamp msg = Some t /\
    localDay springForward t = localDay springForward 1710048600000 /\
    getHours springForward 1710048600000 = 0%Z /\
    getHours springForward t = 3%Z /\
    getMinutes springForward t = 30%Z /\
    springForward t true <>
      springForward
        (MakeDate (localDay springForward 1710048600000) (MakeTime 2 30 0 0))
        false.
Proof.
  do 2 eexists. split; [vm_compute; reflexivity|].
  repeat split; try (vm_compute; reflexivity).
  vm_compute. discriminate.
Qed.

(** On the UTC host; and on the host whose clocks change that night,
    where 09:00 and 23:50 of the day both exist. *)
Lemma time_only_resolution_witness :
  (parseTimeOnly utcZone (u "23" ++ code ":" :: u "50")
     (Some 1704110400000%Z) = Some 1704153000000%Z /\
   localDay utcZone 1704153000000 = localDay utcZone 1704110400000 /\
   getHours utcZone 1704153000000 = 23%Z /\
   getMinutes utcZone 1704153000000 = 50%Z) /\
  (parseTimeOnly utcZone (u "10" ++ code ":" :: u "75")
     (Some 1704110400000%Z) = Some 1704107700000%Z /\
   localDay utcZone 1704107700000 = localDay utcZone 1704110400000 /\
   getHours utcZone 1704107700000 = 11%Z /\
   getMinutes utcZone 1704107700000 = 15%Z) /\
  (exists msg1 msg2,
     parse (Some 1704110400000%Z)
       (u "09:00 msg1" ++ 10%N :: u "23:50 msg2") = Normal [msg1; msg2] /\
     timestamp msg1 = Some 1704099600000%Z /\
     timestamp msg2 = Some 1704153000000%Z /\
     localDay utcZone 1704099600000 = localDay utcZone 1704110400000 /\
     getHours utcZone 1704099600000 = 9%Z /\
     getMinutes utcZone 1704099600000 = 0%Z /\
     localDay utcZone 1704153000000 = localDay utcZone 1704110400000 /\
     getHours utcZone 1704153000000 = 23%Z /\
     getMinutes utcZone 1704153000000 = 50%Z) /\
  (exists msg1 msg2,
     parseWhatsAppMessages springForward lowerLatin1 (Some 1710048600000%Z)
       (u "09:00 msg1" ++ 10%N :: u "23:50 msg2") = Normal [msg1; msg2] /\
     timestamp msg1 = Some 1710075600000%Z /\
     timestamp msg2 = Some 1710129000000%Z /\
     localDay springForward 1710075600000
       = localDay springForward 1710048600000 /\
     getHours springForward 1710075600000 = 9%Z /\
     getMinutes springForward 1710075600000 = 0%Z /\
     localDay springForward 1710129000000
       = localDay springForward 1710048600000 /\
     getHours springForward 1710129000000 = 23%Z /\
     getMinutes springForward 1710129000000 = 50%Z).
Proof.
  destruct (time_only_resolution utcZone lowerLatin1)
    as (_ & Hlands & _ & _ & _ & _ & _ & Hlines).
  destruct (time_only_resolution springForward lowerLatin1)
    as (_ & _ & _ & _ & _ & _ & _ & Hchange).
  assert (Hp : parseTimeOnly utcZone (u "23" ++ code ":" :: u "50")
                 (Some 1704110400000%Z) = Some 1704153000000%Z)
    by (vm_compute; reflexivity).
  assert (Hq : parseTimeOnly utcZone (u "10" ++ code ":" :: u "75")
                 (Some 1704110400000%Z) = Some 1704107700000%Z)
    by (vm_compute; reflexivity).
  split; [|split; [|split]].
  - split; [exact Hp|].
    apply (Hlands (u "23") (u "50") 23%Z 50%Z 1704110400000%Z
             1704153000000%Z eq_refl eq_refl Hp eq_refl); reflexivity.
  - split; [exact Hq|].
    destruct (Hlands (u "10") (u "75") 10%Z 75%Z 1704110400000%Z
                1704107700000%Z eq_refl eq_refl Hq eq_refl)
      as (Hd & Hh & Hm & _).
    split; [exact Hd | split; [exact Hh | exact Hm]].
  - apply (Hlines 1704110400000%Z); try reflexivity;
      vm_compute; discriminate.
  - apply (Hchange 1710048600000%Z); try reflexivity;
      vm_compute; discriminate.
Defined.

(** C8 fails as stated: the year "0024" is a number below 100, and the
    date constructor places it in 1924. *)
Lemma full_timestamp_two_digit_year :
  parseTimestamp utcZone (u "10:30") (u "1/1/0024") <>
    TimeClip (UTC utcZone
                (MakeDate (MakeDay 24 (1 - 1) 1) (MakeTime 10 30 0 0))) /\
  parseTimestamp utcZone (u "10:30") (u "1/1/0024") =
    TimeClip (UTC utcZone
                (MakeDate (MakeDay 1924 (1 - 1) 1) (MakeTime 10 30 0 0))) /\
  exists msg,
    parse noon_2024_01_01 (u "[10:30, 1/1/0024] Ann: hi") = Normal [msg] /\
    timestamp msg = parseTimestamp utcZone (u "10:30") (u "1/1/0024").
Proof.
  split; [vm_compute; discriminate|].
  split; [vm_compute; reflexivity|].
  eexists. split; vm_compute; reflexivity.
Qed.

Lemma full_timestamp_resolution_witness :
  parseTimestamp utcZone (u "10:30") (u "1/13/2024") =
    TimeClip (UTC utcZone
                (MakeDate (MakeDay 2024 (13 - 1) 1) (MakeTime 10 30 0 0))) /\
  MakeDay 2024 (13 - 1) 1 = MakeDay (2024 + 1) (1 - 1) 1.
Proof.
  split.
  - apply (proj1 (full_timestamp_resolution utcZone)
             (u "10") (u "30") (u "1") (u "13") (u "2024"));
      try reflexivity.
    lia.
  - apply (proj2 (full_timestamp_resolution utcZone)).
Defined.

(* ================================================================== *)
(** * The rest of the parser module: properties *)
(* ================================================================== *)

(** ** String equality and maps *)

Lemma streq_eq a : forall b, streq a b = true <-> a = b.
Proof.
  induction a as [|x a IH]; intros [|y b]; simpl; split; try easy.
  - intros H. apply andb_prop in H as [H1 H2].
    apply N.eqb_eq in H1. apply IH in H2. congruence.
  - intros [= -> ->]. rewrite N.eqb_refl. now apply IH.
Qed.

Lemma streq_refl a : streq a a = true.
Proof. now apply streq_eq. Qed.

Lemma streq_neq a b : streq a b = false <-> a <> b.
Proof.
  split.
  - intros H E. apply streq_eq in E. congruence.
  - intros H. destruct (streq a b) eqn:E; [|reflexivity].
    apply streq_eq in E. contradiction.
Qed.

Lemma streq_sym a b : streq a b = streq b a.
Proof.
  destruct (streq a b) eqn:E.
  - apply streq_eq in E. subst. symmetry. apply streq_refl.
  - symmetry. apply streq_neq. apply streq_neq in E. congruence.
Qed.

Lemma startsWith_refl s : startsWith s s = true.
Proof. induction s as [|c s IH]; simpl; [reflexivity|]. now rewrite N.eqb_refl. Qed.

Lemma includes_refl s : includes s s = true.
Proof. destruct s; simpl; [reflexivity|]. now rewrite N.eqb_refl, startsWith_refl. Qed.

Lemma includes_empty s : includes s [] = true.
Proof. destruct s; reflexivity. Qed.

Section MapFacts.

Variable V : Type.
Implicit Types (m : JSMap.t V) (k : jsstring) (v : V).

Lemma get_set_same k v m : JSMap.get k (JSMap.set k v m) = Some v.
Proof.
  induction m as [|[k' v'] m IH]; simpl.
  - now rewrite streq_refl.
  - destruct (streq k k') eqn:E; simpl; [now rewrite streq_refl|].
    now rewrite E.
Qed.

Lemma get_set_other k k' v m :
  k' <> k -> JSMap.get k' (JSMap.set k v m) = JSMap.get k' m.
Proof.
  intros Hne. apply streq_neq in Hne.
  induction m as [|[k0 v0] m IH]; simpl.
  - now rewrite Hne.
  - destruct (streq k k0) eqn:E; simpl.
    + apply streq_eq in E. subst k0. now rewrite Hne.
    + destruct (streq k' k0); [reflexivity | exact IH].
Qed.

Lemma keys_set k v m :
  JSMap.keys (JSMap.set k v m) =
  if JSMap.has k m then JSMap.keys m else JSMap.keys m ++ [k].
Proof.
  unfold JSMap.has, JSMap.keys.
  induction m as [|[k' v'] m IH]; simpl; [reflexivity|].
  destruct (streq k k') eqn:E; simpl.
  - apply streq_eq in E. now subst.
  - rewrite IH. now destruct (JSMap.get k m).
Qed.

Lemma set_set k v v' m :
  JSMap.set k v (JSMap.set k v' m) = JSMap.set k v m.
Proof.
  induction m as [|[k' v0] m IH]; simpl.
  - now rewrite streq_refl.
  - destruct (streq k k') eqn:E; simpl.
    + now rewrite streq_refl.
    + now rewrite E, IH.
Qed.

Lemma has_In k m : JSMap.has k m = true <-> In k (JSMap.keys m).
Proof.
  unfold JSMap.has, JSMap.keys.
  induction m as [|[k' v'] m IH]; simpl; [easy|].
  destruct (streq k k') eqn:E.
  - apply streq_eq in E. subst. tauto.
  - apply streq_neq in E. split; [tauto|]. intros [H|H]; [congruence | tauto].
Qed.

Lemma Forall_set (P : jsstring * V -> Prop) k v m :
  Forall P m -> P (k, v) -> Forall P (JSMap.set k v m).
Proof.
  intros Hm Hv. induction Hm as [|[k' v'] m Hx Hm IH]; simpl.
  - now constructor.
  - destruct (streq k k'); constructor; auto.
Qed.

End MapFacts.

(** ** Grouping *)

Section GroupFacts.

Context {A : Type}.
Variable key : A -> jsstring.

Lemma keysInOrder_snoc done msg :
  keysInOrder key (done ++ [msg]) =
  if existsb (fun m => streq (key m) (key msg)) done
  then keysInOrder key done
  else keysInOrder key done ++ [key msg].
Proof.
  unfold keysInOrder. rewrite map_app, rev_app_distr. simpl.
  destruct (in_dec (list_eq_dec N.eq_dec) (key msg)
              (rev (map key done))) as [Hin|Hnin].
  - apply in_rev, in_map_iff in Hin as (m & Hm & Hin).
    assert (E : existsb (fun m => streq (key m) (key msg)) done = true).
    { apply existsb_exists. exists m. split; [exact Hin|]. now apply streq_eq. }
    now rewrite E.
  - destruct (existsb (fun m => streq (key m) (key msg)) done) eqn:E;
      [|reflexivity].
    apply existsb_exists in E as (m & Hin & Hm). apply streq_eq in Hm.
    exfalso. apply Hnin. apply -> in_rev. apply in_map_iff. eauto.
Qed.

Lemma keysInOrder_NoDup ms : NoDup (keysInOrder key ms).
Proof. unfold keysInOrder. apply NoDup_rev, NoDup_nodup. Qed.

Lemma keysInOrder_In ms s :
  In s (keysInOrder key ms) <-> exists m, In m ms /\ key m = s.
Proof.
  unfold keysInOrder. rewrite <- in_rev, nodup_In, <- in_rev, in_map_iff.
  split; intros (m & H1 & H2); eauto.
Qed.

(** What the map holds after the messages [done]. *)
Lemma groupStep_invariant grouped done msg :
  JSMap.keys grouped = keysInOrder key done ->
  (forall s,
     JSMap.get s grouped =
     if existsb (fun m => streq (key m) s) done
     then Some (filter (fun m => streq (key m) s) done) else None) ->
  exists grouped',
    groupStep key grouped msg = Normal grouped' /\
    JSMap.keys grouped' = keysInOrder key (done ++ [msg]) /\
    (forall s,
       JSMap.get s grouped' =
       if existsb (fun m => streq (key m) s) (done ++ [msg])
       then Some (filter (fun m => streq (key m) s) (done ++ [msg]))
       else None) /\
    length (concat (map snd grouped')) = S (length (concat (map snd grouped))) /\
    (Forall (fun e => snd e <> []) grouped ->
     Forall (fun e => snd e <> []) grouped').
Proof.
  intros Hkeys Hget. unfold groupStep.
  set (s0 := key msg).
  assert (Hhas : JSMap.has s0 grouped =
                 existsb (fun m => streq (key m) s0) done).
  { unfold JSMap.has. rewrite Hget.
    now destruct (existsb (fun m => streq (key m) s0) done). }
  assert (Hafter : forall arr g,
            (forall s, s <> s0 -> JSMap.get s g = JSMap.get s grouped) ->
            arr = filter (fun m => streq (key m) s0) done ->
            forall s,
              JSMap.get s (JSMap.set s0 (arr ++ [msg]) g) =
              if existsb (fun m => streq (key m) s) (done ++ [msg])
              then Some (filter (fun m => streq (key m) s) (done ++ [msg]))
              else None).
  { intros arr g Hg -> s. rewrite existsb_app, filter_app. simpl.
    destruct (list_eq_dec N.eq_dec s s0) as [->|Hne].
    - rewrite get_set_same. fold s0. rewrite streq_refl, orb_true_r.
      reflexivity.
    - rewrite get_set_other, Hg, Hget by assumption.
      assert (E : streq s0 s = false) by (apply streq_neq; congruence).
      fold s0. rewrite E, orb_false_r, app_nil_r. reflexivity. }
  assert (Hsize : forall (g : JSMap.t (list A)) k v old,
            JSMap.get k g = Some old ->
            length (concat (map snd (JSMap.set k v g))) + length old =
            length (concat (map snd g)) + length v).
  { intros g k v old. induction g as [|[k' v'] g IH]; simpl; [discriminate|].
    destruct (streq k k'); simpl; rewrite !length_app.
    - intros [= ->]. lia.
    - intros H. specialize (IH H). lia. }
  destruct (JSMap.has s0 grouped) eqn:Eh; simpl.
  - pose proof (Hget s0) as H0. rewrite <- Hhas in H0.
    rewrite H0. eexists. split; [reflexivity|]. repeat split.
    + rewrite keys_set, Eh, Hkeys, keysInOrder_snoc.
      fold s0. now rewrite <- Hhas.
    + apply Hafter; auto.
    + pose proof (Hsize grouped s0
                    (filter (fun m => streq (key m) s0) done ++ [msg])
                    _ H0) as Hs.
      rewrite length_app in Hs. simpl in Hs. lia.
    + intros Hne. apply Forall_set; [exact Hne|]. simpl.
      now destruct (filter (fun m => streq (key m) s0) done).
  - rewrite get_set_same. eexists. split; [reflexivity|].
    assert (Hnone : filter (fun m => streq (key m) s0) done = []).
    { symmetry in Hhas. clear -Hhas.
      induction done as [|m done IH]; simpl in *; [reflexivity|].
      apply orb_false_elim in Hhas as [E1 E2]. rewrite E1. now apply IH. }
    repeat split.
    + rewrite set_set, keys_set, Eh, Hkeys, keysInOrder_snoc.
      fold s0. now rewrite <- Hhas.
    + apply Hafter; [|now rewrite Hnone].
      intros s Hs. now apply get_set_other.
    + rewrite set_set.
      assert (Habs : forall (g : JSMap.t (list A)) v,
                JSMap.get s0 g = None ->
                length (concat (map snd (JSMap.set s0 v g))) =
                length (concat (map snd g)) + length v).
      { intros g v. induction g as [|[k' v'] g IH]; simpl.
        - intros _. now rewrite app_nil_r.
        - destruct (streq s0 k'); [discriminate|]. simpl. intros H.
          rewrite !length_app, (IH H). lia. }
      rewrite Habs; [simpl; lia|].
      unfold JSMap.has in Eh. now destruct (JSMap.get s0 grouped).
    + intros Hne. rewrite set_set. apply Forall_set; [exact Hne|].
      simpl. discriminate.
Qed.

Lemma groupInto_invariant rest : forall grouped done,
  JSMap.keys grouped = keysInOrder key done ->
  (forall s,
     JSMap.get s grouped =
     if existsb (fun m => streq (key m) s) done
     then Some (filter (fun m => streq (key m) s) done) else None) ->
  exists grouped',
    groupInto key grouped rest = Normal grouped' /\
    JSMap.keys grouped' = keysInOrder key (done ++ rest) /\
    (forall s,
       JSMap.get s grouped' =
       if existsb (fun m => streq (key m) s) (done ++ rest)
       then Some (filter (fun m => streq (key m) s) (done ++ rest))
       else None) /\
    length (concat (map snd grouped')) =
      length (concat (map snd grouped)) + length rest /\
    (Forall (fun e => snd e <> []) grouped ->
     Forall (fun e => snd e <> []) grouped').
Proof.
  induction rest as [|msg rest IH]; intros grouped done Hk Hg.
  - exists grouped. rewrite app_nil_r. simpl. repeat split; auto.
  - destruct (groupStep_invariant grouped done msg Hk Hg)
      as (g1 & Hs & Hk1 & Hg1 & Hn1 & Hf1).
    destruct (IH g1 (done ++ [msg]) Hk1 Hg1) as (g2 & Hs2 & Hk2 & Hg2 & Hn2 & Hf2).
    exists g2. simpl. rewrite Hs. simpl.
    replace (done ++ msg :: rest) with ((done ++ [msg]) ++ rest)
      by (now rewrite <- app_assoc).
    split; [exact Hs2|]. split; [exact Hk2|]. split; [exact Hg2|].
    split; [lia | auto].
Qed.

Lemma nodup_snoc (l : list jsstring) x :
  nodup (list_eq_dec N.eq_dec) (l ++ [x]) =
  filter (fun s => negb (streq s x)) (nodup (list_eq_dec N.eq_dec) l) ++ [x].
Proof.
  induction l as [|a l IH]; simpl; [reflexivity|].
  destruct (in_dec (list_eq_dec N.eq_dec) a (l ++ [x])) as [Hin|Hnin];
    destruct (in_dec (list_eq_dec N.eq_dec) a l) as [Hin'|Hnin']; simpl.
  - exact IH.
  - apply in_app_or in Hin as [Hin|[<-|[]]]; [contradiction|].
    now rewrite streq_refl.
  - exfalso. apply Hnin, in_or_app. now left.
  - assert (E : streq a x = false).
    { apply streq_neq. intros ->. apply Hnin, in_or_app. right. now left. }
    rewrite E. simpl. now rewrite IH.
Qed.

Lemma keysInOrder_cons m ms :
  keysInOrder key (m :: ms) =
  key m :: filter (fun s => negb (streq s (key m))) (keysInOrder key ms).
Proof.
  unfold keysInOrder. simpl. rewrite nodup_snoc, rev_app_distr. simpl.
  f_equal. generalize (nodup (list_eq_dec N.eq_dec) (rev (map key ms))).
  intros l. induction l as [|a l IH]; simpl; [reflexivity|].
  rewrite filter_app. simpl.
  destruct (negb (streq a (key m))); simpl; rewrite IH;
    [reflexivity | now rewrite app_nil_r].
Qed.

(** What the map holds after the whole loop. *)
Lemma groupInto_all items :
  exists grouped,
    groupInto key [] items = Normal grouped /\
    JSMap.keys grouped = keysInOrder key items /\
    (forall s,
       JSMap.get s grouped =
       if existsb (fun m => streq (key m) s) items
       then Some (filter (fun m => streq (key m) s) items)
       else None) /\
    length (concat (map snd grouped)) = length items /\
    Forall (fun e => snd e <> []) grouped.
Proof.
  destruct (groupInto_invariant items [] []) as (g & H1 & H2 & H3 & H4 & H5);
    try reflexivity.
  exists g. repeat split; auto.
Qed.

End GroupFacts.

(** ** Grouping by sender *)

Lemma sendersInOrder_NoDup ms : NoDup (sendersInOrder ms).
Proof. apply keysInOrder_NoDup. Qed.

Lemma sendersInOrder_In ms s :
  In s (sendersInOrder ms) <-> exists m, In m ms /\ sender m = s.
Proof. apply keysInOrder_In. Qed.

Lemma sendersInOrder_cons m ms :
  sendersInOrder (m :: ms) =
  sender m :: filter (fun s => negb (streq s (sender m))) (sendersInOrder ms).
Proof. apply keysInOrder_cons. Qed.

Lemma groupMessagesBySender_invariant messages :
  exists grouped,
    groupMessagesBySender messages = Normal grouped /\
    JSMap.keys grouped = sendersInOrder messages /\
    (forall s,
       JSMap.get s grouped =
       if existsb (fun m => streq (sender m) s) messages
       then Some (filter (fun m => streq (sender m) s) messages)
       else None) /\
    length (concat (map snd grouped)) = length messages /\
    Forall (fun e => snd e <> []) grouped.
Proof.
  apply (groupInto_all sender).
Qed.

(** X1: grouping never throws, and under every sender the map holds
    exactly that sender's messages, in their order in the input; a
    sender without a message has no entry. *)
Theorem groupMessagesBySender_groups messages :
  exists grouped,
    groupMessagesBySender messages = Normal grouped /\
    forall s,
      (JSMap.get s grouped = None <->
       forall m, In m messages -> sender m <> s) /\
      (forall group,
         JSMap.get s grouped = Some group ->
         group = filter (fun m => streq (sender m) s) messages /\
         group <> []).
Proof.
  destruct (groupMessagesBySender_invariant messages)
    as (g & H1 & _ & H3 & _).
  exists g. split; [exact H1|]. intros s. rewrite H3.
  destruct (existsb (fun m => streq (sender m) s) messages) eqn:E.
  - apply existsb_exists in E as (m & Hin & Hm). apply streq_eq in Hm.
    split.
    + split; [discriminate|]. intros H. exfalso. now apply (H m).
    + intros group [= <-]. split; [reflexivity|].
      intros Hnil.
      assert (Hf : In m (filter (fun m0 => streq (sender m0) s) messages)).
      { apply filter_In. split; [exact Hin|]. now apply streq_eq. }
      now rewrite Hnil in Hf.
  - split; [|discriminate].
    split; [|reflexivity]. intros _ m Hin Hm.
    assert (existsb (fun m => streq (sender m) s) messages = true).
    { apply existsb_exists. exists m. split; [exact Hin|]. now apply streq_eq. }
    congruence.
Qed.

(** X2: the keys of the map are the senders of the input, each once, in
    the order of their first message: the sender of the first message
    comes first, and the keys for the remaining messages follow without
    it. *)
Theorem groupMessagesBySender_keys messages :
  exists grouped,
    groupMessagesBySender messages = Normal grouped /\
    NoDup (JSMap.keys grouped) /\
    (forall s, In s (JSMap.keys grouped) <->
               exists m, In m messages /\ sender m = s) /\
    match messages with
    | [] => grouped = []
    | m :: rest =>
        exists grouped',
          groupMessagesBySender rest = Normal grouped' /\
          JSMap.keys grouped =
            sender m :: filter (fun s => negb (streq s (sender m)))
                          (JSMap.keys grouped')
    end.
Proof.
  destruct (groupMessagesBySender_invariant messages)
    as (g & H1 & H2 & _).
  exists g. split; [exact H1|]. rewrite H2.
  repeat split.
  - apply sendersInOrder_NoDup.
  - apply sendersInOrder_In.
  - apply sendersInOrder_In.
  - destruct messages as [|m rest].
    + now injection H1 as <-.
    + destruct (groupMessagesBySender_invariant rest) as (g' & H1' & H2' & _).
      exists g'. split; [exact H1'|]. rewrite H2'.
      apply sendersInOrder_cons.
Qed.

(** X3: the groups split the input: their sizes add up to the number of
    messages, and no group is empty. *)
Theorem groupMessagesBySender_partition messages :
  exists grouped,
    groupMessagesBySender messages = Normal grouped /\
    length (concat (map snd grouped)) = length messages /\
    Forall (fun entry => snd entry <> []) grouped.
Proof.
  destruct (groupMessagesBySender_invariant messages)
    as (g & H1 & _ & _ & H4 & H5).
  exists g. auto.
Qed.

Section RestFacts.

Variable LocalTZA : Z -> bool -> Z.
Variable toLowerCase : jsstring -> jsstring.

Abbreviation filterMessagesBySender := (filterMessagesBySender toLowerCase).
Abbreviation shouldProcessSender := (shouldProcessSender toLowerCase).
Abbreviation someMatches := (someMatches toLowerCase).
Abbreviation parseWhatsAppMessages := (parseWhatsAppMessages LocalTZA toLowerCase).
Abbreviation processLine := (processLine LocalTZA toLowerCase).
Abbreviation processLines := (processLines LocalTZA toLowerCase).
Abbreviation addMediaType := (addMediaType toLowerCase).
Abbreviation extractMessagesFrom := (extractMessagesFrom LocalTZA toLowerCase).
Abbreviation extractMessagesFromCaptures :=
  (extractMessagesFromCaptures LocalTZA toLowerCase).

(** ** Filtering by sender *)

Lemma filterMessagesBySender_filter messages name :
  filterMessagesBySender messages name =
  filter (fun msg => includes (toLowerCase (sender msg)) (toLowerCase name))
    messages.
Proof.
  induction messages as [|msg rest IH]; simpl; [reflexivity|].
  now rewrite IH.
Qed.

Lemma filterMessagesByTime_filter messages startTime endTime :
  filterMessagesByTime messages startTime endTime =
  filter (fun msg => date_le startTime (timestamp msg)
                     && date_le (timestamp msg) endTime) messages.
Proof.
  induction messages as [|msg rest IH]; simpl; [reflexivity|].
  now rewrite IH.
Qed.

Lemma filter_filter_comm {A} (p q : A -> bool) l :
  filter p (filter q l) = filter q (filter p l).
Proof.
  induction l as [|x l IH]; simpl; [reflexivity|].
  destruct (p x) eqn:Ep, (q x) eqn:Eq; simpl; rewrite ?Ep, ?Eq, IH; reflexivity.
Qed.

Lemma filter_idempotent {A} (p : A -> bool) l :
  filter p (filter p l) = filter p l.
Proof.
  induction l as [|x l IH]; simpl; [reflexivity|].
  destruct (p x) eqn:Ep; simpl; rewrite ?Ep, IH; reflexivity.
Qed.

(** X4: filtering by sender keeps, in their order, the messages whose
    lowercased sender contains the lowercased name; a message whose
    sender is the name itself is always kept, and filtering the result
    again by the same name changes nothing. *)
Theorem filterMessagesBySender_spec messages name :
  (forall msg,
     In msg (filterMessagesBySender messages name) <->
     In msg messages /\
     includes (toLowerCase (sender msg)) (toLowerCase name) = true) /\
  (forall msg,
     In msg messages -> sender msg = name ->
     In msg (filterMessagesBySender messages name)) /\
  filterMessagesBySender (filterMessagesBySender messages name) name =
    filterMessagesBySender messages name.
Proof.
  rewrite !filterMessagesBySender_filter. split; [|split].
  - intros msg. apply filter_In.
  - intros msg Hin <-. apply filter_In. split; [exact Hin|].
    apply includes_refl.
  - apply filter_idempotent.
Qed.

(** X5: the sender filter and the time filter commute. *)
Theorem filters_commute messages name startTime endTime :
  filterMessagesByTime (filterMessagesBySender messages name) startTime endTime =
  filterMessagesBySender (filterMessagesByTime messages startTime endTime) name.
Proof.
  rewrite !filterMessagesByTime_filter, !filterMessagesBySender_filter.
  apply filter_filter_comm.
Qed.

(** X6: with a [toLowerCase] that maps the empty string to itself, the
    empty name keeps every message. *)
Theorem filterMessagesBySender_empty_name messages :
  toLowerCase [] = [] ->
  filterMessagesBySender messages [] = messages.
Proof.
  intros H. induction messages as [|msg rest IH]; simpl; [reflexivity|].
  now rewrite H, includes_empty, IH.
Qed.

(** X7: the group the map holds under a sender is part of what the
    sender filter returns for that name, and the filter, run on the
    group with the group's own key, returns the whole group. *)
Theorem group_within_sender_filter messages grouped s group :
  groupMessagesBySender messages = Normal grouped ->
  JSMap.get s grouped = Some group ->
  (forall msg, In msg group -> In msg (filterMessagesBySender messages s)) /\
  filterMessagesBySender group s = group.
Proof.
  intros Hg Hs.
  destruct (groupMessagesBySender_invariant messages)
    as (g & H1 & _ & H3 & _).
  assert (g = grouped) by congruence. subst g.
  rewrite H3 in Hs.
  destruct (existsb (fun m => streq (sender m) s) messages); [|discriminate].
  injection Hs as <-.
  assert (Hkeep : forall msg,
            In msg (filter (fun m => streq (sender m) s) messages) ->
            includes (toLowerCase (sender msg)) (toLowerCase s) = true).
  { intros msg Hin. apply filter_In in Hin as [_ Hin].
    apply streq_eq in Hin. rewrite Hin. apply includes_refl. }
  split.
  - intros msg Hin. rewrite filterMessagesBySender_filter.
    apply filter_In. split; [|now apply Hkeep].
    now apply filter_In in Hin.
  - rewrite filterMessagesBySender_filter.
    apply forallb_filter_id. apply forallb_forall. exact Hkeep.
Qed.

(** ** The sender lists of the settings *)

(** X8: a sender is processed exactly when no entry of the exclude list
    matches it and the include list is empty or has an entry that
    matches it; exclusion wins over inclusion. *)
Theorem shouldProcessSender_spec name settings :
  (shouldProcessSender name settings = true <->
   someMatches name (excludeSenders settings) = false /\
   (includeOnlySenders settings = [] \/
    someMatches name (includeOnlySenders settings) = true)) /\
  (someMatches name (excludeSenders settings) = true ->
   shouldProcessSender name settings = false).
Proof.
  unfold shouldProcessSender.
  assert (Hnil : someMatches name [] = false) by reflexivity.
  destruct (excludeSenders settings) as [|e es];
    destruct (includeOnlySenders settings) as [|i is_];
    cbn [length Nat.ltb Nat.leb andb]; rewrite ?Hnil;
    try destruct (someMatches name (e :: es));
    try destruct (someMatches name (i :: is_));
    cbn [andb]; intuition (try discriminate; try congruence).
Qed.

(** X9: selecting messages with an include list of one name and no
    exclude list is the sender filter for that name. *)
Theorem include_one_is_sender_filter messages name settings :
  excludeSenders settings = [] ->
  includeOnlySenders settings = [name] ->
  filter (fun msg => shouldProcessSender (sender msg) settings) messages =
  filterMessagesBySender messages name.
Proof.
  intros He Hi. rewrite filterMessagesBySender_filter.
  apply filter_ext. intros msg. unfold shouldProcessSender.
  rewrite He, Hi. simpl. apply orb_false_r.
Qed.

(** X10: with a [toLowerCase] that maps the empty string to itself, an
    empty string in the exclude list shuts every sender out. *)
Theorem empty_exclude_entry_blocks_all name settings :
  toLowerCase [] = [] ->
  In [] (excludeSenders settings) ->
  shouldProcessSender name settings = false.
Proof.
  intros H Hin.
  assert (E : someMatches name (excludeSenders settings) = true).
  { apply existsb_exists. exists []. split; [exact Hin|].
    rewrite H. apply includes_empty. }
  unfold shouldProcessSender. rewrite E.
  destruct (excludeSenders settings); [destruct Hin | reflexivity].
Qed.

(** ** Captures *)

Lemma emitted_invariants now rawText msgs msg :
  parseWhatsAppMessages now rawText = Normal msgs ->
  In msg msgs ->
  trim (content msg) <> [] /\
  (mediaType msg <> None <-> isMedia msg = true).
Proof.
  intros Hp Hin.
  destruct (parse_message_shape LocalTZA toLowerCase now rawText msgs msg Hp Hin)
    as (pre & line & ks & post & i & m & c
        & _ & _ & _ & Hink & _ & Hc & Hne & _ & Ht & _).
  split.
  - rewrite Hc in *. intros E. apply trim_nil_iff in E.
    rewrite assembled_ink in E; auto. discriminate.
  - rewrite Ht. destruct (isMedia msg).
    + destruct (detectMediaType_defined toLowerCase (content msg)) as [t ->].
      split; [reflexivity | discriminate].
    + split; [congruence | discriminate].
Qed.

Lemma extractMessagesFrom_spec clock captures : forall i,
  exists out,
    extractMessagesFrom clock i captures = Normal out /\
    length out = length captures /\
    (forall k capture,
       nth_error captures k = Some capture ->
       exists capture',
         nth_error out k = Some capture' /\
         Capture.timestamp capture' = Capture.timestamp capture /\
         Capture.rawText capture' = Capture.rawText capture /\
         Capture.screenshot capture' = Capture.screenshot capture /\
         parseWhatsAppMessages (clock (i + k)) (Capture.rawText capture) =
           Normal (Capture.messages capture')).
Proof.
  induction captures as [|c rest IH]; intros i; simpl.
  - exists []. repeat split. intros [|k] ? [=].
  - destruct (parse_unfold LocalTZA toLowerCase (clock i) (Capture.rawText c))
      as (st & _ & Hp).
    rewrite Hp. simpl.
    destruct (IH (S i)) as (out & Hout & Hlen & Hnth).
    rewrite Hout. simpl. eexists. split; [reflexivity|].
    split; [simpl; now rewrite Hlen|].
    intros [|k] capture Hk; simpl in Hk.
    + injection Hk as <-. eexists. simpl. split; [reflexivity|].
      rewrite Nat.add_0_r. repeat split. exact Hp.
    + destruct (Hnth k capture Hk) as (c' & H1 & H2).
      exists c'. split; [exact H1|].
      replace (i + S k) with (S i + k) by lia. exact H2.
Qed.

(** X11: extracting messages from captures never throws and returns as
    many captures, each with its timestamp, text and screenshot
    untouched and with the messages the parser returns for its text;
    every message handed on has content that is not blank, and a media
    type exactly when it is flagged as media. *)
Theorem extractMessagesFromCaptures_spec clock captures :
  exists out,
    extractMessagesFromCaptures clock captures = Normal out /\
    length out = length captures /\
    (forall k capture,
       nth_error captures k = Some capture ->
       exists capture',
         nth_error out k = Some capture' /\
         Capture.timestamp capture' = Capture.timestamp capture /\
         Capture.rawText capture' = Capture.rawText capture /\
         Capture.screenshot capture' = Capture.screenshot capture /\
         parseWhatsAppMessages (clock k) (Capture.rawText capture) =
           Normal (Capture.messages capture')) /\
    (forall capture' msg,
       In capture' out -> In msg (Capture.messages capture') ->
       trim (content msg) <> [] /\
       (mediaType msg <> None <-> isMedia msg = true)).
Proof.
  destruct (extractMessagesFrom_spec clock captures 0)
    as (out & Hout & Hlen & Hnth).
  exists out. repeat apply conj; auto.
  intros c' msg Hin Hmsg.
  apply In_nth_error in Hin as [k Hk].
  assert (Hlt : k < length captures).
  { rewrite <- Hlen. apply nth_error_Some. congruence. }
  destruct (nth_error captures k) as [c|] eqn:Ec;
    [|apply nth_error_None in Ec; lia].
  destruct (Hnth k c Ec) as (c'' & Hk' & _ & _ & _ & Hp).
  assert (c'' = c') by congruence. subst c''.
  exact (emitted_invariants _ _ _ msg Hp Hmsg).
Qed.

Lemma extractMessagesFrom_again clock captures : forall i out,
  extractMessagesFrom clock i captures = Normal out ->
  extractMessagesFrom clock i out = Normal out.
Proof.
  induction captures as [|c rest IH]; intros i out; simpl.
  - now intros [= <-].
  - destruct (parseWhatsAppMessages (clock i) (Capture.rawText c))
      as [msgs|] eqn:Hp; [|discriminate]. simpl.
    destruct (extractMessagesFrom clock (S i) rest) as [out'|] eqn:Ho;
      [|discriminate]. simpl.
    intros [= <-]. simpl. rewrite Hp. simpl.
    now rewrite (IH (S i) out' Ho).
Qed.

Lemma extractMessagesFrom_ignores clock (f : Capture.t -> list WhatsAppMessage)
    captures : forall i,
  extractMessagesFrom clock i
    (map (fun c => Capture.mk (Capture.timestamp c) (f c) (Capture.rawText c)
                     (Capture.screenshot c)) captures) =
  extractMessagesFrom clock i captures.
Proof.
  induction captures as [|c rest IH]; intros i; simpl; [reflexivity|].
  now rewrite IH.
Qed.

(** X12: the messages a capture carried before are ignored, and
    extracting once more from the result, with the same clock, gives
    the result again. *)
Theorem extractMessagesFromCaptures_again clock captures out :
  extractMessagesFromCaptures clock captures = Normal out ->
  extractMessagesFromCaptures clock out = Normal out /\
  forall f : Capture.t -> list WhatsAppMessage,
    extractMessagesFromCaptures clock
      (map (fun c => Capture.mk (Capture.timestamp c) (f c)
                       (Capture.rawText c) (Capture.screenshot c)) captures) =
    Normal out.
Proof.
  intros H. split.
  - now apply (extractMessagesFrom_again clock captures).
  - intros f. unfold extractMessagesFromCaptures.
    now rewrite extractMessagesFrom_ignores.
Qed.

(** ** The parser and the clock *)

Lemma sameText_refl a : sameText a a.
Proof. repeat split. Qed.

Lemma flush_sameText st1 st2 :
  Forall2 sameText (messages st1) (messages st2) ->
  match currentMessage st1, currentMessage st2 with
  | Some a, Some b => sameText a b
  | None, None => True
  | _, _ => False
  end ->
  Forall2 sameText (flush st1) (flush st2).
Proof.
  intros Hm Hc. unfold flush.
  destruct (currentMessage st1) as [a|], (currentMessage st2) as [b|];
    try contradiction; [|exact Hm].
  destruct Hc as (Hs & Hcont & Hrest). rewrite Hcont.
  destruct (isEmpty (content b)); [exact Hm|].
  apply Forall2_app; [exact Hm|]. constructor; [|constructor].
  repeat split; tauto.
Qed.

Lemma processLine_sameText st1 st2 line st1' st2' :
  Forall2 sameText (messages st1) (messages st2) ->
  match currentMessage st1, currentMessage st2 with
  | Some a, Some b => sameText a b
  | None, None => True
  | _, _ => False
  end ->
  processLine st1 line = Normal st1' ->
  processLine st2 line = Normal st2' ->
  Forall2 sameText (messages st1') (messages st2') /\
  match currentMessage st1', currentMessage st2' with
  | Some a, Some b => sameText a b
  | None, None => True
  | _, _ => False
  end.
Proof.
  intros Hm Hc. rewrite !processLine_cases.
  destruct (firstMatch line) as [[i m]|] eqn:Hf.
  - destruct (startMessage_spec LocalTZA toLowerCase line i m st1 Hf)
      as (t1 & c1 & ts1 & msg1 & _ & Hc1 & _ & Hmsg1 & _ & ->).
    destruct (startMessage_spec LocalTZA toLowerCase line i m st2 Hf)
      as (t2 & c2 & ts2 & msg2 & _ & Hc2 & _ & Hmsg2 & _ & ->).
    intros [= <-] [= <-]. simpl. split.
    + now apply flush_sameText.
    + assert (c1 = c2) by congruence. subst c2 msg1 msg2.
      unfold sameText. simpl. auto.
  - intros [= <-] [= <-]. unfold appendLine.
    destruct (currentMessage st1) as [a|] eqn:Ea,
             (currentMessage st2) as [b|] eqn:Eb;
      try contradiction; simpl; (split; [exact Hm|]).
    + destruct Hc as (H1 & H2 & H3 & H4).
      unfold sameText. simpl. rewrite H1, H2, H3, H4. auto.
    + now rewrite Ea, Eb.
Qed.

Lemma processLines_sameText lines : forall st1 st2 st1' st2',
  Forall2 sameText (messages st1) (messages st2) ->
  match currentMessage st1, currentMessage st2 with
  | Some a, Some b => sameText a b
  | None, None => True
  | _, _ => False
  end ->
  processLines lines st1 = Normal st1' ->
  processLines lines st2 = Normal st2' ->
  Forall2 sameText (flush st1') (flush st2').
Proof.
  induction lines as [|l lines IH]; intros st1 st2 st1' st2' Hm Hc; simpl.
  - intros [= <-] [= <-]. now apply flush_sameText.
  - destruct (processLine st1 l) as [s1|] eqn:E1; [|discriminate].
    destruct (processLine st2 l) as [s2|] eqn:E2; [|discriminate].
    simpl. destruct (processLine_sameText _ _ _ _ _ Hm Hc E1 E2) as [Hm' Hc'].
    now apply IH.
Qed.

Lemma addMediaType_sameText l1 l2 :
  Forall2 sameText l1 l2 ->
  Forall2 sameText (map addMediaType l1) (map addMediaType l2).
Proof.
  induction 1 as [|a b l1 l2 Hab H IH]; simpl; constructor; [|exact IH].
  destruct Hab as (H1 & H2 & H3 & H4).
  unfold addMediaType. rewrite H3.
  destruct (isMedia b) eqn:Eb; unfold sameText; simpl;
    rewrite ?H1, ?H2, ?H3, ?H4, ?Eb; auto.
Qed.

(** X13: the clock reaches the timestamps only. Two runs of the parser
    on the same text, at any two times, return as many messages, with
    the same senders, contents, media flags and media types, in the
    same order. *)
Theorem parse_text_independent_of_clock now1 now2 rawText :
  exists msgs1 msgs2,
    parseWhatsAppMessages now1 rawText = Normal msgs1 /\
    parseWhatsAppMessages now2 rawText = Normal msgs2 /\
    Forall2 sameText msgs1 msgs2.
Proof.
  destruct (parse_unfold LocalTZA toLowerCase now1 rawText) as (st1 & Hs1 & Hp1).
  destruct (parse_unfold LocalTZA toLowerCase now2 rawText) as (st2 & Hs2 & Hp2).
  do 2 eexists. split; [exact Hp1|]. split; [exact Hp2|].
  destruct (isEmpty rawText || Nat.eqb (length (trim rawText)) 0);
    [constructor|].
  apply addMediaType_sameText.
  apply (processLines_sameText (nonBlankLines rawText)
           (initial now1) (initial now2) st1 st2);
    [constructor | exact I | exact Hs1 | exact Hs2].
Qed.

Lemma processLines_unmatched_initial now pre :
  Forall (fun k => firstMatch k = None) pre ->
  processLines pre (initial now) = Normal (initial now).
Proof.
  induction 1 as [|l pre Hl _ IH]; simpl; [reflexivity|].
  rewrite processLine_cases, Hl. simpl. exact IH.
Qed.

(** X14: when the first line that matches a pattern carries a full
    timestamp, the clock plays no part: the parser returns the same
    messages, timestamps included, whenever it runs. *)
Theorem full_timestamp_first_fixes_dates now1 now2 rawText pre line rest m :
  nonBlankLines rawText = pre ++ line :: rest ->
  Forall (fun k => firstMatch k = None) pre ->
  firstMatch line = Some (0, m) ->
  parseWhatsAppMessages now1 rawText = parseWhatsAppMessages now2 rawText.
Proof.
  intros Hl Hpre Hf.
  destruct (parse_unfold LocalTZA toLowerCase now1 rawText) as (st1 & Hs1 & ->).
  destruct (parse_unfold LocalTZA toLowerCase now2 rawText) as (st2 & Hs2 & ->).
  rewrite Hl, processLines_app, processLines_unmatched_initial in Hs1, Hs2
    by assumption.
  simpl in Hs1, Hs2. rewrite processLine_cases, Hf in Hs1, Hs2.
  destruct (startMessage_spec LocalTZA toLowerCase line 0 m (initial now1) Hf)
    as (t1 & c1 & ts1 & msg1 & Ht1 & Hc1 & Hts1 & Hmsg1 & _ & E1).
  destruct (startMessage_spec LocalTZA toLowerCase line 0 m (initial now2) Hf)
    as (t2 & c2 & ts2 & msg2 & Ht2 & Hc2 & Hts2 & Hmsg2 & _ & E2).
  assert (Et : t2 = t1) by congruence.
  assert (Ec : c2 = c1) by congruence.
  assert (Ets : ts2 = ts1) by (rewrite Hts1, Hts2, Et; reflexivity).
  assert (Em : msg2 = msg1) by (rewrite Hmsg1, Hmsg2, Ets, Ec; reflexivity).
  rewrite E1 in Hs1. rewrite E2, Em, Ets in Hs2.
  unfold flush, initial in Hs1, Hs2. simpl in Hs1, Hs2.
  assert (st1 = st2) by congruence. now subst.
Qed.

Lemma split_first_line l rest :
  (forall c, In c l -> c <> 10%N) ->
  split 10 (l ++ 10%N :: rest) = l :: split 10 rest.
Proof.
  induction l as [|c l IH]; intros H; simpl; [reflexivity|].
  assert (E : (c =? 10)%N = false) by (apply N.eqb_neq, H; now left).
  rewrite E, IH; [reflexivity|]. intros c' Hc'. apply H. now right.
Qed.

(** X15: a first line that is blank, or that matches no pattern, is
    dropped: the parser returns what it returns for the text after that
    line. *)
Theorem leading_unmatched_line_dropped now line rawText :
  (forall c, In c line -> c <> 10%N) ->
  hasInk line = false \/ firstMatch line = None ->
  parseWhatsAppMessages now (line ++ 10%N :: rawText) =
  parseWhatsAppMessages now rawText.
Proof.
  intros Hnl Hline. unfold parseWhatsAppMessages.
  assert (Hink : hasInk (line ++ 10%N :: rawText) = hasInk line || hasInk rawText).
  { rewrite hasInk_app. reflexivity. }
  assert (Hlines : nonBlankLines (line ++ 10%N :: rawText) =
                   if isEmpty (trim line) then nonBlankLines rawText
                   else line :: nonBlankLines rawText).
  { unfold nonBlankLines. rewrite (split_first_line line rawText Hnl).
    simpl. now destruct (isEmpty (trim line)). }
  rewrite !blank_guard, Hink, Hlines. fold (initial now).
  destruct (hasInk line) eqn:El.
  - destruct Hline as [Hline|Hline]; [discriminate|].
    assert (Et : isEmpty (trim line) = false).
    { destruct (trim line) eqn:E; [|reflexivity].
      apply trim_nil_iff in E. congruence. }
    rewrite Et. simpl.
    rewrite processLine_cases, Hline. simpl.
    destruct (hasInk rawText) eqn:Er; simpl; [reflexivity|].
    now rewrite nonBlankLines_blank.
  - apply trim_nil_iff in El. rewrite El. simpl. reflexivity.
Qed.

Lemma processLines_count lines : forall st st',
  processLines lines st = Normal st' ->
  length (flush st') <=
  length (messages st)
  + (match currentMessage st with Some _ => 1 | None => 0 end)
  + length (filter isMatched lines).
Proof.
  assert (Hflush : forall st, length (flush st) <=
            length (messages st)
            + match currentMessage st with Some _ => 1 | None => 0 end).
  { intros st. unfold flush. destruct (currentMessage st) as [cur|]; [|lia].
    destruct (isEmpty (content cur)); [lia|]. rewrite length_app. simpl. lia. }
  induction lines as [|l lines IH]; intros st st'.
  - simpl. intros [= <-]. specialize (Hflush st). lia.
  - cbn [processLines filter].
    destruct (processLine st l) as [s1|] eqn:E1; [|discriminate].
    cbn [bind]. intros H. apply IH in H. rewrite processLine_cases in E1.
    unfold isMatched at 1. destruct (firstMatch l) as [[i m]|] eqn:Hf.
    + destruct (startMessage_spec LocalTZA toLowerCase l i m st Hf)
        as (t & c & ts & msg0 & _ & _ & _ & _ & _ & E).
      rewrite E in E1. injection E1 as <-.
      cbn [messages currentMessage length] in *.
      specialize (Hflush st). lia.
    + injection E1 as <-. unfold appendLine in H.
      destruct (currentMessage st) eqn:Ec;
        cbn [messages currentMessage] in H; rewrite ?Ec in H; lia.
Qed.

(** X16: the parser returns at most one message per line that matches
    a pattern. *)
Theorem at_most_one_message_per_matched_line now rawText msgs :
  parseWhatsAppMessages now rawText = Normal msgs ->
  length msgs <= length (filter isMatched (nonBlankLines rawText)).
Proof.
  intros Hp.
  destruct (parse_unfold LocalTZA toLowerCase now rawText) as (st & Hs & Hp').
  rewrite Hp' in Hp. injection Hp as <-.
  destruct (isEmpty rawText || Nat.eqb (length (trim rawText)) 0);
    [simpl; lia|].
  rewrite length_map. apply processLines_count in Hs. simpl in Hs. lia.
Qed.

End RestFacts.

(* ================================================================== *)
(** * Settings: properties *)
(* ================================================================== *)

(** ** The calendar *)

Local Open Scope Z_scope.

Lemma DayFromYear_step y :
  365 <= DayFromYear (y + 1) - DayFromYear y <= 366.
Proof. unfold DayFromYear. Z.div_mod_to_equations. lia. Qed.

Lemma DayFromYear_mono y1 y2 : y1 <= y2 -> DayFromYear y1 <= DayFromYear y2.
Proof. unfold DayFromYear. intros H. Z.div_mod_to_equations. lia. Qed.

(** [YearFromTime t] is the largest year that starts at or before [t]. *)
Lemma YearFromTime_spec t :
  DayFromYear (YearFromTime t) <= Day t < DayFromYear (YearFromTime t + 1) /\
  forall y, DayFromYear y <= Day t -> y <= YearFromTime t.
Proof.
  assert (H : DayFromYear (YearFromTime t) <= Day t
              < DayFromYear (YearFromTime t + 1)).
  { unfold YearFromTime. cbv zeta.
    set (d := Day t). set (y := 1970 + 400 * d / 146097).
    assert (Hlo : DayFromYear (y - 1) <= d).
    { subst y. unfold DayFromYear. Z.div_mod_to_equations. lia. }
    assert (Hhi : d < DayFromYear (y + 2)).
    { subst y. unfold DayFromYear. Z.div_mod_to_equations. lia. }
    destruct (Z.ltb_spec d (DayFromYear y)).
    - replace (y - 1 + 1) with y by lia. lia.
    - destruct (Z.leb_spec (DayFromYear (y + 1)) d).
      + replace (y + 1 + 1) with (y + 2) by lia. lia.
      + lia. }
  split; [exact H|]. intros y Hy.
  destruct (Z.le_gt_cases y (YearFromTime t)) as [Hle|Hgt]; [exact Hle|].
  assert (DayFromYear (YearFromTime t + 1) <= DayFromYear y)
    by (apply DayFromYear_mono; lia).
  lia.
Qed.

Lemma MonthFromTime_range t : 0 <= MonthFromTime t <= 11.
Proof.
  unfold MonthFromTime. cbv zeta.
  repeat match goal with
         | |- context [if ?b then _ else _] => destruct b
         end; lia.
Qed.

(** Year, month and day of [t], put together again with [k] days more,
    are the day [k] days after the day of [t]. *)
Lemma MakeDay_fields t k :
  MakeDay (YearFromTime t) (MonthFromTime t) (DateFromTime t + k) = Day t + k.
Proof.
  pose proof (MonthFromTime_range t) as Hm.
  unfold MakeDay. cbv zeta.
  rewrite Z.div_small, Z.mod_small by lia.
  unfold DateFromTime, DayInYear. rewrite Z.add_0_r. lia.
Qed.

Lemma setDate_tomorrow LocalTZA off s :
  (forall t b, LocalTZA t b = off) ->
  Z.abs s + msPerDay <= 8640000000000000 ->
  setDate LocalTZA (Some s) (num_add (getDate LocalTZA (Some s)) (Some 1)) =
  Some (s + msPerDay).
Proof.
  intros Hzone Hr. unfold setDate, getDate, num_add, LocalTime, UTC.
  rewrite !Hzone. rewrite MakeDay_fields.
  unfold MakeDate, TimeWithinDay, Day, TimeClip.
  assert (E : (s + off) / msPerDay * msPerDay + (s + off) mod msPerDay = s + off).
  { unfold msPerDay. pose proof (Z.div_mod (s + off) 86400000). lia. }
  replace (((s + off) / msPerDay + 1) * msPerDay + (s + off) mod msPerDay - off)
    with (s + msPerDay) by lia.
  destruct (Z.leb_spec (Z.abs (s + msPerDay)) 8640000000000000);
    [reflexivity|].
  unfold msPerDay in *. lia.
Qed.

Lemma clock_next_day LocalTZA off s :
  (forall t b, LocalTZA t b = off) ->
  getHours LocalTZA (s + msPerDay) = getHours LocalTZA s /\
  getMinutes LocalTZA (s + msPerDay) = getMinutes LocalTZA s /\
  getSeconds LocalTZA (s + msPerDay) = getSeconds LocalTZA s /\
  getMilliseconds LocalTZA (s + msPerDay) = getMilliseconds LocalTZA s.
Proof.
  intros Hzone.
  unfold getHours, getMinutes, getSeconds, getMilliseconds, LocalTime,
    HourFromTime, MinFromTime, SecFromTime, msFromTime,
    msPerDay, msPerHour, msPerMinute, msPerSecond.
  rewrite !Hzone. repeat split; Z.div_mod_to_equations; lia.
Qed.

Local Close Scope Z_scope.

(** ** The time format *)

Lemma testFrom_shorter p len inp :
  length inp < len ->
  TestRegExp.testFrom (TestRegExp.Cat TestRegExp.Bol p) len inp = false.
Proof.
  induction inp as [|c inp IH];
    cbn [TestRegExp.testFrom TestRegExp.accepts]; intros H.
  - destruct (Nat.eqb_spec (@length N []) len) as [E|E];
      [simpl in E, H; lia | reflexivity].
  - rewrite IH by (simpl in H; lia).
    destruct (Nat.eqb_spec (length (c :: inp)) len); [lia | reflexivity].
Qed.

Lemma test_anchored p s :
  TestRegExp.test (TestRegExp.Cat TestRegExp.Bol p) s =
  TestRegExp.accepts p (length s) s (fun _ => true).
Proof.
  unfold TestRegExp.test.
  destruct s as [|c s]; cbn [TestRegExp.testFrom TestRegExp.accepts];
    rewrite Nat.eqb_refl.
  - apply orb_false_r.
  - rewrite testFrom_shorter by (simpl; lia). apply orb_false_r.
Qed.

Ltac bool_to_prop :=
  repeat rewrite ?andb_true_r, ?andb_false_r, ?orb_false_r, ?orb_true_r,
    ?andb_true_l, ?andb_false_l, ?orb_false_l, ?orb_true_l;
  repeat rewrite ?orb_true_iff, ?andb_true_iff, ?N.leb_le, ?N.eqb_eq.

(** The strings the time format accepts: one digit, or a digit after 0
    or 1, or 2 and a digit up to 3; a colon; a digit up to 5 and a
    digit. *)
Lemma isValidTimeFormat_shape s :
  isValidTimeFormat s = true <->
  exists hs m1 m2,
    s = hs ++ [58; m1; m2]%N /\
    (48 <= m1 <= 53)%N /\ (48 <= m2 <= 57)%N /\
    ((exists d, hs = [d] /\ (48 <= d <= 57)%N) \/
     (exists c d, hs = [c; d] /\ (48 <= c <= 49)%N /\ (48 <= d <= 57)%N) \/
     (exists d, hs = [50%N; d] /\ (48 <= d <= 51)%N)).
Proof.
  unfold isValidTimeFormat, timeFormat. cbn [TestRegExp.cat].
  rewrite test_anchored.
  destruct s as [|a [|b [|c [|d [|e [|f r]]]]]];
    cbn [TestRegExp.accepts TestRegExp.chr TestRegExp.range isEmpty];
    change (code "0") with 48%N; change (code "1") with 49%N;
    change (code "2") with 50%N; change (code "3") with 51%N;
    change (code "5") with 53%N; change (code "9") with 57%N;
    change (code ":") with 58%N;
    bool_to_prop.
  all: split.
  all: try (intros H; discriminate H).
  all: try (intros (hs & m1 & m2 & Hs & _ & _ & [(x & -> & _)|[(x & y & -> & _)|(x & -> & _)]]);
            discriminate Hs).
  - intros H. exists [a], c, d.
    assert (b = 58%N) by lia. subst b.
    repeat split; try lia. left. exists a. split; [reflexivity | lia].
  - intros (hs & m1 & m2 & Hs & H1 & H2
            & [(x & -> & Hx)|[(x & y & -> & _)|(x & -> & _)]]);
      try discriminate Hs.
    injection Hs as -> -> -> ->. lia.
  - intros H. exists [a; b], d, e.
    assert (c = 58%N) by lia. subst c.
    repeat split; try lia.
    destruct H as [H|H].
    + right. left. exists a, b. split; [reflexivity | lia].
    + right. right. exists b. assert (a = 50%N) by lia. subst a.
      split; [reflexivity | lia].
  - intros (hs & m1 & m2 & Hs & H1 & H2
            & [(x & -> & Hx)|[(x & y & -> & Hx)|(x & -> & Hx)]]);
      try discriminate Hs.
    + injection Hs as -> -> -> -> ->. left. lia.
    + injection Hs as -> -> -> ->. right. lia.
Qed.

Lemma isDigit_iff d : isDigit d = true <-> (48 <= d <= 57)%N.
Proof. unfold isDigit. now rewrite andb_true_iff, !N.leb_le. Qed.

Lemma Number_one d v :
  Number [d] = Some v <-> (48 <= d <= 57)%N /\ v = (Z.of_N d - 48)%Z.
Proof.
  unfold Number. cbn [digitsValue]. destruct (isDigit d) eqn:E.
  - apply isDigit_iff in E. split.
    + intros [= <-]. split; [exact E | lia].
    + intros [_ ->]. f_equal; lia.
  - split; [discriminate|]. intros [H _]. apply isDigit_iff in H. congruence.
Qed.

Lemma Number_two c d v :
  Number [c; d] = Some v <->
  (48 <= c <= 57)%N /\ (48 <= d <= 57)%N /\
  v = (10 * (Z.of_N c - 48) + (Z.of_N d - 48))%Z.
Proof.
  unfold Number. cbn [digitsValue].
  destruct (isDigit c) eqn:Ec; [destruct (isDigit d) eqn:Ed|].
  - apply isDigit_iff in Ec, Ed. split.
    + intros [= <-]. repeat split; try tauto; lia.
    + intros (_ & _ & ->). f_equal; lia.
  - split; [discriminate|]. intros (_ & H & _).
    apply isDigit_iff in H. congruence.
  - split; [discriminate|]. intros (H & _).
    apply isDigit_iff in H. congruence.
Qed.

Lemma isValidTimeFormat_digits time :
  isValidTimeFormat time = true <->
  exists hs ms h mi,
    time = hs ++ code ":" :: ms /\
    (length hs = 1 \/ length hs = 2) /\ length ms = 2 /\
    Number hs = Some h /\ Number ms = Some mi /\
    (h <= 23)%Z /\ (mi <= 59)%Z.
Proof.
  rewrite isValidTimeFormat_shape. change (code ":") with 58%N. split.
  - intros (hs & m1 & m2 & -> & H1 & H2 & Hh).
    exists hs, [m1; m2].
    destruct Hh as [(d & -> & Hd)|[(c & d & -> & Hc & Hd)|(d & -> & Hd)]].
    + exists (Z.of_N d - 48)%Z, (10 * (Z.of_N m1 - 48) + (Z.of_N m2 - 48))%Z.
      rewrite Number_one, Number_two. repeat split; auto; lia.
    + exists (10 * (Z.of_N c - 48) + (Z.of_N d - 48))%Z,
             (10 * (Z.of_N m1 - 48) + (Z.of_N m2 - 48))%Z.
      rewrite !Number_two. repeat split; auto; lia.
    + exists (10 * (Z.of_N 50 - 48) + (Z.of_N d - 48))%Z,
             (10 * (Z.of_N m1 - 48) + (Z.of_N m2 - 48))%Z.
      rewrite !Number_two. repeat split; auto; lia.
  - intros (hs & ms & h & mi & -> & Hl & Hlm & Hh & Hm & Hh23 & Hm59).
    destruct ms as [|m1 [|m2 [|? ?]]]; try discriminate Hlm.
    apply Number_two in Hm as (Hm1 & Hm2 & ->).
    exists hs, m1, m2. repeat split; try lia.
    destruct hs as [|c [|d [|? ?]]]; simpl in Hl; try lia.
    + apply Number_one in Hh as (Hc & ->). left. exists c. split; [reflexivity | lia].
    + apply Number_two in Hh as (Hc & Hd & ->).
      destruct (N.le_gt_cases c 49) as [Hle|Hgt].
      * right. left. exists c, d. split; [reflexivity | lia].
      * right. right. assert (c = 50%N) by lia. subst c.
        exists d. split; [reflexivity | lia].
Qed.

(** X17: the time format accepts exactly the strings made of an hour of
    one or two digits, a colon and a minute of two digits, with the
    hour at most 23 and the minute at most 59. *)
Theorem isValidTimeFormat_spec time :
  isValidTimeFormat time = true <->
  exists hs ms h mi,
    time = hs ++ code ":" :: ms /\
    (length hs = 1 \/ length hs = 2) /\ length ms = 2 /\
    Number hs = Some h /\ Number ms = Some mi /\
    (h <= 23)%Z /\ (mi <= 59)%Z.
Proof. apply isValidTimeFormat_digits. Qed.

(** ** Validation *)

Lemma num_lt_false a b :
  num_lt a b = false <-> forall x y, a = Some x -> b = Some y -> (y <= x)%Z.
Proof.
  unfold num_lt. destruct a as [x|], b as [y|]; split; try reflexivity;
    try (intros _ ? ? [=]; fail); try (intros _ ? ? ? [=]; fail).
  - intros H ? ? [= <-] [= <-]. apply Z.ltb_ge. exact H.
  - intros H. apply Z.ltb_ge. now apply H.
Qed.

Lemma out_of_range_false n lo hi :
  num_lt n (Some lo) || num_lt (Some hi) n = false <->
  forall x, n = Some x -> (lo <= x <= hi)%Z.
Proof.
  rewrite orb_false_iff, !num_lt_false. split.
  - intros [H1 H2] x ->. split; [now apply (H1 x lo) | now apply (H2 hi x)].
  - intros H. split; intros x y E1 E2.
    + injection E2 as <-. now apply H.
    + injection E1 as <-. now apply H.
Qed.

Lemma validateSettings_valid_iff settings :
  (valid (validateSettings settings) = true <->
   errors (validateSettings settings) = []) /\
  (valid (validateSettings settings) = true <->
   (forall n, updateInterval settings = Some n -> (5 <= n <= 360)%Z) /\
   In (aiModel settings) validModels /\
   categories settings <> [] /\
   (forall n, minImportanceScore settings = Some n -> (1 <= n <= 10)%Z) /\
   (autoSummarize settings = true ->
    isValidTimeFormat (summarizeTime settings) = true) /\
   (forall n, maxDaysToKeep settings = Some n -> (1 <= n <= 365)%Z)).
Proof.
  unfold validateSettings. cbv zeta. cbn [valid errors].
  rewrite <- !out_of_range_false.
  set (t1 := num_lt (updateInterval settings) (Some 5%Z) || _).
  set (t2 := negb (existsb (streq (aiModel settings)) validModels)).
  set (t3 := Nat.eqb (length (categories settings)) 0).
  set (t4 := num_lt (minImportanceScore settings) (Some 1%Z) || _).
  set (t5 := autoSummarize settings && _).
  set (t6 := num_lt (maxDaysToKeep settings) (Some 1%Z) || _).
  assert (H2 : t2 = false <-> In (aiModel settings) validModels).
  { unfold t2. rewrite negb_false_iff, existsb_exists. split.
    - intros (x & Hin & Hx). apply streq_eq in Hx. now subst.
    - intros H. exists (aiModel settings). split; [exact H | apply streq_refl]. }
  assert (H3 : t3 = false <-> categories settings <> []).
  { unfold t3. destruct (categories settings); simpl; split;
      congruence. }
  assert (H5 : t5 = false <->
               (autoSummarize settings = true ->
                isValidTimeFormat (summarizeTime settings) = true)).
  { unfold t5. destruct (autoSummarize settings),
      (isValidTimeFormat (summarizeTime settings)); simpl; split;
      try congruence; try tauto. intros H. discriminate (H eq_refl). }
  rewrite <- H2, <- H3, <- H5.
  destruct t1, t2, t3, t4, t5, t6; cbn; split; split;
    intuition (try discriminate; try congruence).
Qed.

(** X18: the settings are valid exactly when no error is reported, and
    that is when every number that is a number lies in its range (5 to
    360 minutes, 1 to 10, 1 to 365 days), the model is one of the four
    known ones, there is a category, and the summary time has the time
    format when summaries are on. A NaN is not reported. *)
Theorem validateSettings_spec settings :
  (valid (validateSettings settings) = true <->
   errors (validateSettings settings) = []) /\
  (valid (validateSettings settings) = true <->
   (forall n, updateInterval settings = Some n -> (5 <= n <= 360)%Z) /\
   In (aiModel settings) validModels /\
   categories settings <> [] /\
   (forall n, minImportanceScore settings = Some n -> (1 <= n <= 10)%Z) /\
   (autoSummarize settings = true ->
    isValidTimeFormat (summarizeTime settings) = true) /\
   (forall n, maxDaysToKeep settings = Some n -> (1 <= n <= 365)%Z)).
Proof. apply validateSettings_valid_iff. Qed.

(** ** The schedule *)

Section ScheduleFacts.

Variable LocalTZA : Z -> bool -> Z.
Variable off : Z.
Hypothesis Hzone : forall t b, LocalTZA t b = off.

(** X19: on a host whose zone keeps one offset, with valid settings
    and summaries on, and a now at least two days inside the range of
    valid dates, the next summary time is the configured hour and
    minute, seconds zero, at the first such moment strictly after now:
    later than now and at most a day later. *)
Theorem getNextSummaryTime_spec t settings :
  valid (validateSettings settings) = true ->
  autoSummarize settings = true ->
  (Z.abs t + 2 * msPerDay <= 8640000000000000)%Z ->
  exists hs ms h mi t',
    summarizeTime settings = hs ++ code ":" :: ms /\
    Number hs = Some h /\ Number ms = Some mi /\
    getNextSummaryTime LocalTZA (Some t) settings = Some (Some t') /\
    (t < t' <= t + msPerDay)%Z /\
    getHours LocalTZA t' = h /\ getMinutes LocalTZA t' = mi /\
    getSeconds LocalTZA t' = 0%Z /\ getMilliseconds LocalTZA t' = 0%Z.
Proof.
  intros Hvalid Hauto Hr.
  apply (proj2 (validateSettings_valid_iff settings)) in Hvalid
    as (_ & _ & _ & _ & Hvalid & _).
  specialize (Hvalid Hauto).
  apply isValidTimeFormat_digits in Hvalid
    as (hs & ms & h & mi & Htime & _ & _ & Hh & Hm & Hh23 & Hm59).
  exists hs, ms, h, mi.
  destruct (parseTimeOnly_overlay LocalTZA off hs ms h mi t Hzone Hh Hm)
    as (t1 & Hset & Hb & Hd & Hhr & Hmin & Hsec & Hms);
    try lia; try (unfold msPerDay in *; lia).
  unfold parseTimeOnly in Hset. rewrite <- Htime in Hset.
  unfold getNextSummaryTime. rewrite Hauto. cbn [negb]. rewrite Hset.
  unfold date_le. destruct (Z.leb_spec t1 t) as [Hle|Hgt].
  - rewrite (setDate_tomorrow LocalTZA off t1 Hzone)
      by (unfold msPerDay in *; lia).
    exists (t1 + msPerDay)%Z.
    destruct (clock_next_day LocalTZA off t1 Hzone) as (-> & -> & -> & ->).
    repeat split; auto; unfold msPerDay in *; lia.
  - exists t1. repeat split; auto; unfold msPerDay in *; lia.
Qed.

End ScheduleFacts.

(** X20: with valid settings and a now at least six hours inside the
    range of valid dates, an update interval that is a number puts the
    next run that many minutes after now, between five minutes and six
    hours later; an interval that is NaN passes validation and gives an
    invalid date. *)
Theorem getNextRunTime_spec t settings :
  valid (validateSettings settings) = true ->
  (Z.abs t + 21600000 <= 8640000000000000)%Z ->
  (forall n,
     updateInterval settings = Some n ->
     getNextRunTime (Some t) settings = Some (t + n * 60000)%Z /\
     (t + 300000 <= t + n * 60000 <= t + 21600000)%Z) /\
  (updateInterval settings = None ->
   getNextRunTime (Some t) settings = None).
Proof.
  intros Hvalid Hr.
  apply (proj2 (validateSettings_valid_iff settings)) in Hvalid
    as (Hint & _).
  split.
  - intros n Hn. specialize (Hint n Hn).
    unfold getNextRunTime, getTime, dateOfNumber, num_add, num_mul.
    rewrite Hn. unfold TimeClip.
    replace (t + n * 60 * 1000)%Z with (t + n * 60000)%Z by lia.
    destruct (Z.leb_spec (Z.abs (t + n * 60000)) 8640000000000000);
      [split; [reflexivity | lia] | lia].
  - intros Hn. unfold getNextRunTime. now rewrite Hn.
Qed.

Lemma split_without_separator sep s :
  (forall c, In c s -> c <> sep) -> split sep s = [s].
Proof.
  induction s as [|c s IH]; intros H; simpl; [reflexivity|].
  destruct (N.eqb_spec c sep) as [E|E].
  - exfalso. apply (H c); [now left | exact E].
  - rewrite IH; [reflexivity|]. intros c' Hc'. apply H. now right.
Qed.

(** X29: a summary time without a colon, with summaries on, is rejected
    by validation, but the schedule does not validate: the minutes are
    then missing, and the next summary time is an invalid date, not
    null. *)
Theorem getNextSummaryTime_without_colon LocalTZA now settings :
  autoSummarize settings = true ->
  (forall c, In c (summarizeTime settings) -> c <> code ":") ->
  valid (validateSettings settings) = false /\
  getNextSummaryTime LocalTZA now settings = Some None.
Proof.
  intros Ha Hc. split.
  - destruct (valid (validateSettings settings)) eqn:Ev; [|reflexivity].
    apply (proj2 (validateSettings_valid_iff settings)) in Ev
      as (_ & _ & _ & _ & Ht & _).
    apply Ht, isValidTimeFormat_digits in Ha
      as (hs & ms & h & mi & E & _).
    exfalso. apply (Hc (code ":")); [|reflexivity].
    rewrite E. apply in_or_app. right. now left.
  - unfold getNextSummaryTime. rewrite Ha. cbn [negb].
    rewrite (split_without_separator _ _ Hc). cbn [map nth].
    assert (Hs : setHours LocalTZA now (Number (summarizeTime settings))
                   None (Some 0%Z) (Some 0%Z) = None).
    { unfold setHours. destruct now; [|reflexivity].
      now destruct (Number (summarizeTime settings)). }
    rewrite Hs. reflexivity.
Qed.

(* ================================================================== *)
(** * The daily summary: properties *)
(* ================================================================== *)

Lemma replaceAt_length {A : Type} i (x : A) l :
  length (replaceAt i x l) = length l.
Proof.
  revert i. induction l as [|y l IH]; intros [|i]; simpl; auto.
Qed.

Lemma nth_error_replaceAt_same {A : Type} i (x y : A) l :
  nth_error l i = Some y -> nth_error (replaceAt i x l) i = Some x.
Proof.
  revert i. induction l as [|z l IH]; intros [|i]; simpl; try discriminate; auto.
Qed.

Lemma nth_error_replaceAt_other {A : Type} i j (x : A) l :
  i <> j -> nth_error (replaceAt i x l) j = nth_error l j.
Proof.
  revert i j. induction l as [|z l IH]; intros [|i] [|j] H; simpl; auto;
    congruence.
Qed.

Lemma total_replaceAt count i x entry l :
  nth_error l i = Some entry ->
  total count (replaceAt i x l) = (total count l - count entry + count x)%Z.
Proof.
  revert i. induction l as [|z l IH]; intros [|i]; simpl; try discriminate.
  - intros [= ->]. lia.
  - intros H. rewrite (IH _ H). lia.
Qed.

Lemma tabulated_initial : tabulated (fun _ => 0%Z) (fun _ => 0%Z) initialDistribution.
Proof.
  split; [reflexivity|]. intros i Hi.
  do 24 (destruct i as [|i]; [reflexivity|]). lia.
Qed.

Lemma tabulated_ext cm ct cm' ct' d :
  (forall i, i < 24 -> cm i = cm' i) ->
  (forall i, i < 24 -> ct i = ct' i) ->
  tabulated cm ct d -> tabulated cm' ct' d.
Proof.
  intros Hm Ht [Hlen Hd]. split; [exact Hlen|].
  intros i Hi. rewrite (Hd i Hi), (Hm i Hi), (Ht i Hi). reflexivity.
Qed.

Lemma HourFromTime_range t : (0 <= HourFromTime t < 24)%Z.
Proof. unfold HourFromTime. apply Z.mod_pos_bound. lia. Qed.

Lemma increment_NaN bump d : increment bump d None = Throw.
Proof. reflexivity. Qed.

(** One message more in the hour [h]. *)
Lemma increment_messageCount cm ct d h :
  (0 <= h < 24)%Z ->
  tabulated cm ct d ->
  exists d',
    increment messageCountUp d (Some h) = Normal d' /\
    tabulated (fun i => if (Z.of_nat i =? h)%Z then (cm i + 1)%Z else cm i) ct d' /\
    total TimeDistribution.messageCount d' =
      (total TimeDistribution.messageCount d + 1)%Z /\
    total TimeDistribution.topicCount d' = total TimeDistribution.topicCount d.
Proof.
  intros Hh [Hlen Hd].
  assert (Hk : Z.to_nat h < 24) by lia.
  pose proof (Hd _ Hk) as He. rewrite Z2Nat.id in He by lia.
  unfold increment, entryAt.
  destruct (Z.leb_spec 0 h); [|lia]. rewrite He.
  eexists. split; [reflexivity|]. split; [split|split].
  - rewrite replaceAt_length. exact Hlen.
  - intros i Hi. destruct (Z.eqb_spec (Z.of_nat i) h) as [E|E].
    + assert (i = Z.to_nat h) by lia. subst i.
      rewrite (nth_error_replaceAt_same _ _ _ _ (Hd _ Hk)).
      unfold messageCountUp. cbn. now rewrite Z2Nat.id by lia.
    + rewrite nth_error_replaceAt_other by lia. apply Hd, Hi.
  - rewrite (total_replaceAt _ _ _ _ _ (Hd _ Hk)). cbn. lia.
  - rewrite (total_replaceAt _ _ _ _ _ (Hd _ Hk)). cbn. lia.
Qed.

(** One topic more in the hour [h]. *)
Lemma increment_topicCount cm ct d h :
  (0 <= h < 24)%Z ->
  tabulated cm ct d ->
  exists d',
    increment topicCountUp d (Some h) = Normal d' /\
    tabulated cm (fun i => if (Z.of_nat i =? h)%Z then (ct i + 1)%Z else ct i) d' /\
    total TimeDistribution.messageCount d' =
      total TimeDistribution.messageCount d /\
    total TimeDistribution.topicCount d' =
      (total TimeDistribution.topicCount d + 1)%Z.
Proof.
  intros Hh [Hlen Hd].
  assert (Hk : Z.to_nat h < 24) by lia.
  pose proof (Hd _ Hk) as He. rewrite Z2Nat.id in He by lia.
  unfold increment, entryAt.
  destruct (Z.leb_spec 0 h); [|lia]. rewrite He.
  eexists. split; [reflexivity|]. split; [split|split].
  - rewrite replaceAt_length. exact Hlen.
  - intros i Hi. destruct (Z.eqb_spec (Z.of_nat i) h) as [E|E].
    + assert (i = Z.to_nat h) by lia. subst i.
      rewrite (nth_error_replaceAt_same _ _ _ _ (Hd _ Hk)).
      unfold topicCountUp. cbn. now rewrite Z2Nat.id by lia.
    + rewrite nth_error_replaceAt_other by lia. apply Hd, Hi.
  - rewrite (total_replaceAt _ _ _ _ _ (Hd _ Hk)). cbn. lia.
  - rewrite (total_replaceAt _ _ _ _ _ (Hd _ Hk)). cbn. lia.
Qed.

Lemma Importance_ge_true x n :
  Importance.ge x n = true <-> QArith_base.Qle (Importance.ofZ n) x.
Proof. apply QArith_base.Qle_bool_iff. Qed.

Lemma Importance_ge_false x n :
  Importance.ge x n = false <-> QArith_base.Qlt x (Importance.ofZ n).
Proof.
  unfold Importance.ge, Importance.ofZ. split.
  - intros H. apply QArith_base.Qnot_le_lt. intros Hle.
    apply QArith_base.Qle_bool_iff in Hle. congruence.
  - intros H. destruct (QArith_base.Qle_bool _ _) eqn:E; [|reflexivity].
    apply QArith_base.Qle_bool_iff in E.
    exfalso. exact (QArith_base.Qlt_not_le _ _ H E).
Qed.

Section DailySummaryFacts.

Variable LocalTZA : Z -> bool -> Z.
Variable toLowerCase : jsstring -> jsstring.
Variable parseDate : jsstring -> Date.

Abbreviation hoursOf := (hoursOf LocalTZA).
Abbreviation inHour := (inHour LocalTZA).
Abbreviation messagesAt := (messagesAt LocalTZA).
Abbreviation topicsAt := (topicsAt LocalTZA parseDate).
Abbreviation countMessages := (countMessages LocalTZA).
Abbreviation countTopics := (countTopics LocalTZA parseDate).
Abbreviation calculateTimeDistribution :=
  (calculateTimeDistribution LocalTZA parseDate).
Abbreviation isActionPoint := (isActionPoint toLowerCase).
Abbreviation actionItem := (actionItem parseDate).
Abbreviation pushActionItems := (pushActionItems toLowerCase parseDate).
Abbreviation extractActionItemsInto :=
  (extractActionItemsInto toLowerCase parseDate).
Abbreviation extractActionItemsFromTopics :=
  (extractActionItemsFromTopics toLowerCase parseDate).

(** The action points of a topic, none when it requires no action. *)
Abbreviation actionPoints :=
  (fun topic : Topic.t =>
     if Topic.actionRequired topic
     then filter isActionPoint (Topic.keyPoints topic)
     else []).

Lemma getHours_range t : (0 <= getHours LocalTZA t < 24)%Z.
Proof. apply HourFromTime_range. Qed.

Lemma pushActionItems_app topic points acc :
  pushActionItems topic points acc =
  acc ++ map (actionItem topic) (filter isActionPoint points).
Proof.
  revert acc. induction points as [|point rest IH]; intros acc; simpl.
  - now rewrite app_nil_r.
  - rewrite IH. destruct (isActionPoint point); [|reflexivity].
    now rewrite <- app_assoc.
Qed.

Lemma extractActionItemsInto_app topics acc :
  extractActionItemsInto topics acc =
  acc ++ flat_map (fun topic => map (actionItem topic) (actionPoints topic))
           topics.
Proof.
  revert acc. induction topics as [|topic rest IH]; intros acc; simpl.
  - now rewrite app_nil_r.
  - rewrite IH. destruct (Topic.actionRequired topic); [|reflexivity].
    rewrite pushActionItems_app. now rewrite <- app_assoc.
Qed.

Lemma isActionPoint_keyword point :
  isActionPoint point = true <->
  exists keyword,
    In keyword actionKeywords /\
    includes (toLowerCase point) keyword = true.
Proof.
  unfold isActionPoint, actionKeywords. split.
  - intros H. repeat (apply orb_true_iff in H; destruct H as [H|H]);
      eexists; (split; [|exact H]); simpl; tauto.
  - intros (keyword & Hin & H). simpl in Hin.
    destruct Hin as [<-|[<-|[<-|[<-|[]]]]]; rewrite H;
      rewrite ?orb_true_r; reflexivity.
Qed.

Lemma extractActionItems_In item topics :
  In item (extractActionItemsFromTopics topics) <->
  exists topic point,
    In topic topics /\ Topic.actionRequired topic = true /\
    In point (Topic.keyPoints topic) /\ isActionPoint point = true /\
    item = actionItem topic point.
Proof.
  unfold extractActionItemsFromTopics.
  rewrite extractActionItemsInto_app. simpl. rewrite in_flat_map. split.
  - intros (topic & Hin & H). apply in_map_iff in H as (point & <- & H).
    destruct (Topic.actionRequired topic) eqn:Ea; [|destruct H].
    apply filter_In in H as (Hp & Hk). now exists topic, point.
  - intros (topic & point & Hin & Ea & Hp & Hk & ->).
    exists topic. split; [exact Hin|]. apply in_map. rewrite Ea.
    apply filter_In. now split.
Qed.

(** X21: the action items are the objects built from the action-required
    topics and those of their key points that contain, whatever the
    case, one of the four keywords; nothing else is an action item. *)
Theorem extractActionItemsFromTopics_spec item topics :
  In item (extractActionItemsFromTopics topics) <->
  exists topic point keyword,
    In topic topics /\ Topic.actionRequired topic = true /\
    In point (Topic.keyPoints topic) /\
    In keyword actionKeywords /\
    includes (toLowerCase point) keyword = true /\
    item = actionItem topic point.
Proof.
  rewrite extractActionItems_In. split.
  - intros (topic & point & Hin & Ea & Hp & Hk & ->).
    apply isActionPoint_keyword in Hk as (keyword & Hkw & Hk).
    now exists topic, point, keyword.
  - intros (topic & point & keyword & Hin & Ea & Hp & Hkw & Hk & ->).
    exists topic, point. repeat (split; [assumption|]). split; [|reflexivity].
    apply isActionPoint_keyword. now exists keyword.
Qed.

(** X22: the tasks of the action items are, in order, the action points
    of the topics in the order of the topics; a topic that requires no
    action contributes none. *)
Theorem action_items_in_order topics :
  map ActionItem.task (extractActionItemsFromTopics topics) =
  flat_map actionPoints topics.
Proof.
  unfold extractActionItemsFromTopics.
  rewrite extractActionItemsInto_app. simpl.
  induction topics as [|topic rest IH]; simpl; [reflexivity|].
  rewrite map_app, IH. f_equal.
  rewrite map_map. simpl. apply map_id.
Qed.

(** X23: an action item is never assigned to the empty string and is
    never completed; it carries the title of an action-required topic
    that has its task among the key points; its priority is high from
    importance 8 on and low below 5; it has a deadline exactly when the
    topic's deadline is a non-empty string. *)
Theorem action_item_fields item topics :
  In item (extractActionItemsFromTopics topics) ->
  ActionItem.assignee item <> [] /\
  ActionItem.completed item = false /\
  exists topic,
    In topic topics /\ Topic.actionRequired topic = true /\
    ActionItem.topic item = Topic.title topic /\
    In (ActionItem.task item) (Topic.keyPoints topic) /\
    (ActionItem.priority item = high <->
     QArith_base.Qle (Importance.ofZ 8) (Topic.importance topic)) /\
    (ActionItem.priority item = low <->
     QArith_base.Qlt (Topic.importance topic) (Importance.ofZ 5)) /\
    (ActionItem.deadline item = None <->
     Topic.deadline topic = None \/ Topic.deadline topic = Some []).
Proof.
  intros H. apply extractActionItems_In in H
    as (topic & point & Hin & Ea & Hp & Hk & ->).
  unfold actionItem. cbn [ActionItem.assignee ActionItem.completed
    ActionItem.topic ActionItem.task ActionItem.priority ActionItem.deadline].
  split; [|split; [reflexivity|]].
  - destruct (Topic.participants topic) as [|[|c first] others];
      cbn; discriminate.
  - exists topic. repeat (split; [assumption || reflexivity|]).
    split; [|split].
    + rewrite <- Importance_ge_true.
      destruct (Importance.ge (Topic.importance topic) 8);
        [tauto|].
      destruct (Importance.ge (Topic.importance topic) 5);
        split; discriminate.
    + rewrite <- Importance_ge_false.
      destruct (Importance.ge (Topic.importance topic) 8) eqn:E8.
      * split; [discriminate|]. intros E5. exfalso.
        apply Importance_ge_true in E8. apply Importance_ge_false in E5.
        apply (QArith_base.Qlt_not_le _ _ E5).
        eapply QArith_base.Qle_trans; [|exact E8]. discriminate.
      * destruct (Importance.ge (Topic.importance topic) 5);
          split; try discriminate; reflexivity.
    + destruct (Topic.deadline topic) as [[|c s]|]; cbn.
      * split; [now right | reflexivity].
      * split; [discriminate | intros [|]; discriminate].
      * split; [now left | reflexivity].
Qed.

(** The first loop of [calculateTimeDistribution]. *)
Lemma countMessages_spec messages :
  forall cm ct d,
    tabulated cm ct d ->
    match countMessages messages d with
    | Normal d' =>
        Forall (fun msg => timestamp msg <> None) messages /\
        tabulated
          (fun i => (cm i + Z.of_nat (length (messagesAt (Z.of_nat i) messages)))%Z)
          ct d' /\
        total TimeDistribution.messageCount d' =
          (total TimeDistribution.messageCount d + Z.of_nat (length messages))%Z /\
        total TimeDistribution.topicCount d' =
          total TimeDistribution.topicCount d
    | Throw => exists msg, In msg messages /\ timestamp msg = None
    end.
Proof.
  induction messages as [|msg rest IH]; intros cm ct d Hd.
  - cbn. split; [constructor|]. split; [|split; [lia | reflexivity]].
    eapply tabulated_ext; [| |exact Hd]; intros; cbn; lia.
  - cbn [countMessages bind].
    destruct (timestamp msg) as [t|] eqn:Et.
    + cbn [hoursOf].
      destruct (increment_messageCount cm ct d _ (getHours_range t) Hd)
        as (d1 & -> & Hd1 & Hm1 & Ht1).
      cbn [bind]. specialize (IH _ _ _ Hd1).
      destruct (countMessages rest d1) as [d'|].
      * destruct IH as (Hall & Hd' & Hm & Ht).
        split; [constructor; [congruence | exact Hall]|].
        split; [|split].
        -- eapply tabulated_ext; [| |exact Hd']; [|reflexivity].
           intros i Hi. cbn beta. unfold messagesAt.
           cbn [filter]. rewrite Et. cbn [inHour].
           rewrite (Z.eqb_sym (getHours LocalTZA t)).
           destruct (Z.of_nat i =? getHours LocalTZA t)%Z; cbn [length]; lia.
        -- rewrite Hm, Hm1. cbn [length]. lia.
        -- congruence.
      * destruct IH as (m & Hin & Hm). exists m. split; [now right | exact Hm].
    + cbn. exists msg. split; [now left | exact Et].
Qed.

(** The second loop of [calculateTimeDistribution]. *)
Lemma countTopics_spec topics :
  forall cm ct d,
    tabulated cm ct d ->
    match countTopics topics d with
    | Normal d' =>
        Forall (fun topic => parseDate (Topic.timestamp topic) <> None) topics /\
        tabulated cm
          (fun i => (ct i + Z.of_nat (length (topicsAt (Z.of_nat i) topics)))%Z)
          d' /\
        total TimeDistribution.messageCount d' =
          total TimeDistribution.messageCount d /\
        total TimeDistribution.topicCount d' =
          (total TimeDistribution.topicCount d + Z.of_nat (length topics))%Z
    | Throw =>
        exists topic,
          In topic topics /\ parseDate (Topic.timestamp topic) = None
    end.
Proof.
  induction topics as [|topic rest IH]; intros cm ct d Hd.
  - cbn. split; [constructor|]. split; [|split; [reflexivity | lia]].
    eapply tabulated_ext; [| |exact Hd]; intros; cbn; lia.
  - cbn [countTopics bind].
    destruct (parseDate (Topic.timestamp topic)) as [t|] eqn:Et.
    + cbn [hoursOf].
      destruct (increment_topicCount cm ct d _ (getHours_range t) Hd)
        as (d1 & -> & Hd1 & Hm1 & Ht1).
      cbn [bind]. specialize (IH _ _ _ Hd1).
      destruct (countTopics rest d1) as [d'|].
      * destruct IH as (Hall & Hd' & Hm & Ht).
        split; [constructor; [congruence | exact Hall]|].
        split; [|split].
        -- eapply tabulated_ext; [| |exact Hd']; [reflexivity|].
           intros i Hi. cbn beta. unfold topicsAt.
           cbn [filter]. rewrite Et. cbn [inHour].
           rewrite (Z.eqb_sym (getHours LocalTZA t)).
           destruct (Z.of_nat i =? getHours LocalTZA t)%Z; cbn [length]; lia.
        -- congruence.
        -- rewrite Ht, Ht1. cbn [length]. lia.
      * destruct IH as (m & Hin & Hm). exists m. split; [now right | exact Hm].
    + cbn. exists topic. split; [now left | exact Et].
Qed.

(** Both loops. *)
Lemma calculateTimeDistribution_cases messages topics :
  match calculateTimeDistribution messages topics with
  | Normal d =>
      Forall (fun msg => timestamp msg <> None) messages /\
      Forall (fun topic => parseDate (Topic.timestamp topic) <> None) topics /\
      tabulated
        (fun i => Z.of_nat (length (messagesAt (Z.of_nat i) messages)))
        (fun i => Z.of_nat (length (topicsAt (Z.of_nat i) topics))) d /\
      total TimeDistribution.messageCount d = Z.of_nat (length messages) /\
      total TimeDistribution.topicCount d = Z.of_nat (length topics)
  | Throw =>
      (exists msg, In msg messages /\ timestamp msg = None) \/
      (exists topic,
         In topic topics /\ parseDate (Topic.timestamp topic) = None)
  end.
Proof.
  unfold calculateTimeDistribution.
  pose proof (countMessages_spec messages _ _ _ tabulated_initial) as Hm.
  destruct (countMessages messages initialDistribution) as [d1|];
    cbn [bind]; [|now left].
  destruct Hm as (Hall & Hd1 & Hm1 & Ht1).
  pose proof (countTopics_spec topics _ _ _ Hd1) as Ht.
  destruct (countTopics topics d1) as [d|]; [|now right].
  destruct Ht as (Hallt & Hd & Hm & Ht).
  split; [exact Hall|]. split; [exact Hallt|]. split; [|split].
  - eapply tabulated_ext; [| |exact Hd]; intros; cbn; lia.
  - rewrite Hm, Hm1. reflexivity.
  - rewrite Ht, Ht1. reflexivity.
Qed.

(** X24: the time distribution throws exactly when a message has an
    invalid timestamp or a topic's timestamp does not parse to a date;
    otherwise it returns. *)
Theorem calculateTimeDistribution_throws messages topics :
  calculateTimeDistribution messages topics = Throw <->
  (exists msg, In msg messages /\ timestamp msg = None) \/
  (exists topic, In topic topics /\ parseDate (Topic.timestamp topic) = None).
Proof.
  pose proof (calculateTimeDistribution_cases messages topics) as H.
  destruct (calculateTimeDistribution messages topics) as [d|].
  - destruct H as (Hm & Ht & _). split; [discriminate|].
    rewrite Forall_forall in Hm, Ht.
    intros [(msg & Hin & E)|(topic & Hin & E)]; exfalso.
    + exact (Hm _ Hin E).
    + exact (Ht _ Hin E).
  - tauto.
Qed.

(** X25: a returned distribution has one entry for each hour 0 to 23,
    in order; the entry of an hour counts the messages whose timestamp
    falls in that local hour, and the topics whose parsed timestamp
    does. *)
Theorem calculateTimeDistribution_counts messages topics distribution :
  calculateTimeDistribution messages topics = Normal distribution ->
  length distribution = 24 /\
  forall h,
    (0 <= h < 24)%Z ->
    nth_error distribution (Z.to_nat h) =
      Some (TimeDistribution.mk h
              (Z.of_nat (length (messagesAt h messages)))
              (Z.of_nat (length (topicsAt h topics)))).
Proof.
  intros E. pose proof (calculateTimeDistribution_cases messages topics) as H.
  rewrite E in H. destruct H as (_ & _ & (Hlen & Hd) & _).
  split; [exact Hlen|]. intros h Hh.
  rewrite (Hd (Z.to_nat h)) by lia. now rewrite Z2Nat.id by lia.
Qed.

(** X26: in a returned distribution the message counts add up to the
    number of messages and the topic counts to the number of topics. *)
Theorem calculateTimeDistribution_totals messages topics distribution :
  calculateTimeDistribution messages topics = Normal distribution ->
  total TimeDistribution.messageCount distribution =
    Z.of_nat (length messages) /\
  total TimeDistribution.topicCount distribution =
    Z.of_nat (length topics).
Proof.
  intros E. pose proof (calculateTimeDistribution_cases messages topics) as H.
  rewrite E in H. tauto.
Qed.

End DailySummaryFacts.

(** ** Topics by category *)

Lemma positive_minus a b :
  Importance.positive (Importance.minus b a) = true <-> QArith_base.Qlt a b.
Proof.
  unfold Importance.positive, Importance.minus.
  rewrite negb_true_iff. split.
  - intros H. apply QArith_base.Qnot_le_lt. intros Hle.
    assert (E : QArith_base.Qle_bool (QArith_base.Qminus b a)
                  (QArith_base.inject_Z 0) = true).
    { apply QArith_base.Qle_bool_iff. unfold QArith_base.inject_Z. Lqa.lra. }
    congruence.
  - intros H. destruct (QArith_base.Qle_bool _ _) eqn:E; [|reflexivity].
    apply QArith_base.Qle_bool_iff in E.
    unfold QArith_base.inject_Z in E. Lqa.lra.
Qed.

Lemma positive_minus_false a b :
  Importance.positive (Importance.minus b a) = false <-> QArith_base.Qle b a.
Proof.
  split.
  - intros H. apply QArith_base.Qnot_lt_le. intros Hlt.
    apply positive_minus in Hlt. congruence.
  - intros H. destruct (Importance.positive _) eqn:E; [|reflexivity].
    apply positive_minus in E. exfalso.
    exact (QArith_base.Qlt_not_le _ _ E H).
Qed.

Lemma insertSorted_Permutation x sorted :
  Permutation.Permutation (insertSorted byImportance x sorted) (x :: sorted).
Proof.
  induction sorted as [|y rest IH]; simpl.
  - apply Permutation.Permutation_refl.
  - destruct (Importance.positive (byImportance x y)).
    + eapply Permutation.perm_trans;
        [apply Permutation.perm_skip, IH | apply Permutation.perm_swap].
    + apply Permutation.Permutation_refl.
Qed.

Lemma sort_Permutation array :
  Permutation.Permutation (sort byImportance array) array.
Proof.
  induction array as [|x rest IH]; simpl.
  - apply Permutation.perm_nil.
  - eapply Permutation.perm_trans; [apply insertSorted_Permutation|].
    apply Permutation.perm_skip, IH.
Qed.

Lemma insertSorted_sorted x sorted :
  Sorted.StronglySorted descending sorted ->
  Sorted.StronglySorted descending (insertSorted byImportance x sorted).
Proof.
  induction sorted as [|y rest IH]; intros Hs; simpl.
  - constructor; constructor.
  - apply Sorted.StronglySorted_inv in Hs as [Hrest Hy].
    destruct (Importance.positive (byImportance x y)) eqn:E.
    + apply positive_minus in E. constructor; [apply IH, Hrest|].
      eapply Permutation.Permutation_Forall;
        [apply Permutation.Permutation_sym, insertSorted_Permutation|].
      constructor; [|exact Hy].
      unfold descending. apply QArith_base.Qlt_le_weak, E.
    + apply positive_minus_false in E.
      constructor; [constructor; assumption|].
      constructor; [exact E|].
      eapply Forall_impl; [|exact Hy]. unfold descending. intros z Hz.
      eapply QArith_base.Qle_trans; [exact Hz | exact E].
Qed.

Lemma sort_sorted array :
  Sorted.StronglySorted descending (sort byImportance array).
Proof.
  induction array as [|x rest IH]; simpl.
  - constructor.
  - apply insertSorted_sorted, IH.
Qed.

(** Insertion does not reorder topics of one importance. *)
Lemma insertSorted_stable q x sorted :
  filter (ofImportance q) (insertSorted byImportance x sorted) =
  filter (ofImportance q) (x :: sorted).
Proof.
  induction sorted as [|y rest IH]; [reflexivity|].
  cbn [insertSorted].
  destruct (Importance.positive (byImportance x y)) eqn:E; [|reflexivity].
  apply positive_minus in E.
  cbn [filter] in *. rewrite IH.
  destruct (ofImportance q x) eqn:Ex, (ofImportance q y) eqn:Ey;
    try reflexivity.
  unfold ofImportance in Ex, Ey.
  apply QArith_base.Qeq_bool_iff in Ex, Ey. exfalso. Lqa.lra.
Qed.

Lemma sort_stable q array :
  filter (ofImportance q) (sort byImportance array) =
  filter (ofImportance q) array.
Proof.
  induction array as [|x rest IH]; [reflexivity|].
  cbn [sort fold_right]. fold (sort byImportance rest).
  rewrite insertSorted_stable. cbn [filter]. now rewrite IH.
Qed.

Lemma set_in_place (done rest : JSMap.t (list Topic.t)) k v v0 :
  ~ In k (JSMap.keys done) ->
  JSMap.set k v (done ++ (k, v0) :: rest) = done ++ (k, v) :: rest.
Proof.
  induction done as [|[k' v'] done IH]; simpl; intros Hk.
  - now rewrite streq_refl.
  - assert (E : streq k k' = false) by (apply streq_neq; intuition congruence).
    rewrite E, IH by tauto. reflexivity.
Qed.

(** The second loop sorts every group where it stands. *)
Lemma sortGroups_map rest :
  forall done,
    NoDup (JSMap.keys (done ++ rest)) ->
    sortGroups rest (done ++ rest) =
    done ++ map (fun e => (fst e, sort byImportance (snd e))) rest.
Proof.
  induction rest as [|[k v] rest IH]; intros done Hnd; simpl.
  - reflexivity.
  - assert (Hk : ~ In k (JSMap.keys done)).
    { unfold JSMap.keys in *. rewrite map_app in Hnd. simpl in Hnd.
      apply NoDup_remove_2 in Hnd. intros Hin. apply Hnd.
      apply in_or_app. now left. }
    rewrite set_in_place by exact Hk.
    replace (done ++ (k, sort byImportance v) :: rest)
      with ((done ++ [(k, sort byImportance v)]) ++ rest)
      by (now rewrite <- app_assoc).
    rewrite IH.
    + now rewrite <- app_assoc.
    + unfold JSMap.keys in *. rewrite <- app_assoc. simpl.
      rewrite map_app in *. simpl in *. exact Hnd.
Qed.

Lemma get_map_sort c (grouped : JSMap.t (list Topic.t)) :
  JSMap.get c (map (fun e => (fst e, sort byImportance (snd e))) grouped) =
  match JSMap.get c grouped with
  | Some group => Some (sort byImportance group)
  | None => None
  end.
Proof.
  induction grouped as [|[k v] grouped IH]; simpl; [reflexivity|].
  now destruct (streq c k).
Qed.

(** What [groupTopicsByCategory] returns. *)
Lemma groupTopicsByCategory_result topics :
  exists grouped,
    groupTopicsByCategory topics = Normal grouped /\
    JSMap.keys grouped = keysInOrder Topic.category topics /\
    forall c,
      JSMap.get c grouped =
      if existsb (fun topic => streq (Topic.category topic) c) topics
      then Some (sort byImportance
                   (filter (fun topic => streq (Topic.category topic) c) topics))
      else None.
Proof.
  destruct (groupInto_all Topic.category topics)
    as (g & Hg & Hkeys & Hget & _).
  unfold groupTopicsByCategory. rewrite Hg. cbn [bind].
  eexists. split; [reflexivity|].
  assert (Hnd : NoDup (JSMap.keys ([] ++ g))).
  { simpl. rewrite Hkeys. apply keysInOrder_NoDup. }
  pose proof (sortGroups_map g [] Hnd) as Hs. simpl in Hs. rewrite Hs.
  split.
  - unfold JSMap.keys in *. rewrite map_map. simpl. exact Hkeys.
  - intros c. rewrite get_map_sort, Hget.
    now destruct (existsb _ topics).
Qed.

(** X27: grouping topics never throws; the keys of the map are the
    categories of the topics, each once; under a category the map holds
    the topics of that category, all of them and no other, the more
    important first; a category without a topic has no entry. *)
Theorem groupTopicsByCategory_groups topics :
  exists grouped,
    groupTopicsByCategory topics = Normal grouped /\
    NoDup (JSMap.keys grouped) /\
    forall c,
      (In c (JSMap.keys grouped) <->
       exists topic, In topic topics /\ Topic.category topic = c) /\
      (JSMap.get c grouped = None <->
       forall topic, In topic topics -> Topic.category topic <> c) /\
      (forall group,
         JSMap.get c grouped = Some group ->
         group <> [] /\
         Permutation.Permutation group
           (filter (fun topic => streq (Topic.category topic) c) topics) /\
         Sorted.StronglySorted descending group).
Proof.
  destruct (groupTopicsByCategory_result topics) as (g & Hg & Hkeys & Hget).
  exists g. split; [exact Hg|]. rewrite Hkeys.
  split; [apply keysInOrder_NoDup|]. intros c.
  split; [apply keysInOrder_In|]. rewrite Hget.
  destruct (existsb (fun topic => streq (Topic.category topic) c) topics) eqn:E.
  - apply existsb_exists in E as (topic & Hin & Hc). apply streq_eq in Hc.
    split.
    + split; [discriminate|]. intros H. exfalso. exact (H topic Hin Hc).
    + intros group [= <-].
      pose proof (sort_Permutation
                    (filter (fun t => streq (Topic.category t) c) topics))
        as Hp.
      split; [|split; [exact Hp | apply sort_sorted]].
      intros Hnil. rewrite Hnil in Hp.
      apply Permutation.Permutation_nil in Hp.
      assert (Hf : In topic
                     (filter (fun t => streq (Topic.category t) c) topics)).
      { apply filter_In. split; [exact Hin|]. now apply streq_eq. }
      now rewrite Hp in Hf.
  - split; [|discriminate]. split; [|reflexivity].
    intros _ topic Hin Hc.
    assert (existsb (fun t => streq (Topic.category t) c) topics = true).
    { apply existsb_exists. exists topic. split; [exact Hin|].
      now apply streq_eq. }
    congruence.
Qed.

(** X28: the sort within a category is stable: the topics of one
    category and one importance stand in the group in their order in
    the input. *)
Theorem groupTopicsByCategory_stable topics grouped c group q :
  groupTopicsByCategory topics = Normal grouped ->
  JSMap.get c grouped = Some group ->
  filter (ofImportance q) group =
  filter (fun topic => streq (Topic.category topic) c && ofImportance q topic)
    topics.
Proof.
  intros Hg Hc.
  destruct (groupTopicsByCategory_result topics) as (g & Hg' & _ & Hget).
  assert (g = grouped) by congruence. subst g.
  rewrite Hget in Hc.
  destruct (existsb (fun topic => streq (Topic.category topic) c) topics);
    [|discriminate].
  injection Hc as <-. rewrite sort_stable.
  clear. induction topics as [|topic rest IH]; simpl; [reflexivity|].
  destruct (streq (Topic.category topic) c); simpl; rewrite IH; reflexivity.
Qed.


(* ================================================================== *)
(** * The rest of the code at work: concrete runs *)
(* ================================================================== *)


Lemma filterMessagesBySender_empty_name_witness :
  lowerLatin1 [] = [] /\
  filterMessagesBySender lowerLatin1 [alice1; bob1; alice2] [] =
    [alice1; bob1; alice2].
Proof.
  split; [reflexivity|].
  apply (filterMessagesBySender_empty_name lowerLatin1). reflexivity.
Defined.

Lemma group_within_sender_filter_witness :
  (forall msg,
     In msg [alice1; alice2] ->
     In msg (filterMessagesBySender lowerLatin1 [alice1; bob1; alice2]
               (u "Alice"))) /\
  filterMessagesBySender lowerLatin1 [alice1; alice2] (u "Alice") =
    [alice1; alice2].
Proof.
  apply (group_within_sender_filter lowerLatin1 [alice1; bob1; alice2]
           [(u "Alice", [alice1; alice2]); (u "Bob", [bob1])]);
    reflexivity.
Defined.



Lemma include_one_is_sender_filter_witness :
  filter (fun msg => shouldProcessSender lowerLatin1 (sender msg) onlyAlice)
    [alice1; bob1; alice2] =
  filterMessagesBySender lowerLatin1 [alice1; bob1; alice2] (u "alice").
Proof.
  apply (include_one_is_sender_filter lowerLatin1); reflexivity.
Defined.

Lemma empty_exclude_entry_blocks_all_witness :
  shouldProcessSender lowerLatin1 (u "Alice") blockAll = false.
Proof.
  apply (empty_exclude_entry_blocks_all lowerLatin1);
    [reflexivity | right; left; reflexivity].
Defined.



Lemma extractMessagesFromCaptures_again_witness :
  extractMessagesFromCaptures utcZone lowerLatin1 (fun _ => noon_2024_01_01)
    [helloCaptureParsed] = Normal [helloCaptureParsed].
Proof.
  apply (extractMessagesFromCaptures_again utcZone lowerLatin1
           (fun _ => noon_2024_01_01) [helloCapture] [helloCaptureParsed]).
  vm_compute. reflexivity.
Defined.

Lemma full_timestamp_first_fixes_dates_witness :
  parse noon_2024_01_01 helloInput = parse None helloInput.
Proof.
  apply (full_timestamp_first_fixes_dates utcZone lowerLatin1
           noon_2024_01_01 None helloInput []
           (u "[10:30, 1/1/2024] Alice: Hello") [u "how are you"]
           [Some (u "[10:30, 1/1/2024] Alice: Hello"); Some (u "10:30");
            Some (u "1/1/2024"); Some (u "Alice"); Some (u "Hello")]).
  - vm_compute. reflexivity.
  - constructor.
  - vm_compute. reflexivity.
Defined.

Lemma leading_unmatched_line_dropped_witness :
  parse noon_2024_01_01 (u "WhatsApp Web" ++ 10%N :: helloInput) =
  parse noon_2024_01_01 helloInput.
Proof.
  apply (leading_unmatched_line_dropped utcZone lowerLatin1).
  - intros c Hc Hnl. subst c. cbv in Hc.
    repeat (destruct Hc as [Hc | Hc]; [discriminate Hc|]). exact Hc.
  - right. vm_compute. reflexivity.
Defined.

Lemma at_most_one_message_per_matched_line_witness :
  length [helloMessage] <= length (filter isMatched (nonBlankLines helloInput)).
Proof.
  apply (at_most_one_message_per_matched_line utcZone lowerLatin1
           noon_2024_01_01 helloInput [helloMessage]).
  vm_compute. reflexivity.
Defined.

Lemma getNextSummaryTime_spec_witness :
  exists hs ms h mi t',
    summarizeTime DEFAULT_SETTINGS = hs ++ code ":" :: ms /\
    Number hs = Some h /\ Number ms = Some mi /\
    getNextSummaryTime utcZone (Some 1704110400000%Z) DEFAULT_SETTINGS =
      Some (Some t') /\
    (1704110400000 < t' <= 1704110400000 + msPerDay)%Z /\
    getHours utcZone t' = h /\ getMinutes utcZone t' = mi /\
    getSeconds utcZone t' = 0%Z /\ getMilliseconds utcZone t' = 0%Z.
Proof.
  apply (getNextSummaryTime_spec utcZone 0%Z (fun _ _ => eq_refl)
           1704110400000%Z DEFAULT_SETTINGS).
  - vm_compute. reflexivity.
  - reflexivity.
  - vm_compute. discriminate.
Defined.

Lemma getNextRunTime_spec_witness :
  getNextRunTime (Some 1704110400000%Z) DEFAULT_SETTINGS =
    Some (1704110400000 + 30 * 60000)%Z /\
  (1704110400000 + 300000 <= 1704110400000 + 30 * 60000
   <= 1704110400000 + 21600000)%Z.
Proof.
  apply (proj1 (getNextRunTime_spec 1704110400000%Z DEFAULT_SETTINGS
                  ltac:(vm_compute; reflexivity)
                  ltac:(vm_compute; discriminate)) 30%Z).
  reflexivity.
Defined.

Lemma action_item_fields_witness :
  ActionItem.assignee shipItem <> [] /\
  ActionItem.completed shipItem = false /\
  exists topic,
    In topic [release] /\ Topic.actionRequired topic = true /\
    ActionItem.topic shipItem = Topic.title topic /\
    In (ActionItem.task shipItem) (Topic.keyPoints topic) /\
    (ActionItem.priority shipItem = high <->
     QArith_base.Qle (Importance.ofZ 8) (Topic.importance topic)) /\
    (ActionItem.priority shipItem = low <->
     QArith_base.Qlt (Topic.importance topic) (Importance.ofZ 5)) /\
    (ActionItem.deadline shipItem = None <->
     Topic.deadline topic = None \/ Topic.deadline topic = Some []).
Proof.
  apply (action_item_fields lowerLatin1 sampleParseDate shipItem [release]).
  vm_compute. left. reflexivity.
Defined.

Lemma calculateTimeDistribution_counts_witness :
  length sampleDistribution = 24 /\
  forall h,
    (0 <= h < 24)%Z ->
    nth_error sampleDistribution (Z.to_nat h) =
      Some (TimeDistribution.mk h
              (Z.of_nat (length (messagesAt utcZone h [alice1; bob1; alice2])))
              (Z.of_nat (length (topicsAt utcZone sampleParseDate h [release])))).
Proof.
  apply (calculateTimeDistribution_counts utcZone sampleParseDate
           [alice1; bob1; alice2] [release] sampleDistribution).
  vm_compute. reflexivity.
Defined.

Lemma calculateTimeDistribution_totals_witness :
  total TimeDistribution.messageCount sampleDistribution =
    Z.of_nat (length [alice1; bob1; alice2]) /\
  total TimeDistribution.topicCount sampleDistribution =
    Z.of_nat (length [release]).
Proof.
  apply (calculateTimeDistribution_totals utcZone sampleParseDate
           [alice1; bob1; alice2] [release] sampleDistribution).
  vm_compute. reflexivity.
Defined.

Lemma groupTopicsByCategory_stable_witness :
  filter (ofImportance (Importance.ofZ 5)) [release; retro; cleanup] =
  filter (fun topic => streq (Topic.category topic) (u "work")
                       && ofImportance (Importance.ofZ 5) topic)
    [retro; lunch; release; cleanup].
Proof.
  apply (groupTopicsByCategory_stable [retro; lunch; release; cleanup]
           [(u "work", [release; retro; cleanup]); (u "personal", [lunch])]).
  - vm_compute. reflexivity.
  - reflexivity.
Defined.

Lemma getNextSummaryTime_without_colon_witness :
  valid (validateSettings noColon) = false /\
  getNextSummaryTime utcZone noon_2024_01_01 noColon = Some None.
Proof.
  apply (getNextSummaryTime_without_colon utcZone noon_2024_01_01 noColon).
  - reflexivity.
  - intros c Hc E. subst c. cbv in Hc.
    repeat (destruct Hc as [Hc | Hc]; [discriminate Hc|]). exact Hc.
Defined.
